(** * pallet-balances-maintenance: account invariants, scanner and dispatcher

    A shallow embedding of [scripts/accounts-invariants/pallet-balances-maintenance.py].

    Python integers are unbounded, so every number is a [Z].  Code that can
    raise returns a [result]; code that logs, talks to the chain or writes a
    file runs in the state-and-exception monad [M] over a [World]. *)

From Stdlib Require Import ZArith List Bool Lia.
From stdpp Require Import base gmap strings list.

Local Open Scope string_scope.
Local Open Scope list_scope.
Local Open Scope Z_scope.

(** ** Exceptions and results *)

Inductive exn : Type :=
| AssertionError (msg : string)
| KeyError (key : string)
| ValueError (msg : string)
| NameError (name : string)
| AttributeError (msg : string)
| SubstrateRequestException (msg : string)
| SystemExit (code : Z).

Inductive result (A : Type) : Type :=
| Ok (a : A)
| Raise (e : exn).

Arguments Ok {A} a.
Arguments Raise {A} e.

Definition rbind {A B : Type} (r : result A) (k : A -> result B) : result B :=
  match r with
  | Ok a => k a
  | Raise e => Raise e
  end.

Notation "'let?' x ':=' c 'in' k" := (rbind c (fun x => k))
  (at level 10, x pattern, c at level 100, k at level 200, only parsing).

(** [assert cond, msg] *)
Definition py_assert (cond : bool) (msg : string) : result unit :=
  if cond then Ok tt else Raise (AssertionError msg).

(** ** Version classifier *)

Inductive ChainMajorVersion : Type :=
| PRE_12_MAJOR_VERSION
| AT_LEAST_12_MAJOR_VERSION.

#[global] Instance ChainMajorVersion_eq_dec : EqDecision ChainMajorVersion.
Proof. solve_decision. Defined.

(** [==] and [is] on enum members. *)
Definition version_eqb (a b : ChainMajorVersion) : bool := bool_decide (a = b).

(** [ChainMajorVersion.from_spec_version]: [cls(member)] is the member
    itself, so the classmethod is the conditional alone. *)
Definition from_spec_version (spec_version : Z) : ChainMajorVersion :=
  if spec_version <=? 65 then PRE_12_MAJOR_VERSION
  else AT_LEAST_12_MAJOR_VERSION.

(** ** Account records

    [System.Account] decodes to an [AccountInfo] whose ['data'] member has the
    pre-12 layout (free, reserved, misc_frozen, fee_frozen) or the
    12-and-later layout (free, reserved, frozen, flags).  Only the members the
    script reads are kept. *)

Inductive AccountData : Type :=
| AccountDataPre12 (free reserved misc_frozen fee_frozen : Z)
| AccountDataV12 (free reserved frozen flags : Z).

Record AccountInfo : Type := mkAccountInfo {
  providers : Z;
  consumers : Z;
  data : AccountData
}.

Definition data_free (d : AccountData) : Z :=
  match d with
  | AccountDataPre12 free _ _ _ => free
  | AccountDataV12 free _ _ _ => free
  end.

Definition data_reserved (d : AccountData) : Z :=
  match d with
  | AccountDataPre12 _ reserved _ _ => reserved
  | AccountDataV12 _ reserved _ _ => reserved
  end.

(** Members that exist in one layout only: subscripting the other layout
    raises. *)
Definition data_misc_frozen (d : AccountData) : result Z :=
  match d with
  | AccountDataPre12 _ _ misc_frozen _ => Ok misc_frozen
  | AccountDataV12 _ _ _ _ => Raise (KeyError "misc_frozen")
  end.

Definition data_fee_frozen (d : AccountData) : result Z :=
  match d with
  | AccountDataPre12 _ _ _ fee_frozen => Ok fee_frozen
  | AccountDataV12 _ _ _ _ => Raise (KeyError "fee_frozen")
  end.

Definition data_frozen (d : AccountData) : result Z :=
  match d with
  | AccountDataPre12 _ _ _ _ => Raise (KeyError "frozen")
  | AccountDataV12 _ _ frozen _ => Ok frozen
  end.

Definition data_flags (d : AccountData) : result Z :=
  match d with
  | AccountDataPre12 _ _ _ _ => Raise (KeyError "flags")
  | AccountDataV12 _ _ _ flags => Ok flags
  end.

(** ** Invariant predicate engine *)

Definition account_ref_counter_invariant (providers consumers : Z) : bool :=
  ((providers <=? 1) && (consumers =? 0)) || ((consumers >? 0) && (providers =? 1)).

Definition check_account_invariants
    (account : AccountInfo) (chain_major_version : ChainMajorVersion) (ed : Z)
    : result bool :=
  let providers := providers account in
  let consumers := consumers account in
  let free := data_free (data account) in
  let reserved := data_reserved (data account) in
  let account_ref_counter_invariant :=
    account_ref_counter_invariant providers consumers in
  if version_eqb chain_major_version PRE_12_MAJOR_VERSION then
    let? misc_frozen := data_misc_frozen (data account) in
    let? fee_frozen := data_fee_frozen (data account) in
    let ed_is_for_total_balance_invariant := free + reserved >=? ed in
    let locked_balance_is_on_free_balance_invariant :=
      free >=? Z.max misc_frozen fee_frozen in
    Ok (account_ref_counter_invariant &&
        ed_is_for_total_balance_invariant &&
        locked_balance_is_on_free_balance_invariant)
  else
    let? frozen := data_frozen (data account) in
    let? flags := data_flags (data account) in
    let ed_is_for_free_balance_only_invariant := free >=? ed in
    let locked_balance_is_on_total_balance_invariant := free + reserved >=? frozen in
    let is_account_already_upgraded := flags >=? 2 ^ 127 in
    let consumer_ref_applies_to_suspended_balances_invariant :=
      negb is_account_already_upgraded
      || ((frozen =? 0) && (reserved =? 0))
      || (consumers >? 0) in
    Ok (account_ref_counter_invariant &&
        ed_is_for_free_balance_only_invariant &&
        locked_balance_is_on_total_balance_invariant &&
        consumer_ref_applies_to_suspended_balances_invariant).

(** The message of the second assertion is an f-string over the account:
    its fixed words are kept, the text of the account is left out. *)
Definition check_if_account_would_be_dust_in_12_version
    (account : AccountInfo) (chain_major_version : ChainMajorVersion) (ed : Z)
    : result bool :=
  let? _ := py_assert (version_eqb chain_major_version PRE_12_MAJOR_VERSION)
              "Chain major version must be less than 12!" in
  let? holds := check_account_invariants account chain_major_version ed in
  let? _ := py_assert holds "Account does not meet pre-12 version invariants!" in
  let free := data_free (data account) in
  Ok (free <? ed).

(** ** Python sequences: [range] and slices *)

(** Number of elements of [range(start, stop, step)] for a non-zero step. *)
Definition range_length (start stop step : Z) : Z :=
  if step >? 0 then
    if start <? stop then (stop - start - 1) / step + 1 else 0
  else
    if stop <? start then (start - stop - 1) / (- step) + 1 else 0.

Definition py_range (start stop step : Z) : result (list Z) :=
  if step =? 0 then Raise (ValueError "range() arg 3 must not be zero")
  else Ok (map (fun k : nat => start + Z.of_nat k * step)
               (seq 0 (Z.to_nat (range_length start stop step)))).

(** A slice bound is counted from the end when negative and clamped to the
    list. *)
Definition slice_bound (len x : Z) : Z :=
  if x <? 0 then Z.max (x + len) 0 else Z.min x len.

(** [l[lo:hi]] *)
Definition py_slice {A : Type} (l : list A) (lo hi : Z) : list A :=
  let len := Z.of_nat (length l) in
  let lo' := slice_bound len lo in
  let hi' := slice_bound len hi in
  take (Z.to_nat (hi' - lo')) (drop (Z.to_nat lo') l).

(** [chunks] is a generator over a list that nobody mutates meanwhile, so the
    chunks it yields one by one are the elements of this list, in order; the
    [ValueError] of a zero step is raised when the first chunk is asked for. *)
Definition chunks {A : Type} (list_of_elements : list A) (n : Z)
    : result (list (list A)) :=
  let? starts := py_range 0 (Z.of_nat (length list_of_elements)) n in
  Ok (map (fun i => py_slice list_of_elements i (i + n)) starts).

(** ** The chain client, the log and the file system *)

Definition AccountId : Type := string.

(** What [json.dump] receives and [info.serialize()] produces, kept as data. *)
Definition AccountEntry : Type := (AccountId * AccountInfo)%type.

Definition serialize (info : AccountInfo) : AccountInfo := info.

#[warnings="-register-all"]
Inductive Call : Type :=
| BalancesTransfer (dest : AccountId) (value : Z)
| UtilityBatch (calls : list Call)
| BalancesUpgradeAccounts (who : list AccountId).

Record Keypair : Type := { ss58_address : string }.

Record Extrinsic : Type := { ext_call : Call; ext_keypair : Keypair }.

Record ExtrinsicReceipt : Type := {
  block_hash : string;
  total_fee_amount : Z;
  is_success : bool;
  error_message : string;
  triggered_events : list string
}.

(** What [chain_connection.submit_extrinsic] does with one submission. *)
Inductive SubmitOutcome : Type :=
| Included (receipt : ExtrinsicReceipt)
| TransportFailure (msg : string).

(** The node behind the connection: its runtime version, its existential
    deposit, the pages it serves to the k-th [query_map] and its answer to the
    k-th submission. *)
Record Chain : Type := {
  spec_version : Z;
  existential_deposit : Z;
  account_pages : nat -> list (list (AccountId * AccountInfo));
  submit_outcome : nat -> SubmitOutcome
}.

Inductive LogLevel : Type := DEBUG | INFO | WARNING | ERROR.

Inductive LogMessage : Type :=
| AccountDoesNotMeetPredicate (account_id : AccountId) (check_name : string)
| CheckedAccounts (i : Z)
| TotalAccounts (check_name : string) (total_accounts_count : Z)
| AboutToSendTransfers (count : Z) (amount : Z) (sender : string)
    (account_ids_chunk : list AccountId)
| AboutToUpgrade (count : Z) (amount : Z)
| ExtrinsicToBeSent (extrinsic : Extrinsic)
| ExtrinsicIncluded (block : string) (fee : Z)
| ExtrinsicSuccess
| FewerEventsThanExpected (emitted expected : Z)
| ExtrinsicFailed (message : string)
| NotSendingExtrinsic
| FailedToSubmitExtrinsic (e : exn)
| QueryingAllAccounts
| FoundInvalidAccounts (count : Z)
| AllAccountsMeetInvariants
| WroteFile (json_file_name : string)
| SenderAccountMissing
| DryRunEnabled
| Connected
| MajorVersionIs (v : ChainMajorVersion)
| FixFreeBalanceWrongVersion
| UpgradeAccountsWrongVersion
| ExistentialDepositIs (amount : Z)
| UsingAccountForTransfers (sender : string)
| WillSendAtMost (n : Z)
| LookingForDust
| FoundDust (count : Z)
| AdjustingBalances
| TransfersDone
| NoDustAccounts
| UsingAccountForUpgrade (sender : string)
| WillUpgradeAtMost (n : Z)
| UpgradeAccountsDone
| PerformingSanityChecks
| Done.

(** Calls that leave the process. *)
Inductive Effect : Type :=
| Connect (ws_url : string)
| GetBlockRuntimeVersion
| GetConstant (module_name constant_name : string)
| QueryMap (module_name storage_function : string) (page_size : Z)
| ComposeCall (call : Call)
| CreateSignedExtrinsic (call : Call) (keypair : Keypair)
| SubmitExtrinsic (extrinsic : Extrinsic)
| OpenForWriting (json_file_name : string)
| CreateKeypairFromUri (seed : string).

Record World : Type := mkWorld {
  log : list (LogLevel * LogMessage);
  effects : list Effect;
  files : gmap string (list AccountEntry);
  queries : nat;
  submissions : nat
}.

(** ** The monad of the script

    [log] collects the records handed to the module-level logger, [effects]
    the calls that leave the process, in the order they are made. *)

Definition M (A : Type) : Type := World -> result A * World.

Definition ret {A : Type} (a : A) : M A := fun w => (Ok a, w).

Definition raise {A : Type} (e : exn) : M A := fun w => (Raise e, w).

Definition bind {A B : Type} (m : M A) (k : A -> M B) : M B :=
  fun w =>
    match m w with
    | (Ok a, w') => k a w'
    | (Raise e, w') => (Raise e, w')
    end.

Notation "'let*' x ':=' c 'in' k" := (bind c (fun x => k))
  (at level 10, x pattern, c at level 100, k at level 200, only parsing).

Notation "c ';;' k" := (bind c (fun _ => k))
  (at level 100, k at level 200, right associativity, only parsing).

Definition lift {A : Type} (r : result A) : M A := fun w => (r, w).

(** [try: body except exception_class as e: handler e].  The expression
    after [except] is evaluated when an exception leaves [body], and not
    before; an exception raised by that evaluation replaces the one in
    flight.  A class that is found is the test [isinstance] makes. *)
Definition try_except {A : Type}
    (body : M A) (exception_class : result (exn -> bool))
    (handler : exn -> M A) : M A :=
  fun w =>
    match body w with
    | (Raise e, w') =>
        match exception_class with
        | Ok is_instance =>
            if is_instance e then handler e w' else (Raise e, w')
        | Raise e' => (Raise e', w')
        end
    | other => other
    end.

(** [exit(code)] *)
Definition exit {A : Type} (code : Z) : M A := raise (SystemExit code).

Definition log_at (level : LogLevel) (msg : LogMessage) : M unit :=
  fun w => (Ok tt, mkWorld (log w ++ [(level, msg)]) (effects w) (files w)
                           (queries w) (submissions w)).

Definition effect (e : Effect) : M unit :=
  fun w => (Ok tt, mkWorld (log w) (effects w ++ [e]) (files w)
                           (queries w) (submissions w)).

Definition when (cond : bool) (body : M unit) : M unit :=
  if cond then body else ret tt.

Fixpoint mapM {A B : Type} (f : A -> M B) (l : list A) : M (list B) :=
  match l with
  | [] => ret []
  | x :: rest =>
      let* y := f x in
      let* ys := mapM f rest in
      ret (y :: ys)
  end.

(** ** The operations of [substrateinterface] the script calls *)

Definition SubstrateInterface (ws_url : string) (node : Chain) : M Chain :=
  effect (Connect ws_url) ;; ret node.

Definition SubstrateInterface_get_block_runtime_version
    (chain_connection : Chain) : M Z :=
  effect GetBlockRuntimeVersion ;; ret (spec_version chain_connection).

Definition SubstrateInterface_get_constant
    (chain_connection : Chain) (module_name constant_name : string) : M Z :=
  effect (GetConstant module_name constant_name) ;;
  ret (existential_deposit chain_connection).

Definition SubstrateInterface_query_map
    (chain_connection : Chain) (module_name storage_function : string)
    (page_size : Z) : M (list (list (AccountId * AccountInfo))) :=
  fun w =>
    (Ok (account_pages chain_connection (queries w)),
     mkWorld (log w)
             (effects w ++ [QueryMap module_name storage_function page_size])
             (files w) (S (queries w)) (submissions w)).

Definition SubstrateInterface_compose_call (call : Call) : M Call :=
  effect (ComposeCall call) ;; ret call.

Definition SubstrateInterface_create_signed_extrinsic
    (call : Call) (keypair : Keypair) : M Extrinsic :=
  effect (CreateSignedExtrinsic call keypair) ;;
  ret {| ext_call := call; ext_keypair := keypair |}.

Definition SubstrateInterface_submit_extrinsic
    (chain_connection : Chain) (extrinsic : Extrinsic) : M ExtrinsicReceipt :=
  fun w =>
    let w' := mkWorld (log w) (effects w ++ [SubmitExtrinsic extrinsic])
                      (files w) (queries w) (S (submissions w)) in
    match submit_outcome chain_connection (submissions w) with
    | Included receipt => (Ok receipt, w')
    | TransportFailure msg => (Raise (SubstrateRequestException msg), w')
    end.

(** The attribute reference [substrateinterface.SubstrateRequestException].
    The script imports the package and nothing from it; the class is defined
    in the submodule [substrateinterface.exceptions] and the package does not
    bind its name, so the reference raises. *)
Definition no_attribute_SubstrateRequestException : exn :=
  AttributeError
    "module 'substrateinterface' has no attribute 'SubstrateRequestException'".

Definition substrateinterface_SubstrateRequestException : result (exn -> bool) :=
  Raise no_attribute_SubstrateRequestException.

(** [Keypair.create_from_uri] on a secret URI the library accepts; the
    address of the keypair is left as the seed it is derived from. *)
Definition Keypair_create_from_uri (seed : string) : M Keypair :=
  effect (CreateKeypairFromUri seed) ;; ret {| ss58_address := seed |}.

(** ** The script *)

Record Args : Type := {
  arg_ws_url : string;
  arg_dry_run : bool;
  arg_transfer_calls_in_batch : Z;
  arg_upgrade_accounts_in_batch : Z;
  arg_fix_free_balance : bool;
  arg_upgrade_accounts : bool
}.

Definition get_chain_major_version (chain_connection : Chain)
    : M ChainMajorVersion :=
  let* spec_version :=
    SubstrateInterface_get_block_runtime_version chain_connection in
  let major_version := from_spec_version spec_version in
  ret major_version.

Definition Predicate : Type :=
  AccountInfo -> ChainMajorVersion -> Z -> result bool.

(** The body of the [for] loop of [filter_false_accounts], with the loop
    index [i], the counter and the list appended to as arguments. *)
Fixpoint filter_false_accounts_loop
    (ed : Z) (chain_major_version : ChainMajorVersion)
    (check_accounts_predicate : Predicate)
    (check_accounts_predicate_name : string)
    (account_query : list (AccountId * AccountInfo))
    (i total_accounts_count : Z)
    (accounts_that_do_not_meet_predicate : list AccountEntry)
    : M (Z * list AccountEntry) :=
  match account_query with
  | [] => ret (total_accounts_count, accounts_that_do_not_meet_predicate)
  | (account_id, info) :: rest =>
      let total_accounts_count := total_accounts_count + 1 in
      let* holds := lift (check_accounts_predicate info chain_major_version ed) in
      let* accounts_that_do_not_meet_predicate :=
        (if negb holds then
           log_at DEBUG
             (AccountDoesNotMeetPredicate account_id check_accounts_predicate_name) ;;
           ret (accounts_that_do_not_meet_predicate
                  ++ [(account_id, serialize info)])
         else ret accounts_that_do_not_meet_predicate) in
      when ((i mod 5000 =? 0) && (i >? 0)) (log_at INFO (CheckedAccounts i)) ;;
      filter_false_accounts_loop ed chain_major_version
        check_accounts_predicate check_accounts_predicate_name
        rest (i + 1) total_accounts_count accounts_that_do_not_meet_predicate
  end.

Definition filter_false_accounts
    (chain_connection : Chain) (ed : Z) (chain_major_version : ChainMajorVersion)
    (check_accounts_predicate : Predicate)
    (check_accounts_predicate_name : string) : M (list AccountEntry) :=
  let* account_query :=
    SubstrateInterface_query_map chain_connection "System" "Account" 1000 in
  let* (total_accounts_count, accounts_that_do_not_meet_predicate) :=
    filter_false_accounts_loop ed chain_major_version
      check_accounts_predicate check_accounts_predicate_name
      (concat account_query) 0 0 [] in
  log_at INFO (TotalAccounts check_accounts_predicate_name total_accounts_count) ;;
  ret accounts_that_do_not_meet_predicate.

Definition find_dust_accounts
    (chain_connection : Chain) (ed : Z) (chain_major_version : ChainMajorVersion)
    : M (list AccountEntry) :=
  lift (py_assert (version_eqb chain_major_version PRE_12_MAJOR_VERSION)
          "Chain major version must be less than 12!") ;;
  filter_false_accounts chain_connection ed chain_major_version
    (fun x y z =>
       let? dust := check_if_account_would_be_dust_in_12_version x y z in
       Ok (negb dust))
    "'account valid in pre-12 version but not in 12 version'".

Definition len {A : Type} (l : list A) : Z := Z.of_nat (length l).

Definition submit_extrinsic
    (chain_connection : Chain) (extrinsic : Extrinsic)
    (expected_number_of_events : Z) (dry_run : bool) : M unit :=
  try_except
    (log_at DEBUG (ExtrinsicToBeSent extrinsic) ;;
     if negb dry_run then
       let* receipt :=
         SubstrateInterface_submit_extrinsic chain_connection extrinsic in
       log_at INFO (ExtrinsicIncluded (block_hash receipt) (total_fee_amount receipt)) ;;
       if is_success receipt then
         log_at DEBUG ExtrinsicSuccess ;;
         when (len (triggered_events receipt) <? expected_number_of_events)
           (log_at DEBUG (FewerEventsThanExpected
                            (len (triggered_events receipt))
                            expected_number_of_events))
       else
         log_at WARNING (ExtrinsicFailed (error_message receipt))
     else
       log_at INFO NotSendingExtrinsic)
    substrateinterface_SubstrateRequestException
    (fun e =>
       log_at WARNING (FailedToSubmitExtrinsic e) ;;
       raise e).

(** One iteration of the [for] loop of [batch_transfer]. *)
Definition batch_transfer_chunk
    (args : Args) (chain_connection : Chain) (amount : Z)
    (sender_keypair : Keypair) (account_ids_chunk : list AccountId) : M unit :=
  let* balance_calls :=
    mapM (fun account =>
            SubstrateInterface_compose_call (BalancesTransfer account amount))
         account_ids_chunk in
  let* batch_call := SubstrateInterface_compose_call (UtilityBatch balance_calls) in
  let* extrinsic :=
    SubstrateInterface_create_signed_extrinsic batch_call sender_keypair in
  log_at INFO (AboutToSendTransfers (len balance_calls) amount
                 (ss58_address sender_keypair) account_ids_chunk) ;;
  submit_extrinsic chain_connection extrinsic (len balance_calls) (arg_dry_run args).

(** [for x in xs: body x] *)
Fixpoint for_each {A : Type} (xs : list A) (body : A -> M unit) : M unit :=
  match xs with
  | [] => ret tt
  | x :: rest => body x ;; for_each rest body
  end.

(** [args] is the module-level variable the function reads [dry_run] from;
    [input_args] is its parameter. *)
Definition batch_transfer
    (args : Args) (chain_connection : Chain) (input_args : Args)
    (accounts : list AccountId) (amount : Z) (sender_keypair : Keypair)
    : M unit :=
  let* account_ids_chunks :=
    lift (chunks accounts (arg_transfer_calls_in_batch input_args)) in
  for_each account_ids_chunks
    (batch_transfer_chunk args chain_connection amount sender_keypair).

(** One iteration of the [for] loop of [upgrade_accounts]. *)
Definition upgrade_accounts_chunk
    (args : Args) (existential_deposit : Z) (chain_connection : Chain)
    (sender_keypair : Keypair) (account_ids_chunk : list AccountId) : M unit :=
  let* upgrade_accounts_call :=
    SubstrateInterface_compose_call (BalancesUpgradeAccounts account_ids_chunk) in
  let* extrinsic :=
    SubstrateInterface_create_signed_extrinsic upgrade_accounts_call sender_keypair in
  log_at INFO (AboutToUpgrade (len account_ids_chunk) existential_deposit) ;;
  submit_extrinsic chain_connection extrinsic (len account_ids_chunk)
    (arg_dry_run args).

(** [args] and [existential_deposit] are the module-level variables the
    function reads. *)
Definition upgrade_accounts
    (args : Args) (existential_deposit : Z)
    (chain_connection : Chain) (input_args : Args) (ed : Z)
    (chain_major_version : ChainMajorVersion) (sender_keypair : Keypair)
    : M unit :=
  log_at INFO QueryingAllAccounts ;;
  let* all_accounts :=
    filter_false_accounts chain_connection ed chain_major_version
      (fun x y z => Ok false) "'all accounts'" in
  let all_accounts_on_chain := map fst all_accounts in
  let* account_ids_chunks :=
    lift (chunks all_accounts_on_chain (arg_upgrade_accounts_in_batch input_args)) in
  for_each account_ids_chunks
    (upgrade_accounts_chunk args existential_deposit chain_connection sender_keypair).

(** [open(json_file_name, 'w')] creates the file or truncates it; the runs
    modelled are those in which the file can be opened. *)
Definition save_accounts_to_json_file
    (json_file_name : string) (accounts : list AccountEntry) : M unit :=
  effect (OpenForWriting json_file_name) ;;
  (fun w => (Ok tt, mkWorld (log w) (effects w)
                            (<[json_file_name := accounts]> (files w))
                            (queries w) (submissions w))) ;;
  log_at INFO (WroteFile json_file_name).

Definition perform_account_sanity_checks
    (chain_connection : Chain) (ed : Z) (chain_major_version : ChainMajorVersion)
    : M unit :=
  let* invalid_accounts :=
    filter_false_accounts chain_connection ed chain_major_version
      check_account_invariants "'account invariants'" in
  if len invalid_accounts >? 0 then
    log_at WARNING (FoundInvalidAccounts (len invalid_accounts)) ;;
    save_accounts_to_json_file "accounts-with-failed-invariants.json" invalid_accounts
  else
    log_at INFO AllAccountsMeetInvariants.

(** Reading a module-level variable that is assigned only under a condition. *)
Definition read_variable {A : Type} (name : string) (value : option A) : M A :=
  match value with
  | Some v => ret v
  | None => raise (NameError name)
  end.

(** The body of [if args.fix_free_balance:] in the [__main__] block, after
    the version checks. *)
Definition main_fix_free_balance
    (args : Args) (chain_ws_connection : Chain) (existential_deposit : Z)
    (chain_major_version : ChainMajorVersion)
    (sender_origin_account_seed : option string) : M unit :=
  let* seed := read_variable "sender_origin_account_seed"
                 sender_origin_account_seed in
  let* sender_origin_account_keypair := Keypair_create_from_uri seed in
  log_at INFO (UsingAccountForTransfers
                 (ss58_address sender_origin_account_keypair)) ;;
  log_at INFO (WillSendAtMost (arg_transfer_calls_in_batch args)) ;;
  log_at INFO LookingForDust ;;
  let* dust_accounts_in_12_version :=
    find_dust_accounts chain_ws_connection existential_deposit
      chain_major_version in
  if negb (len dust_accounts_in_12_version =? 0) then
    log_at INFO (FoundDust (len dust_accounts_in_12_version)) ;;
    save_accounts_to_json_file "dust-accounts.json"
      dust_accounts_in_12_version ;;
    log_at INFO AdjustingBalances ;;
    batch_transfer args chain_ws_connection args
      (map fst dust_accounts_in_12_version) existential_deposit
      sender_origin_account_keypair ;;
    log_at INFO TransfersDone
  else
    log_at INFO NoDustAccounts.

(** The body of [if args.upgrade_accounts:] in the [__main__] block, after
    the version checks. *)
Definition main_upgrade_accounts
    (args : Args) (chain_ws_connection : Chain) (existential_deposit : Z)
    (chain_major_version : ChainMajorVersion)
    (sender_origin_account_seed : option string) : M unit :=
  let* seed := read_variable "sender_origin_account_seed"
                 sender_origin_account_seed in
  let* sender_origin_account_keypair := Keypair_create_from_uri seed in
  log_at INFO (UsingAccountForUpgrade
                 (ss58_address sender_origin_account_keypair)) ;;
  log_at INFO (WillUpgradeAtMost (arg_upgrade_accounts_in_batch args)) ;;
  upgrade_accounts args existential_deposit chain_ws_connection args
    existential_deposit chain_major_version sender_origin_account_keypair ;;
  log_at INFO UpgradeAccountsDone.

(** The [__main__] block.  [SENDER_ACCOUNT] is [os.getenv('SENDER_ACCOUNT')]
    and [node] is the node that [args.ws_url] resolves to. *)
Definition main (args : Args) (SENDER_ACCOUNT : option string) (node : Chain)
    : M unit :=
  let* sender_origin_account_seed :=
    (if arg_fix_free_balance args || arg_upgrade_accounts args then
       match SENDER_ACCOUNT with
       | None => log_at ERROR SenderAccountMissing ;; exit 1
       | Some seed => ret (Some seed)
       end
     else ret None) in
  when (arg_dry_run args) (log_at INFO DryRunEnabled) ;;
  let* chain_ws_connection := SubstrateInterface (arg_ws_url args) node in
  log_at INFO Connected ;;
  let* chain_major_version := get_chain_major_version chain_ws_connection in
  log_at INFO (MajorVersionIs chain_major_version) ;;
  when (arg_fix_free_balance args)
    (when (negb (version_eqb chain_major_version PRE_12_MAJOR_VERSION))
       (log_at ERROR FixFreeBalanceWrongVersion ;; exit 2)) ;;
  when (arg_upgrade_accounts args)
    (when (negb (version_eqb chain_major_version AT_LEAST_12_MAJOR_VERSION))
       (log_at ERROR UpgradeAccountsWrongVersion ;; exit 3)) ;;
  let* existential_deposit :=
    SubstrateInterface_get_constant chain_ws_connection
      "Balances" "ExistentialDeposit" in
  log_at INFO (ExistentialDepositIs existential_deposit) ;;
  when (arg_fix_free_balance args)
    (main_fix_free_balance args chain_ws_connection existential_deposit
       chain_major_version sender_origin_account_seed) ;;
  when (arg_upgrade_accounts args)
    (main_upgrade_accounts args chain_ws_connection existential_deposit
       chain_major_version sender_origin_account_seed) ;;
  log_at INFO PerformingSanityChecks ;;
  perform_account_sanity_checks chain_ws_connection existential_deposit
    chain_major_version ;;
  log_at INFO Done.

(** The state the process starts in: nothing logged, nothing called, and the
    files already on disk. *)
Definition initial_world (files_on_disk : gmap string (list AccountEntry)) : World :=
  mkWorld [] [] files_on_disk 0 0.

(** ** Test data *)

(** An account source of five pages holding 3, 3, 3, 3 and 1 accounts; the
    k-th account yielded has [free = k]. *)
Definition scan_test_pages : list (list (AccountId * AccountInfo)) :=
  [[("account-01", mkAccountInfo 1 0 (AccountDataPre12 1 0 0 0));
    ("account-02", mkAccountInfo 1 0 (AccountDataPre12 2 0 0 0));
    ("account-03", mkAccountInfo 1 0 (AccountDataPre12 3 0 0 0))];
   [("account-04", mkAccountInfo 1 0 (AccountDataPre12 4 0 0 0));
    ("account-05", mkAccountInfo 1 0 (AccountDataPre12 5 0 0 0));
    ("account-06", mkAccountInfo 1 0 (AccountDataPre12 6 0 0 0))];
   [("account-07", mkAccountInfo 1 0 (AccountDataPre12 7 0 0 0));
    ("account-08", mkAccountInfo 1 0 (AccountDataPre12 8 0 0 0));
    ("account-09", mkAccountInfo 1 0 (AccountDataPre12 9 0 0 0))];
   [("account-10", mkAccountInfo 1 0 (AccountDataPre12 10 0 0 0));
    ("account-11", mkAccountInfo 1 0 (AccountDataPre12 11 0 0 0));
    ("account-12", mkAccountInfo 1 0 (AccountDataPre12 12 0 0 0))];
   [("account-13", mkAccountInfo 1 0 (AccountDataPre12 13 0 0 0))]].

Definition no_receipt : SubmitOutcome := TransportFailure "connection closed".

Definition scan_test_chain : Chain :=
  {| spec_version := 65;
     existential_deposit := 1;
     account_pages := fun _ => scan_test_pages;
     submit_outcome := fun _ => no_receipt |}.

Definition empty_test_chain : Chain :=
  {| spec_version := 65;
     existential_deposit := 1;
     account_pages := fun _ => [];
     submit_outcome := fun _ => no_receipt |}.

(** False for exactly the accounts yielded second and ninth. *)
Definition all_but_second_and_ninth : Predicate :=
  fun info _ _ =>
    Ok (negb ((data_free (data info) =? 2) || (data_free (data info) =? 9))).

(** The violations a predicate leaves in a sequence of accounts: those it is
    false for, in the order of the sequence. *)
Definition violations (p : AccountInfo -> bool)
    (accounts : list (AccountId * AccountInfo)) : list AccountEntry :=
  List.filter (fun entry => negb (p (snd entry)))
    (map (fun entry => (fst entry, serialize (snd entry))) accounts).

(** ** What a dispatcher run leaves behind *)

(** The batched call [batch_transfer] builds for one chunk. *)
Definition transfer_batch (amount : Z) (account_ids_chunk : list AccountId) : Call :=
  UtilityBatch (map (fun account => BalancesTransfer account amount) account_ids_chunk).

(** The calls to the chain client made for one chunk that reaches
    submission: one composed transfer per address, the composed batch, the
    signature and the submission. *)
Definition transfer_chunk_effects (amount : Z) (sender_keypair : Keypair)
    (account_ids_chunk : list AccountId) : list Effect :=
  map (fun account => ComposeCall (BalancesTransfer account amount)) account_ids_chunk
  ++ [ComposeCall (transfer_batch amount account_ids_chunk);
      CreateSignedExtrinsic (transfer_batch amount account_ids_chunk) sender_keypair;
      SubmitExtrinsic {| ext_call := transfer_batch amount account_ids_chunk;
                         ext_keypair := sender_keypair |}].

(** A node that includes the first submission with a failed execution, the
    second with success, and drops the connection on the third. *)
Definition failed_receipt : ExtrinsicReceipt :=
  {| block_hash := "0x01"; total_fee_amount := 7; is_success := false;
     error_message := "InsufficientBalance"; triggered_events := [] |}.

Definition successful_receipt : ExtrinsicReceipt :=
  {| block_hash := "0x02"; total_fee_amount := 7; is_success := true;
     error_message := ""; triggered_events := ["Transfer"; "Transfer"] |}.

Definition dispatch_test_chain : Chain :=
  {| spec_version := 65;
     existential_deposit := 500;
     account_pages := fun _ => [];
     submit_outcome := fun k =>
       match k with
       | O => Included failed_receipt
       | S O => Included successful_receipt
       | _ => TransportFailure "connection closed"
       end |}.

Definition dispatch_test_args : Args :=
  {| arg_ws_url := "wss://ws.test.azero.dev:443";
     arg_dry_run := false;
     arg_transfer_calls_in_batch := 2;
     arg_upgrade_accounts_in_batch := 128;
     arg_fix_free_balance := true;
     arg_upgrade_accounts := false |}.

Definition dispatch_test_keypair : Keypair := {| ss58_address := "sender" |}.

(** A node past the upgrade, and the arguments of an upgrade run. *)
Definition upgraded_test_chain : Chain :=
  {| spec_version := 66;
     existential_deposit := 500;
     account_pages := fun _ => [];
     submit_outcome := fun _ => no_receipt |}.

Definition upgrade_test_args : Args :=
  {| arg_ws_url := "wss://ws.test.azero.dev:443";
     arg_dry_run := false;
     arg_transfer_calls_in_batch := 64;
     arg_upgrade_accounts_in_batch := 128;
     arg_fix_free_balance := false;
     arg_upgrade_accounts := true |}.

(** A disk that holds the artifact of an earlier run. *)
Definition older_artifact : gmap string (list AccountEntry) :=
  {["accounts-with-failed-invariants.json" :=
      [("account-00", mkAccountInfo 2 0 (AccountDataPre12 0 0 0 0))]]}.

(** ** Quiet computations *)

(** A computation is quiet when it leaves the files as they are, opens none
    for writing and does not call [exit]. *)
Definition quiet {A : Type} (m : M A) : Prop :=
  forall w : World,
    files (snd (m w)) = files w /\
    (exists new : list Effect,
       effects (snd (m w)) = effects w ++ new /\
       forall name, ~ In (OpenForWriting name) new) /\
    (forall code, fst (m w) <> Raise (SystemExit code)).

(** A result that is not the exception of [exit]. *)
Definition no_exit {A : Type} (r : result A) : Prop :=
  forall code, r <> Raise (SystemExit code).

(** A computation that does not end in a call of [exit]. *)
Definition never_exits {A : Type} (m : M A) : Prop :=
  forall w : World, no_exit (fst (m w)).

(** ** Observations on a run *)

(** A node that includes whatever is submitted to it. *)
Definition all_included (chain_connection : Chain) : Prop :=
  forall k, exists receipt, submit_outcome chain_connection k = Included receipt.

(** The log record of a submission skipped in dry-run mode. *)
Definition is_not_sending (record : LogLevel * LogMessage) : bool :=
  match record with
  | (INFO, NotSendingExtrinsic) => true
  | _ => false
  end.

Definition is_submission (e : Effect) : bool :=
  match e with
  | SubmitExtrinsic _ => true
  | _ => false
  end.

(** What [submit_extrinsic] asks of the chain client when it returns. *)
Definition submission_calls (dry_run : bool) (extrinsic : Extrinsic) : list Effect :=
  if dry_run then [] else [SubmitExtrinsic extrinsic].

(** The calls to the chain client that one chunk of [batch_transfer] makes. *)
Definition transfer_chunk_calls (dry_run : bool) (amount : Z)
    (sender_keypair : Keypair) (account_ids_chunk : list AccountId) : list Effect :=
  map (fun account => ComposeCall (BalancesTransfer account amount)) account_ids_chunk
  ++ [ComposeCall (transfer_batch amount account_ids_chunk);
      CreateSignedExtrinsic (transfer_batch amount account_ids_chunk) sender_keypair]
  ++ submission_calls dry_run
       {| ext_call := transfer_batch amount account_ids_chunk;
          ext_keypair := sender_keypair |}.

(** The calls to the chain client that one chunk of [upgrade_accounts] makes. *)
Definition upgrade_chunk_calls (dry_run : bool) (sender_keypair : Keypair)
    (account_ids_chunk : list AccountId) : list Effect :=
  [ComposeCall (BalancesUpgradeAccounts account_ids_chunk);
   CreateSignedExtrinsic (BalancesUpgradeAccounts account_ids_chunk) sender_keypair]
  ++ submission_calls dry_run
       {| ext_call := BalancesUpgradeAccounts account_ids_chunk;
          ext_keypair := sender_keypair |}.

(** The transfers composed in a sequence of calls, as (destination, value). *)
Definition composed_transfers (calls : list Effect) : list (AccountId * Z) :=
  flat_map (fun e => match e with
                     | ComposeCall (BalancesTransfer dest value) => [(dest, value)]
                     | _ => []
                     end) calls.

(** The accounts named in the upgrade calls composed in a sequence of calls. *)
Definition upgraded_accounts (calls : list Effect) : list AccountId :=
  flat_map (fun e => match e with
                     | ComposeCall (BalancesUpgradeAccounts who) => who
                     | _ => []
                     end) calls.

(** The arguments of a dry run of the upgrade. *)
Definition upgrade_dry_run_args : Args :=
  {| arg_ws_url := "wss://ws.test.azero.dev:443";
     arg_dry_run := true;
     arg_transfer_calls_in_batch := 64;
     arg_upgrade_accounts_in_batch := 5;
     arg_fix_free_balance := false;
     arg_upgrade_accounts := true |}.

(** Arguments with chunk sizes below 1, which [type=int] accepts. *)
Definition negative_batch_args : Args :=
  {| arg_ws_url := "wss://ws.test.azero.dev:443";
     arg_dry_run := false;
     arg_transfer_calls_in_batch := -5;
     arg_upgrade_accounts_in_batch := -5;
     arg_fix_free_balance := true;
     arg_upgrade_accounts := false |}.

Definition zero_batch_args : Args :=
  {| arg_ws_url := "wss://ws.test.azero.dev:443";
     arg_dry_run := false;
     arg_transfer_calls_in_batch := 0;
     arg_upgrade_accounts_in_batch := 0;
     arg_fix_free_balance := true;
     arg_upgrade_accounts := false |}.

(** The records one pass of the loop of [filter_false_accounts] logs for the
    accounts it is given, the first of them at loop index [i]: a debug record
    for an account its predicate is false for, then the progress record of
    the index. *)
Fixpoint scan_records (p : AccountInfo -> bool) (check_name : string)
    (accounts : list (AccountId * AccountInfo)) (i : Z)
    : list (LogLevel * LogMessage) :=
  match accounts with
  | [] => []
  | (account_id, info) :: rest =>
      (if p info then []
       else [(DEBUG, AccountDoesNotMeetPredicate account_id check_name)])
      ++ (if (i mod 5000 =? 0) && (i >? 0) then [(INFO, CheckedAccounts i)] else [])
      ++ scan_records p check_name rest (i + 1)
  end.

Definition is_debug (record : LogLevel * LogMessage) : bool :=
  match record with
  | (DEBUG, _) => true
  | _ => false
  end.

(** The predicate [find_dust_accounts] hands to the scanner. *)
Definition not_dust : Predicate :=
  fun x y z =>
    let? dust := check_if_account_would_be_dust_in_12_version x y z in
    Ok (negb dust).

(** A pre-12 node serving, on two pages, a valid account, a record with the
    12-and-later layout, and one more account. *)
Definition mixed_test_chain : Chain :=
  {| spec_version := 65;
     existential_deposit := 500;
     account_pages := fun _ =>
       [[("valid", mkAccountInfo 1 0 (AccountDataPre12 600 0 0 0));
         ("foreign", mkAccountInfo 1 0 (AccountDataV12 600 0 0 0))];
        [("later", mkAccountInfo 1 0 (AccountDataPre12 100 0 0 0))]];
     submit_outcome := fun _ => Included successful_receipt |}.

(** A pre-12 node serving a dust account, then an account with two providers,
    then another dust account. *)
Definition invalid_test_chain : Chain :=
  {| spec_version := 65;
     existential_deposit := 500;
     account_pages := fun _ =>
       [[("dust", mkAccountInfo 1 0 (AccountDataPre12 499 1 0 0));
         ("invalid", mkAccountInfo 2 0 (AccountDataPre12 600 0 0 0));
         ("later", mkAccountInfo 1 0 (AccountDataPre12 100 400 0 0))]];
     submit_outcome := fun _ => Included successful_receipt |}.

(** A pre-12 node serving two valid accounts, the second of them dust, and
    including every submission. *)
Definition dust_test_chain : Chain :=
  {| spec_version := 65;
     existential_deposit := 500;
     account_pages := fun _ =>
       [[("funded", mkAccountInfo 1 0 (AccountDataPre12 600 0 0 0))];
        [("dust", mkAccountInfo 1 0 (AccountDataPre12 499 1 0 0))]];
     submit_outcome := fun _ => Included successful_receipt |}.

(** A computation all of whose calls that leave the process pass the test
    [allowed]. *)
Definition calls_only (allowed : Effect -> bool) {A : Type} (m : M A) : Prop :=
  forall w : World,
  exists new : list Effect,
    effects (snd (m w)) = effects w ++ new /\ forallb allowed new = true.


(** The calls of a run that reads the chain and writes artifacts only. *)
Definition is_read_only (e : Effect) : bool :=
  match e with
  | Connect _ | GetBlockRuntimeVersion | GetConstant _ _ | QueryMap _ _ _
  | OpenForWriting _ => true
  | _ => false
  end.

(** The arguments of a run that only checks. *)
Definition audit_args : Args :=
  {| arg_ws_url := "wss://ws.test.azero.dev:443";
     arg_dry_run := false;
     arg_transfer_calls_in_batch := 64;
     arg_upgrade_accounts_in_batch := 128;
     arg_fix_free_balance := false;
     arg_upgrade_accounts := false |}.

(** The same accounts on a node that drops every submission. *)
Definition unreachable_dust_chain : Chain :=
  {| spec_version := 65;
     existential_deposit := 500;
     account_pages := account_pages dust_test_chain;
     submit_outcome := fun _ => no_receipt |}.

(** An at-least-12 node holding two valid accounts. *)
Definition upgraded_pair_chain : Chain :=
  {| spec_version := 68;
     existential_deposit := 500;
     account_pages := fun _ =>
       [[("first", mkAccountInfo 1 0 (AccountDataV12 600 0 0 0));
         ("second", mkAccountInfo 1 1 (AccountDataV12 700 10 5 0))]];
     submit_outcome := fun _ => Included successful_receipt |}.

(** * Properties *)

(** ** Invariant predicate engine *)

Ltac bool_to_prop :=
  repeat first
    [ rewrite andb_true_iff | rewrite orb_true_iff | rewrite negb_true_iff
    | rewrite Z.leb_le | rewrite Z.ltb_lt | rewrite Z.eqb_eq
    | rewrite Z.geb_le | rewrite Z.gtb_lt | rewrite Z.geb_leb
    | rewrite Z.leb_gt ].

Lemma account_ref_counter_invariant_true (providers consumers : Z) :
  account_ref_counter_invariant providers consumers = true <->
  (providers <= 1 /\ consumers = 0) \/ (consumers > 0 /\ providers = 1).
Proof. unfold account_ref_counter_invariant. bool_to_prop. lia. Qed.

(** C1.  On an account with the pre-12 layout the pre-upgrade predicate
    returns a boolean (it does not raise), and that boolean is true exactly
    when the reference-counter invariant holds, [free + reserved >= ED] and
    [free >= max(misc_frozen, fee_frozen)].  This holds for all integer
    fields, the non-negative ones among them. *)
Theorem check_account_invariants_pre_12 :
  forall providers consumers free reserved misc_frozen fee_frozen ed : Z,
  exists b : bool,
    check_account_invariants
      (mkAccountInfo providers consumers
         (AccountDataPre12 free reserved misc_frozen fee_frozen))
      PRE_12_MAJOR_VERSION ed = Ok b /\
    (b = true <->
       ((providers <= 1 /\ consumers = 0) \/ (consumers > 0 /\ providers = 1)) /\
       free + reserved >= ed /\
       free >= Z.max misc_frozen fee_frozen).
Proof.
  intros. eexists. split; [reflexivity|]. cbn.
  rewrite !andb_true_iff, account_ref_counter_invariant_true.
  bool_to_prop. lia.
Qed.

(** C2.  On an account with the 12-and-later layout the at-least-upgrade
    predicate returns a boolean that is true exactly when the
    reference-counter invariant holds, [free >= ED],
    [free + reserved >= frozen] and (not upgraded, or nothing frozen and
    nothing reserved, or a consumer), where upgraded is [flags >= 2^127]; so
    with [free < ED] it is false whatever [free + reserved] is. *)
Theorem check_account_invariants_at_least_12 :
  forall providers consumers free reserved frozen flags ed : Z,
  exists b : bool,
    check_account_invariants
      (mkAccountInfo providers consumers
         (AccountDataV12 free reserved frozen flags))
      AT_LEAST_12_MAJOR_VERSION ed = Ok b /\
    (b = true <->
       ((providers <= 1 /\ consumers = 0) \/ (consumers > 0 /\ providers = 1)) /\
       free >= ed /\
       free + reserved >= frozen /\
       (~ flags >= 2 ^ 127 \/ (frozen = 0 /\ reserved = 0) \/ consumers > 0)) /\
    (free < ed -> b = false).
Proof.
  intros. eexists. split; [reflexivity|]. cbn.
  assert (Hiff : forall b : bool, (b = false) <-> ~ (b = true))
    by (intros []; split; congruence).
  rewrite Hiff.
  rewrite !andb_true_iff, account_ref_counter_invariant_true.
  bool_to_prop. lia.
Qed.

Lemma check_account_invariants_at_least_12_witness :
  exists b : bool,
    check_account_invariants
      (mkAccountInfo 1 0 (AccountDataV12 499 1 0 0))
      AT_LEAST_12_MAJOR_VERSION 500 = Ok b /\ b = false.
Proof.
  destruct (check_account_invariants_at_least_12 1 0 499 1 0 0 500)
    as (b & Hrun & _ & Hfalse).
  exists b. split; [exact Hrun | apply Hfalse; lia].
Defined.

(** C6.  The classifier sends every spec version up to 65 to the pre-12
    regime and every later one to the at-least-12 regime; it is a total
    function of its argument. *)
Theorem from_spec_version_threshold :
  forall v : Z,
    (v <= 65 -> from_spec_version v = PRE_12_MAJOR_VERSION) /\
    (v > 65 -> from_spec_version v = AT_LEAST_12_MAJOR_VERSION) /\
    from_spec_version 65 = PRE_12_MAJOR_VERSION /\
    from_spec_version 66 = AT_LEAST_12_MAJOR_VERSION.
Proof.
  intros v. unfold from_spec_version. repeat split; try reflexivity.
  - intros H. apply Z.leb_le in H. now rewrite H.
  - intros H. destruct (v <=? 65) eqn:E; [apply Z.leb_le in E; lia | reflexivity].
Qed.

Lemma from_spec_version_threshold_witness :
  from_spec_version 12 = PRE_12_MAJOR_VERSION /\
  from_spec_version 70 = AT_LEAST_12_MAJOR_VERSION.
Proof.
  split.
  - apply (proj1 (from_spec_version_threshold 12)). lia.
  - apply (proj1 (proj2 (from_spec_version_threshold 70))). lia.
Defined.

(** C3.  Under its precondition (pre-12 regime, account satisfying the
    pre-upgrade predicate) the dust predicate returns [free < ED].  In the
    at-least-12 regime, and on an account for which the pre-upgrade predicate
    is false, it raises [AssertionError]; whenever it does return a boolean,
    the precondition held. *)
Theorem dust_predicate_contract :
  forall (account : AccountInfo) (v : ChainMajorVersion) (ed : Z),
    (v = PRE_12_MAJOR_VERSION ->
     check_account_invariants account v ed = Ok true ->
     check_if_account_would_be_dust_in_12_version account v ed
       = Ok (data_free (data account) <? ed)) /\
    (v = AT_LEAST_12_MAJOR_VERSION ->
     exists msg,
       check_if_account_would_be_dust_in_12_version account v ed
         = Raise (AssertionError msg)) /\
    (check_account_invariants account PRE_12_MAJOR_VERSION ed = Ok false ->
     exists msg,
       check_if_account_would_be_dust_in_12_version account PRE_12_MAJOR_VERSION ed
         = Raise (AssertionError msg)) /\
    (forall b : bool,
       check_if_account_would_be_dust_in_12_version account v ed = Ok b ->
       v = PRE_12_MAJOR_VERSION /\
       check_account_invariants account v ed = Ok true /\
       (b = true <-> data_free (data account) < ed)).
Proof.
  intros account v ed. unfold check_if_account_would_be_dust_in_12_version.
  repeat split.
  - intros -> H. cbn. now rewrite H.
  - intros ->. cbn. eauto.
  - intros H. cbn. rewrite H. cbn. eauto.
  - destruct v; [reflexivity | discriminate].
  - destruct v; [|discriminate].
    destruct (check_account_invariants account PRE_12_MAJOR_VERSION ed)
      as [[|]|]; [reflexivity | discriminate | discriminate].
  - destruct v; [|discriminate].
    destruct (check_account_invariants account PRE_12_MAJOR_VERSION ed)
      as [[|]|]; try discriminate.
    intros ->. injection H as H. now apply Z.ltb_lt.
  - destruct v; [|discriminate].
    destruct (check_account_invariants account PRE_12_MAJOR_VERSION ed)
      as [[|]|]; try discriminate.
    intros Hlt. injection H as <-. now apply Z.ltb_lt.
Qed.

Lemma dust_predicate_contract_witness :
  check_if_account_would_be_dust_in_12_version
    (mkAccountInfo 1 0 (AccountDataPre12 499 1 0 0)) PRE_12_MAJOR_VERSION 500
    = Ok true /\
  check_if_account_would_be_dust_in_12_version
    (mkAccountInfo 1 0 (AccountDataPre12 500 0 0 0)) PRE_12_MAJOR_VERSION 500
    = Ok false /\
  (exists msg,
     check_if_account_would_be_dust_in_12_version
       (mkAccountInfo 1 0 (AccountDataV12 499 1 0 0)) AT_LEAST_12_MAJOR_VERSION 500
       = Raise (AssertionError msg)) /\
  (exists msg,
     check_if_account_would_be_dust_in_12_version
       (mkAccountInfo 2 0 (AccountDataPre12 499 1 0 0)) PRE_12_MAJOR_VERSION 500
       = Raise (AssertionError msg)).
Proof.
  split; [|split; [|split]].
  - apply (proj1 (dust_predicate_contract
                    (mkAccountInfo 1 0 (AccountDataPre12 499 1 0 0))
                    PRE_12_MAJOR_VERSION 500)); reflexivity.
  - apply (proj1 (dust_predicate_contract
                    (mkAccountInfo 1 0 (AccountDataPre12 500 0 0 0))
                    PRE_12_MAJOR_VERSION 500)); reflexivity.
  - apply (proj1 (proj2 (dust_predicate_contract
                    (mkAccountInfo 1 0 (AccountDataV12 499 1 0 0))
                    AT_LEAST_12_MAJOR_VERSION 500))); reflexivity.
  - apply (proj1 (proj2 (proj2 (dust_predicate_contract
                    (mkAccountInfo 2 0 (AccountDataPre12 499 1 0 0))
                    PRE_12_MAJOR_VERSION 500)))); reflexivity.
Defined.

(** ** Chunking *)

Section Chunks.
Context {A : Type}.
Implicit Types (l : list A) (n : Z) (k m : nat).

Lemma take_min_length l k : take (Nat.min k (length l)) l = take k l.
Proof.
  destruct (Nat.le_gt_cases k (length l)) as [Hle | Hgt].
  - now rewrite Nat.min_l.
  - rewrite Nat.min_r by lia. rewrite !take_ge; [reflexivity | lia | lia].
Qed.

(** The slice taken for the k-th start index. *)
Lemma py_slice_chunk l n k :
  1 <= n ->
  py_slice l (0 + Z.of_nat k * n) (0 + Z.of_nat k * n + n)
  = take (Z.to_nat n) (drop (k * Z.to_nat n) l).
Proof.
  intros Hn. unfold py_slice, slice_bound.
  assert (Hlo : 0 <= Z.of_nat k * n) by nia.
  destruct (0 + Z.of_nat k * n <? 0) eqn:E1; [apply Z.ltb_lt in E1; lia|].
  destruct (0 + Z.of_nat k * n + n <? 0) eqn:E2; [apply Z.ltb_lt in E2; lia|].
  assert (Hk : (k * Z.to_nat n)%nat = Z.to_nat (Z.of_nat k * n)) by nia.
  destruct (Z_lt_le_dec (Z.of_nat k * n) (Z.of_nat (length l))) as [Hin | Hout].
  - rewrite (Z.min_l (0 + _)) by lia.
    replace (Z.to_nat (0 + Z.of_nat k * n)) with (k * Z.to_nat n)%nat by lia.
    rewrite <- (take_min_length (drop _ l) (Z.to_nat n)).
    f_equal. rewrite length_drop. lia.
  - rewrite !(drop_ge l) by lia. now rewrite !take_nil.
Qed.

Lemma range_length_ceil n (len : Z) :
  1 <= n -> 0 <= len -> range_length 0 len n = (len + n - 1) / n.
Proof.
  intros Hn Hlen. unfold range_length.
  destruct (n >? 0) eqn:E; [|rewrite Z.gtb_ltb in E; apply Z.ltb_ge in E; lia].
  destruct (0 <? len) eqn:E'.
  - apply Z.ltb_lt in E'.
    replace (len + n - 1) with (len - 0 - 1 + 1 * n) by lia.
    rewrite Z.div_add by lia. reflexivity.
  - apply Z.ltb_ge in E'. replace len with 0 by lia.
    symmetry. apply Z.div_small. lia.
Qed.

Lemma chunks_unfold l n :
  1 <= n ->
  chunks l n
  = Ok (map (fun k => take (Z.to_nat n) (drop (k * Z.to_nat n) l))
            (seq 0 (Z.to_nat ((Z.of_nat (length l) + n - 1) / n)))).
Proof.
  intros Hn. unfold chunks, py_range.
  destruct (n =? 0) eqn:E; [apply Z.eqb_eq in E; lia|].
  cbn [rbind]. rewrite map_map, range_length_ceil by lia.
  f_equal. apply map_ext. intros k. now apply py_slice_chunk.
Qed.

Lemma concat_chunk_list l k m :
  concat (map (fun i => take k (drop (i * k) l)) (seq 0 m)) = take (m * k) l.
Proof.
  induction m as [|m IH].
  - reflexivity.
  - rewrite seq_S, map_app, concat_app, IH. cbn [map concat Nat.add].
    rewrite app_nil_r, take_take_drop. f_equal. lia.
Qed.

Lemma length_chunk l k i :
  length (take k (drop (i * k) l)) = Nat.min k (length l - i * k).
Proof. now rewrite length_take, length_drop. Qed.
End Chunks.

(** C7.  For a chunk size [n >= 1], [chunks] yields ceil(len/n) chunks: the
    count [c] is [(len + n - 1) / n], the one with [n*(c-1) < len <= n*c].
    Every chunk holds between 1 and [n] elements, every chunk but the last
    holds exactly [n], and the chunks concatenated are the input list; 130
    elements with [n = 64] give chunks of 64, 64 and 2 elements. *)
Theorem chunks_partition :
  forall (A : Type) (l : list A) (n : Z),
    1 <= n ->
    exists cs : list (list A),
      chunks l n = Ok cs /\
      len cs = (len l + n - 1) / n /\
      n * (len cs - 1) < len l <= n * len cs /\
      concat cs = l /\
      (forall (i : nat) (c : list A),
         cs !! i = Some c ->
         1 <= len c <= n /\ ((S i < length cs)%nat -> len c = n)) /\
      (length l = 130%nat -> n = 64 ->
       map length cs = [64; 64; 2]%nat).
Proof.
  intros A l n Hn. eexists. split; [now apply chunks_unfold|].
  set (nn := Z.to_nat n). set (q := (Z.of_nat (length l) + n - 1) / n).
  assert (Hq : n * q <= Z.of_nat (length l) + n - 1 < n * q + n).
  { pose proof (Z.div_mod (Z.of_nat (length l) + n - 1) n ltac:(lia)) as Hd.
    pose proof (Z.mod_pos_bound (Z.of_nat (length l) + n - 1) n ltac:(lia)).
    fold q in Hd. lia. }
  assert (Hq0 : 0 <= q) by (apply Z.div_pos; lia).
  assert (Hlen : len (map (fun k => take nn (drop (k * nn) l)) (seq 0 (Z.to_nat q))) = q).
  { unfold len. rewrite length_map, length_seq. lia. }
  split; [exact Hlen|]. rewrite Hlen.
  split; [unfold len; lia|].
  split.
  { rewrite concat_chunk_list. apply take_ge. subst nn. nia. }
  split.
  - intros i c Hc. rewrite list_lookup_fmap in Hc.
    destruct (seq 0 (Z.to_nat q) !! i) as [k|] eqn:Hk; [|discriminate].
    apply lookup_seq in Hk as [-> Hi]. cbn in Hc. injection Hc as <-.
    unfold len in *. rewrite length_chunk, length_map, length_seq.
    cbn [Nat.add]. subst nn. split; [nia|]. intros Hlast. nia.
  - intros H130 ->. subst q nn. rewrite H130.
    change (Z.to_nat ((Z.of_nat 130 + 64 - 1) / 64)) with 3%nat.
    cbn [seq map]. rewrite !length_chunk, H130. reflexivity.
Qed.

Lemma chunks_partition_witness :
  exists cs : list (list Z),
    chunks [10; 11; 12; 13; 14] 2 = Ok cs /\ concat cs = [10; 11; 12; 13; 14] /\
    len cs = 3.
Proof.
  destruct (chunks_partition Z [10; 11; 12; 13; 14] 2 ltac:(lia))
    as (cs & Hrun & Hcount & _ & Hconcat & _).
  exists cs. repeat split; assumption.
Defined.

(** ** Paginated scanner *)

Section Scanner.
Variables (ed : Z) (v : ChainMajorVersion) (pred : Predicate)
          (p : AccountInfo -> bool) (name : string).

Lemma violations_cons account_id info rest :
  violations p ((account_id, info) :: rest)
  = if p info then violations p rest
    else (account_id, serialize info) :: violations p rest.
Proof. unfold violations, serialize. cbn. now destruct (p info). Qed.

(** A run of the loop over accounts on which the predicate returns: the
    counter grows by the number of accounts, the violations are appended in
    order, and only the log changes. *)
Lemma filter_false_accounts_loop_run :
  forall (accounts : list (AccountId * AccountInfo)) (i total : Z)
         (acc : list AccountEntry) (w : World),
    (forall entry, In entry accounts -> pred (snd entry) v ed = Ok (p (snd entry))) ->
    exists w' : World,
      filter_false_accounts_loop ed v pred name accounts i total acc w
      = (Ok (total + len accounts, acc ++ violations p accounts), w') /\
      (exists extra, log w' = log w ++ extra) /\
      effects w' = effects w /\ files w' = files w /\
      queries w' = queries w /\ submissions w' = submissions w.
Proof.
  induction accounts as [|[account_id info] rest IH]; intros i total acc w Hp.
  - exists w. cbn. unfold ret, len. rewrite Z.add_0_r, app_nil_r.
    repeat split; try reflexivity. exists []. now rewrite app_nil_r.
  - cbn [filter_false_accounts_loop]. unfold bind at 1, lift.
    pose proof (Hp (account_id, info) (or_introl eq_refl)) as Hhere.
    cbn [snd] in Hhere. rewrite Hhere.
    rewrite violations_cons.
    destruct (p info); cbn [negb].
    + unfold bind at 1, ret at 1.
      destruct (IH (i + 1) (total + 1) acc
                   (snd (when ((i mod 5000 =? 0) && (i >? 0))
                              (log_at INFO (CheckedAccounts i)) w)))
        as (w' & Hrun & (extra & Hlog) & He & Hf & Hq & Hs).
      { intros entry Hin. apply Hp. now right. }
      exists w'. unfold bind at 1.
      destruct ((i mod 5000 =? 0) && (i >? 0)); cbn [when] in *;
        unfold log_at, ret in *; cbn [snd log effects files queries submissions] in *;
        rewrite Hrun; (split; [do 3 f_equal; unfold len; cbn [length]; lia|]);
        repeat split; try assumption.
      * exists ([(INFO, CheckedAccounts i)] ++ extra). now rewrite Hlog, <- app_assoc.
      * now exists extra.
    + unfold bind at 1. unfold bind at 1. unfold log_at at 1. unfold ret at 1.
      destruct (IH (i + 1) (total + 1) (acc ++ [(account_id, serialize info)])
                   (snd (when ((i mod 5000 =? 0) && (i >? 0))
                              (log_at INFO (CheckedAccounts i))
                              (mkWorld
                                 (log w ++ [(DEBUG, AccountDoesNotMeetPredicate account_id name)])
                                 (effects w) (files w) (queries w) (submissions w)))))
        as (w' & Hrun & (extra & Hlog) & He & Hf & Hq & Hs).
      { intros entry Hin. apply Hp. now right. }
      exists w'. unfold bind at 1.
      destruct ((i mod 5000 =? 0) && (i >? 0)); cbn [when] in *;
        unfold log_at, ret in *; cbn [snd log effects files queries submissions] in *;
        rewrite Hrun, <- app_assoc;
        (split; [do 3 f_equal; unfold len; cbn [length]; lia|]);
        repeat split; try assumption.
      * eexists. rewrite Hlog, <- !app_assoc. reflexivity.
      * eexists. rewrite Hlog, <- !app_assoc. reflexivity.
Qed.

(** A whole scan: one [query_map], the violations of everything the pages
    hold, and the number of accounts in the last log record. *)
Lemma filter_false_accounts_run :
  forall (chain_connection : Chain) (w : World),
    let accounts := concat (account_pages chain_connection (queries w)) in
    (forall entry, In entry accounts -> pred (snd entry) v ed = Ok (p (snd entry))) ->
    exists w' : World,
      filter_false_accounts chain_connection ed v pred name w
      = (Ok (violations p accounts), w') /\
      last (log w') = Some (INFO, TotalAccounts name (len accounts)) /\
      effects w' = effects w ++ [QueryMap "System" "Account" 1000] /\
      files w' = files w /\
      queries w' = S (queries w) /\ submissions w' = submissions w.
Proof.
  intros chain_connection w accounts Hp.
  unfold filter_false_accounts, bind at 1, SubstrateInterface_query_map.
  fold accounts.
  destruct (filter_false_accounts_loop_run accounts 0 0 []
              (mkWorld (log w)
                 (effects w ++ [QueryMap "System" "Account" 1000])
                 (files w) (S (queries w)) (submissions w)) Hp)
    as (w' & Hrun & _ & He & Hf & Hq & Hs).
  unfold bind at 1. rewrite Hrun. cbn [app Z.add].
  unfold bind, log_at, ret. eexists. split; [reflexivity|].
  cbn [log effects files queries submissions].
  rewrite last_snoc. repeat split; assumption.
Qed.
End Scanner.

Lemma violations_always_false (accounts : list (AccountId * AccountInfo)) :
  violations (fun _ => false) accounts
  = map (fun entry => (fst entry, serialize (snd entry))) accounts.
Proof.
  induction accounts as [|[account_id info] rest IH]; [reflexivity|].
  rewrite violations_cons, IH. reflexivity.
Qed.

Lemma violations_always_true (accounts : list (AccountId * AccountInfo)) :
  violations (fun _ => true) accounts = [].
Proof.
  induction accounts as [|[account_id info] rest IH]; [reflexivity|].
  now rewrite violations_cons.
Qed.

(** C4, as the code has it.  On a finite paged source and a predicate that
    returns a boolean on each of its accounts, the scanner returns the
    (address, serialized record) pairs the predicate is false for, in the
    order the iterator yields them; the count of all accounts visited is the
    content of its last log record, at level info, and is not part of the
    returned value. *)
Theorem filter_false_accounts_violations_in_yield_order :
  forall (chain_connection : Chain) (ed : Z) (v : ChainMajorVersion)
         (pred : Predicate) (p : AccountInfo -> bool) (name : string) (w : World),
    (forall entry,
       In entry (concat (account_pages chain_connection (queries w))) ->
       pred (snd entry) v ed = Ok (p (snd entry))) ->
    exists w' : World,
      filter_false_accounts chain_connection ed v pred name w
      = (Ok (violations p (concat (account_pages chain_connection (queries w)))), w') /\
      last (log w')
      = Some (INFO, TotalAccounts name
                      (len (concat (account_pages chain_connection (queries w))))).
Proof.
  intros chain_connection ed v pred p name w Hp.
  destruct (filter_false_accounts_run ed v pred p name chain_connection w Hp)
    as (w' & Hrun & Hlast & _).
  exists w'. split; assumption.
Qed.

(** The five-page source of sizes 3, 3, 3, 3, 1 with a predicate false for
    the second and the ninth account. *)
Lemma filter_false_accounts_violations_in_yield_order_witness :
  exists w' : World,
    filter_false_accounts scan_test_chain 1 PRE_12_MAJOR_VERSION
      all_but_second_and_ninth "test" (initial_world ∅)
    = (Ok [("account-02", mkAccountInfo 1 0 (AccountDataPre12 2 0 0 0));
           ("account-09", mkAccountInfo 1 0 (AccountDataPre12 9 0 0 0))], w') /\
    last (log w') = Some (INFO, TotalAccounts "test" 13).
Proof.
  exact (filter_false_accounts_violations_in_yield_order
           scan_test_chain 1 PRE_12_MAJOR_VERSION all_but_second_and_ninth
           (fun info =>
              negb ((data_free (data info) =? 2) || (data_free (data info) =? 9)))
           "test" (initial_world ∅) (fun entry _ => eq_refl)).
Defined.

(** C4 as stated fails: the value returned is the violation list alone.  A
    source of thirteen valid accounts and a source without accounts give the
    same returned value, and the counts 13 and 0 appear in the log only. *)
Lemma scan_result_does_not_carry_the_count :
  fst (filter_false_accounts scan_test_chain 1 PRE_12_MAJOR_VERSION
         check_account_invariants "test" (initial_world ∅))
  = fst (filter_false_accounts empty_test_chain 1 PRE_12_MAJOR_VERSION
           check_account_invariants "test" (initial_world ∅)) /\
  fst (filter_false_accounts scan_test_chain 1 PRE_12_MAJOR_VERSION
         check_account_invariants "test" (initial_world ∅)) = Ok [] /\
  last (log (snd (filter_false_accounts scan_test_chain 1 PRE_12_MAJOR_VERSION
                    check_account_invariants "test" (initial_world ∅))))
  = Some (INFO, TotalAccounts "test" 13) /\
  last (log (snd (filter_false_accounts empty_test_chain 1 PRE_12_MAJOR_VERSION
                    check_account_invariants "test" (initial_world ∅))))
  = Some (INFO, TotalAccounts "test" 0).
Proof. vm_compute. repeat split. Qed.

(** C5 as stated fails: with a predicate that is true for every account the
    scanner returns the empty list, although the iterator yields thirteen
    accounts. *)
Lemma always_true_predicate_lists_no_account :
  fst (filter_false_accounts scan_test_chain 1 PRE_12_MAJOR_VERSION
         (fun _ _ _ => Ok true) "'all accounts'" (initial_world ∅)) = Ok [] /\
  length (concat (account_pages scan_test_chain 0)) = 13%nat.
Proof. vm_compute. split; reflexivity. Qed.

(** C5, as the code has it.  With a predicate that is false for every account
    the scanner returns every account of the iterator, in yield order; this
    is the predicate [upgrade_accounts] passes, and the addresses of that list
    are the worklist it cuts into chunks. *)
Theorem always_false_predicate_lists_all_accounts :
  forall (chain_connection : Chain) (ed : Z) (v : ChainMajorVersion)
         (name : string) (w : World),
    (exists w' : World,
       filter_false_accounts chain_connection ed v (fun _ _ _ => Ok false) name w
       = (Ok (map (fun entry => (fst entry, serialize (snd entry)))
                  (concat (account_pages chain_connection (queries w)))), w')) /\
    (forall (args input_args : Args) (existential_deposit : Z)
            (sender_keypair : Keypair),
       exists w1 : World,
         upgrade_accounts args existential_deposit chain_connection input_args
           ed v sender_keypair w
         = bind
             (lift (chunks
                      (map fst (concat (account_pages chain_connection (queries w))))
                      (arg_upgrade_accounts_in_batch input_args)))
             (fun account_ids_chunks =>
                for_each account_ids_chunks
                  (upgrade_accounts_chunk args existential_deposit
                     chain_connection sender_keypair)) w1 /\
         effects w1 = effects w ++ [QueryMap "System" "Account" 1000] /\
         files w1 = files w /\ submissions w1 = submissions w).
Proof.
  intros chain_connection ed v name w. split.
  - destruct (filter_false_accounts_run ed v (fun _ _ _ => Ok false)
                (fun _ => false) name chain_connection w (fun _ _ => eq_refl))
      as (w' & Hrun & _).
    exists w'. now rewrite <- violations_always_false.
  - intros args input_args existential_deposit sender_keypair.
    unfold upgrade_accounts, bind at 1, log_at at 1.
    destruct (filter_false_accounts_run ed v (fun _ _ _ => Ok false)
                (fun _ => false) "'all accounts'" chain_connection
                (mkWorld (log w ++ [(INFO, QueryingAllAccounts)]) (effects w)
                         (files w) (queries w) (submissions w))
                (fun _ _ => eq_refl))
      as (w1 & Hrun & _ & He & Hf & _ & Hs).
    exists w1. unfold bind at 1. rewrite Hrun.
    cbn [queries] in *. rewrite violations_always_false, map_map.
    cbn [fst]. split; [reflexivity|]. repeat split; assumption.
Qed.

(** ** Batch action dispatcher *)

Section Dispatcher.
Variables (args : Args) (chain_connection : Chain) (amount : Z)
          (sender_keypair : Keypair).
Hypothesis not_dry_run : arg_dry_run args = false.

Lemma mapM_compose_transfers :
  forall (chunk : list AccountId) lg ef fs q sb,
    mapM (fun account =>
            SubstrateInterface_compose_call (BalancesTransfer account amount))
         chunk (mkWorld lg ef fs q sb)
    = (Ok (map (fun account => BalancesTransfer account amount) chunk),
       mkWorld lg
         (ef ++ map (fun account => ComposeCall (BalancesTransfer account amount)) chunk)
         fs q sb).
Proof.
  induction chunk as [|account rest IH]; intros lg ef fs q sb.
  - cbn. unfold ret. now rewrite app_nil_r.
  - cbn [mapM map]. unfold bind at 1, SubstrateInterface_compose_call at 1.
    unfold bind at 1, effect, ret at 1. cbn [log effects files queries submissions].
    unfold bind at 1. rewrite IH. unfold ret. now rewrite <- app_assoc.
Qed.

(** A chunk whose submission is included: the iteration returns, whether the
    receipt reports success or not. *)
Lemma batch_transfer_chunk_included :
  forall (chunk : list AccountId) (w : World) (receipt : ExtrinsicReceipt),
    submit_outcome chain_connection (submissions w) = Included receipt ->
    exists w' : World,
      batch_transfer_chunk args chain_connection amount sender_keypair chunk w
      = (Ok tt, w') /\
      effects w' = effects w ++ transfer_chunk_effects amount sender_keypair chunk /\
      submissions w' = S (submissions w) /\
      files w' = files w /\ queries w' = queries w /\
      exists extra,
        log w' = log w ++ extra /\
        (is_success receipt = false ->
         In (WARNING, ExtrinsicFailed (error_message receipt)) extra) /\
        forall e, ~ In (WARNING, FailedToSubmitExtrinsic e) extra.
Proof.
  intros chunk [lg ef fs q sb] receipt Hout. cbn [submissions] in Hout.
  unfold batch_transfer_chunk, bind at 1. rewrite mapM_compose_transfers.
  unfold submit_extrinsic, try_except.
  rewrite not_dry_run. cbn [negb].
  cbv beta iota zeta delta
    [bind SubstrateInterface_compose_call SubstrateInterface_create_signed_extrinsic
     SubstrateInterface_submit_extrinsic effect log_at ret
     log effects files queries submissions].
  rewrite Hout.
  destruct (is_success receipt) eqn:Hok.
  - unfold when. destruct (len (triggered_events receipt) <? _);
      cbv beta iota zeta delta [bind log_at ret];
      (eexists; split; [reflexivity|]);
      cbn [log effects files queries submissions];
      (split; [unfold transfer_chunk_effects, transfer_batch;
               rewrite <- !app_assoc; reflexivity|]);
      (split; [reflexivity|]); (split; [reflexivity|]); (split; [reflexivity|]);
      eexists; (split; [rewrite <- !app_assoc; reflexivity|]);
      (split; [discriminate|]);
      intros e Hin; cbn in Hin; intuition discriminate.
  - eexists; split; [reflexivity|].
    cbn [log effects files queries submissions].
    split; [unfold transfer_chunk_effects, transfer_batch;
            rewrite <- !app_assoc; reflexivity|].
    split; [reflexivity|]. split; [reflexivity|]. split; [reflexivity|].
    eexists. split; [rewrite <- !app_assoc; reflexivity|].
    split; [intros _; cbn; auto 10|].
    intros e Hin; cbn in Hin; intuition discriminate.
Qed.

(** A chunk whose submission raises.  The class named after [except] is
    looked up in the package and the lookup raises: the handler does not
    run, no warning is logged, and the exception of the lookup is the one
    that leaves the iteration. *)
Lemma batch_transfer_chunk_transport_failure :
  forall (chunk : list AccountId) (w : World) (msg : string),
    submit_outcome chain_connection (submissions w) = TransportFailure msg ->
    exists w' : World,
      batch_transfer_chunk args chain_connection amount sender_keypair chunk w
      = (Raise no_attribute_SubstrateRequestException, w') /\
      effects w' = effects w ++ transfer_chunk_effects amount sender_keypair chunk /\
      files w' = files w /\
      exists extra,
        log w' = log w ++ extra /\
        forall e, ~ In (WARNING, FailedToSubmitExtrinsic e) extra.
Proof.
  intros chunk [lg ef fs q sb] msg Hout. cbn [submissions] in Hout.
  unfold batch_transfer_chunk, bind at 1. rewrite mapM_compose_transfers.
  unfold submit_extrinsic, try_except, substrateinterface_SubstrateRequestException.
  rewrite not_dry_run. cbn [negb].
  cbv beta iota zeta delta
    [bind SubstrateInterface_compose_call SubstrateInterface_create_signed_extrinsic
     SubstrateInterface_submit_extrinsic effect log_at ret raise
     log effects files queries submissions].
  rewrite Hout.
  eexists; split; [reflexivity|].
  cbn [log effects files queries submissions].
  split; [unfold transfer_chunk_effects, transfer_batch;
          rewrite <- !app_assoc; reflexivity|].
  split; [reflexivity|].
  eexists. split; [rewrite <- !app_assoc; reflexivity|].
  intros e Hin; cbn in Hin; intuition discriminate.
Qed.

(** The loop over chunks whose submissions are all included runs to its end,
    one submission per chunk, and logs a warning for each failed receipt. *)
Lemma for_each_chunk_all_included :
  forall (cs : list (list AccountId)) (w : World),
    (forall k, (k < length cs)%nat ->
       exists receipt,
         submit_outcome chain_connection (submissions w + k) = Included receipt) ->
    exists w' : World,
      for_each cs (batch_transfer_chunk args chain_connection amount sender_keypair) w
      = (Ok tt, w') /\
      effects w'
      = effects w ++ flat_map (transfer_chunk_effects amount sender_keypair) cs /\
      submissions w' = (submissions w + length cs)%nat /\
      files w' = files w /\
      exists extra,
        log w' = log w ++ extra /\
        forall k receipt,
          (k < length cs)%nat ->
          submit_outcome chain_connection (submissions w + k) = Included receipt ->
          is_success receipt = false ->
          In (WARNING, ExtrinsicFailed (error_message receipt)) extra.
Proof.
  induction cs as [|c cs IH]; intros w Hall.
  - exists w. cbn. unfold ret. rewrite app_nil_r, Nat.add_0_r.
    repeat split. exists []. rewrite app_nil_r. split; [reflexivity|].
    intros k receipt Hk. inversion Hk.
  - destruct (Hall 0%nat) as [r0 Hr0]; [cbn; lia|].
    rewrite Nat.add_0_r in Hr0.
    destruct (batch_transfer_chunk_included c w r0 Hr0)
      as (w1 & Hrun1 & He1 & Hs1 & Hf1 & _ & extra1 & Hl1 & Hwarn1 & _).
    destruct (IH w1) as (w' & Hrun & He & Hs & Hf & extra & Hl & Hwarn).
    { intros k Hk. rewrite Hs1. destruct (Hall (S k)) as [r Hr]; [cbn; lia|].
      exists r. now rewrite <- Hr, Nat.add_succ_r. }
    exists w'. cbn [for_each]. unfold bind. rewrite Hrun1, Hrun.
    split; [reflexivity|]. cbn [flat_map length].
    split; [now rewrite He, He1, <- app_assoc|].
    split; [lia|]. split; [congruence|].
    exists (extra1 ++ extra). split; [now rewrite Hl, Hl1, <- app_assoc|].
    intros k receipt Hk Hout Hfail. apply in_or_app. destruct k as [|k].
    + left. rewrite Nat.add_0_r in Hout.
      assert (receipt = r0) as -> by congruence. now apply Hwarn1.
    + right. apply (Hwarn k); [cbn in Hk; lia | | assumption].
      rewrite Hs1. now rewrite <- Hout, Nat.add_succ_r.
Qed.

(** The loop stops at the first chunk whose submission raises: the chunks up
    to and including that one were built and submitted, no later one, and no
    warning about the submission that raised was logged. *)
Lemma for_each_chunk_transport_failure :
  forall (cs : list (list AccountId)) (k : nat) (msg : string) (w : World),
    (k < length cs)%nat ->
    (forall j, (j < k)%nat ->
       exists receipt,
         submit_outcome chain_connection (submissions w + j) = Included receipt) ->
    submit_outcome chain_connection (submissions w + k) = TransportFailure msg ->
    exists w' : World,
      for_each cs (batch_transfer_chunk args chain_connection amount sender_keypair) w
      = (Raise no_attribute_SubstrateRequestException, w') /\
      effects w'
      = effects w
        ++ flat_map (transfer_chunk_effects amount sender_keypair) (take (S k) cs) /\
      files w' = files w /\
      exists extra,
        log w' = log w ++ extra /\
        (forall e, ~ In (WARNING, FailedToSubmitExtrinsic e) extra) /\
        forall j receipt,
          (j < k)%nat ->
          submit_outcome chain_connection (submissions w + j) = Included receipt ->
          is_success receipt = false ->
          In (WARNING, ExtrinsicFailed (error_message receipt)) extra.
Proof.
  induction cs as [|c cs IH]; intros k msg w Hk Hbefore Hfail.
  - inversion Hk.
  - destruct k as [|k].
    + rewrite Nat.add_0_r in Hfail.
      destruct (batch_transfer_chunk_transport_failure c w msg Hfail)
        as (w' & Hrun & He & Hf & extra & Hl & Hsilent).
      exists w'. cbn [for_each]. unfold bind. rewrite Hrun.
      split; [reflexivity|]. cbn [take flat_map]. rewrite app_nil_r.
      split; [exact He|]. split; [exact Hf|]. exists extra.
      split; [exact Hl|]. split; [exact Hsilent|].
      intros j receipt Hj. inversion Hj.
    + destruct (Hbefore 0%nat) as [r0 Hr0]; [lia|].
      rewrite Nat.add_0_r in Hr0.
      destruct (batch_transfer_chunk_included c w r0 Hr0)
        as (w1 & Hrun1 & He1 & Hs1 & Hf1 & _ & extra1 & Hl1 & Hwarn1 & Hsilent1).
      destruct (IH k msg w1)
        as (w' & Hrun & He & Hf & extra & Hl & Hsilent & Hwarns).
      { cbn in Hk. lia. }
      { intros j Hj. rewrite Hs1. destruct (Hbefore (S j)) as [r Hr]; [lia|].
        exists r. now rewrite <- Hr, Nat.add_succ_r. }
      { rewrite Hs1. now rewrite <- Hfail, Nat.add_succ_r. }
      exists w'. cbn [for_each]. unfold bind. rewrite Hrun1, Hrun.
      split; [reflexivity|]. cbn [take flat_map].
      split; [now rewrite He, He1, <- app_assoc|].
      split; [congruence|].
      exists (extra1 ++ extra). split; [now rewrite Hl, Hl1, <- app_assoc|].
      split.
      { intros e Hin. apply in_app_or in Hin as [Hin|Hin];
          [now apply (Hsilent1 e) | now apply (Hsilent e)]. }
      intros j receipt Hj Hout Hfailed. apply in_or_app. destruct j as [|j].
      * left. rewrite Nat.add_0_r in Hout.
        assert (receipt = r0) as -> by congruence. now apply Hwarn1.
      * right. apply (Hwarns j); [lia | | assumption].
        rewrite Hs1. now rewrite <- Hout, Nat.add_succ_r.
Qed.
End Dispatcher.

(** C8.  [batch_transfer] outside dry-run mode, on the chunks [cs] of its
    address list.  If every submission is included, the call returns after
    building and submitting every chunk in order, and each receipt that
    reports failure has left a warning in the log.  If the submission of
    chunk [k] is the first to raise a transport exception, the call is
    aborted and the calls made to the chain client are those of chunks 0 to
    [k] and nothing after them; but the exception that reaches the caller is
    the [AttributeError] of the [except] clause of [submit_extrinsic], whose
    class is not an attribute of the package, and the warning of its handler
    is not among the records the call logs. *)
Theorem dispatcher_failure_policy :
  forall (args input_args : Args) (chain_connection : Chain)
         (accounts : list AccountId) (amount : Z) (sender_keypair : Keypair)
         (cs : list (list AccountId)) (w : World),
    arg_dry_run args = false ->
    chunks accounts (arg_transfer_calls_in_batch input_args) = Ok cs ->
    ((forall k, (k < length cs)%nat ->
        exists receipt,
          submit_outcome chain_connection (submissions w + k) = Included receipt) ->
     exists w' : World,
       batch_transfer args chain_connection input_args accounts amount
         sender_keypair w = (Ok tt, w') /\
       effects w'
       = effects w ++ flat_map (transfer_chunk_effects amount sender_keypair) cs /\
       forall k receipt,
         (k < length cs)%nat ->
         submit_outcome chain_connection (submissions w + k) = Included receipt ->
         is_success receipt = false ->
         In (WARNING, ExtrinsicFailed (error_message receipt)) (log w')) /\
    (forall (k : nat) (msg : string),
       (k < length cs)%nat ->
       (forall j, (j < k)%nat ->
          exists receipt,
            submit_outcome chain_connection (submissions w + j) = Included receipt) ->
       submit_outcome chain_connection (submissions w + k) = TransportFailure msg ->
       exists (w' : World) (logged : list (LogLevel * LogMessage)),
         batch_transfer args chain_connection input_args accounts amount
           sender_keypair w
         = (Raise (AttributeError
                     "module 'substrateinterface' has no attribute 'SubstrateRequestException'"),
            w') /\
         effects w'
         = effects w
           ++ flat_map (transfer_chunk_effects amount sender_keypair) (take (S k) cs) /\
         log w' = log w ++ logged /\
         (forall e, ~ In (WARNING, FailedToSubmitExtrinsic e) logged) /\
         forall j receipt,
           (j < k)%nat ->
           submit_outcome chain_connection (submissions w + j) = Included receipt ->
           is_success receipt = false ->
           In (WARNING, ExtrinsicFailed (error_message receipt)) logged).
Proof.
  intros args input_args chain_connection accounts amount sender_keypair cs w
         Hdry Hchunks.
  unfold batch_transfer, bind, lift. rewrite Hchunks. split.
  - intros Hall.
    destruct (for_each_chunk_all_included args chain_connection amount
                sender_keypair Hdry cs w Hall)
      as (w' & Hrun & He & _ & _ & extra & Hl & Hwarn).
    exists w'. split; [exact Hrun|]. split; [exact He|].
    intros k receipt Hk Hout Hfail. rewrite Hl. apply in_or_app. right. eauto.
  - intros k msg Hk Hbefore Hfail.
    destruct (for_each_chunk_transport_failure args chain_connection amount
                sender_keypair Hdry cs k msg w Hk Hbefore Hfail)
      as (w' & Hrun & He & _ & extra & Hl & Hsilent & Hwarns).
    exists w', extra. split; [exact Hrun|]. split; [exact He|].
    split; [exact Hl|]. split; [exact Hsilent|]. exact Hwarns.
Qed.

(** Two chunks both included, the first with a failed receipt: the run
    completes with a warning.  Three chunks, the third hitting a closed
    connection: the caller gets the [AttributeError], and the log holds the
    warning of the failed receipt but none about the submission that raised. *)
Lemma dispatcher_failure_policy_witness :
  (exists w' : World,
     batch_transfer dispatch_test_args dispatch_test_chain dispatch_test_args
       ["a"; "b"; "c"; "d"] 500 dispatch_test_keypair (initial_world ∅)
     = (Ok tt, w') /\
     In (WARNING, ExtrinsicFailed "InsufficientBalance") (log w')) /\
  (exists w' : World,
     batch_transfer dispatch_test_args dispatch_test_chain dispatch_test_args
       ["a"; "b"; "c"; "d"; "e"] 500 dispatch_test_keypair (initial_world ∅)
     = (Raise (AttributeError
                 "module 'substrateinterface' has no attribute 'SubstrateRequestException'"),
        w') /\
     (forall e, ~ In (WARNING, FailedToSubmitExtrinsic e) (log w')) /\
     In (WARNING, ExtrinsicFailed "InsufficientBalance") (log w')).
Proof.
  split.
  - destruct (dispatcher_failure_policy dispatch_test_args dispatch_test_args
                dispatch_test_chain ["a"; "b"; "c"; "d"] 500 dispatch_test_keypair
                [["a"; "b"]; ["c"; "d"]] (initial_world ∅) eq_refl eq_refl)
      as [Hincluded _].
    destruct Hincluded as (w' & Hrun & _ & Hwarn).
    { intros [|[|k]] Hk; cbn in *; eauto; lia. }
    exists w'. split; [exact Hrun|].
    apply (Hwarn 0%nat failed_receipt); [cbn; lia | reflexivity | reflexivity].
  - destruct (dispatcher_failure_policy dispatch_test_args dispatch_test_args
                dispatch_test_chain ["a"; "b"; "c"; "d"; "e"] 500
                dispatch_test_keypair
                [["a"; "b"]; ["c"; "d"]; ["e"]] (initial_world ∅) eq_refl eq_refl)
      as [_ Hraises].
    destruct (Hraises 2%nat "connection closed")
      as (w' & logged & Hrun & _ & Hlog & Hsilent & Hwarn).
    { cbn; lia. }
    { intros [|[|j]] Hj; cbn in *; eauto; lia. }
    { reflexivity. }
    exists w'. split; [exact Hrun|]. cbn [initial_world log app] in Hlog.
    rewrite Hlog. split; [exact Hsilent|].
    apply (Hwarn 0%nat failed_receipt); [lia | reflexivity | reflexivity].
Defined.

(** ** Quiet computations *)

Lemma quiet_ret {A : Type} (a : A) : quiet (ret a).
Proof.
  intros w. cbn. split; [reflexivity|]. split; [|discriminate].
  exists []. split; [now rewrite app_nil_r | intros name []].
Qed.

Lemma quiet_lift {A : Type} (r : result A) : no_exit r -> quiet (lift r).
Proof.
  intros Hr w. cbn. split; [reflexivity|]. split; [|exact Hr].
  exists []. split; [now rewrite app_nil_r | intros name []].
Qed.

Lemma quiet_raise {A : Type} (e : exn) :
  (forall code, e <> SystemExit code) -> quiet (@raise A e).
Proof.
  intros He w. cbn. split; [reflexivity|]. split; [|congruence].
  exists []. split; [now rewrite app_nil_r | intros name []].
Qed.

Lemma quiet_log_at (level : LogLevel) (msg : LogMessage) : quiet (log_at level msg).
Proof.
  intros w. cbn. split; [reflexivity|]. split; [|discriminate].
  exists []. split; [now rewrite app_nil_r | intros name []].
Qed.

Lemma quiet_effect (e : Effect) :
  (forall name, e <> OpenForWriting name) -> quiet (effect e).
Proof.
  intros He w. cbn. split; [reflexivity|]. split; [|discriminate].
  exists [e]. split; [reflexivity|]. intros name [Hin|[]]. now apply (He name).
Qed.

Lemma quiet_bind {A B : Type} (m : M A) (k : A -> M B) :
  quiet m -> (forall a, quiet (k a)) -> quiet (bind m k).
Proof.
  intros Hm Hk w. unfold bind.
  destruct (Hm w) as (Hf & (new & He & Hnew) & Hx).
  destruct (m w) as [[a|e] w1]; cbn [fst snd] in *.
  - destruct (Hk a w1) as (Hf' & (new' & He' & Hnew') & Hx').
    split; [congruence|]. split; [|exact Hx'].
    exists (new ++ new'). split; [now rewrite He', He, <- app_assoc|].
    intros name Hin. apply in_app_or in Hin as [Hin|Hin];
      [now apply (Hnew name) | now apply (Hnew' name)].
  - split; [exact Hf|]. split; [now exists new|].
    intros code Heq. apply (Hx code). congruence.
Qed.

Lemma quiet_when (cond : bool) (body : M unit) : quiet body -> quiet (when cond body).
Proof. intros Hb. destruct cond; [exact Hb | apply quiet_ret]. Qed.

Lemma quiet_mapM {A B : Type} (f : A -> M B) (l : list A) :
  (forall x, quiet (f x)) -> quiet (mapM f l).
Proof.
  intros Hf. induction l as [|x rest IH]; cbn [mapM].
  - apply quiet_ret.
  - apply quiet_bind; [apply Hf|]. intros y.
    apply quiet_bind; [exact IH|]. intros ys. apply quiet_ret.
Qed.

Lemma quiet_for_each {A : Type} (xs : list A) (body : A -> M unit) :
  (forall x, quiet (body x)) -> quiet (for_each xs body).
Proof.
  intros Hb. induction xs as [|x rest IH]; cbn [for_each].
  - apply quiet_ret.
  - apply quiet_bind; [apply Hb | intros _; exact IH].
Qed.

Lemma quiet_try_except {A : Type} (body : M A)
    (exception_class : result (exn -> bool)) (handler : exn -> M A) :
  quiet body -> no_exit exception_class ->
  (forall e, (forall code, e <> SystemExit code) -> quiet (handler e)) ->
  quiet (try_except body exception_class handler).
Proof.
  intros Hb Hc Hh w. unfold try_except.
  destruct (Hb w) as (Hf & (new & He & Hnew) & Hx).
  destruct (body w) as [[a|e] w1]; cbn [fst snd] in *;
    [split; [exact Hf|]; split; [now exists new | exact Hx]|].
  destruct exception_class as [is_instance|e'].
  - destruct (is_instance e);
      [|split; [exact Hf|]; split; [now exists new | exact Hx]].
    destruct (Hh e (fun code Heq => Hx code (f_equal Raise Heq)) w1)
      as (Hf' & (new' & He' & Hnew') & Hx').
    split; [congruence|]. split; [|exact Hx'].
    exists (new ++ new'). split; [now rewrite He', He, <- app_assoc|].
    intros name Hin. apply in_app_or in Hin as [Hin|Hin];
      [now apply (Hnew name) | now apply (Hnew' name)].
  - cbn [fst snd]. split; [exact Hf|]. split; [now exists new|].
    intros code Heq. apply (Hc code). congruence.
Qed.

Lemma quiet_query_map (chain_connection : Chain) (m f : string) (page_size : Z) :
  quiet (SubstrateInterface_query_map chain_connection m f page_size).
Proof.
  intros w. cbn. split; [reflexivity|]. split; [|discriminate].
  eexists. split; [reflexivity|]. intros name [Hin|[]]. discriminate.
Qed.

Lemma quiet_client_submit_extrinsic (chain_connection : Chain) (x : Extrinsic) :
  quiet (SubstrateInterface_submit_extrinsic chain_connection x).
Proof.
  intros w. unfold SubstrateInterface_submit_extrinsic.
  destruct (submit_outcome chain_connection (submissions w)); cbn;
    (split; [reflexivity|]; split; [|discriminate]);
    (eexists; split; [reflexivity|]; intros name [Hin|[]]; discriminate).
Qed.

Ltac quiet_step :=
  match goal with
  | |- quiet (bind _ _) => apply quiet_bind; [|intros]
  | |- quiet (ret _) => apply quiet_ret
  | |- quiet (log_at _ _) => apply quiet_log_at
  | |- quiet (effect _) => apply quiet_effect; discriminate
  | |- quiet (when _ _) => apply quiet_when
  | |- quiet (mapM _ _) => apply quiet_mapM; intros
  | |- quiet (for_each _ _) => apply quiet_for_each; intros
  | |- quiet (raise _) => apply quiet_raise; discriminate
  | |- quiet (SubstrateInterface_query_map _ _ _ _) => apply quiet_query_map
  | |- quiet (SubstrateInterface_submit_extrinsic _ _) =>
      apply quiet_client_submit_extrinsic
  | |- quiet (try_except _ _ _) =>
      apply quiet_try_except; [|discriminate|intros; cbv beta]
  | H : forall code, ?e <> SystemExit code |- quiet (raise ?e) =>
      apply quiet_raise; exact H
  | |- quiet (if ?b then _ else _) => destruct b
  | |- quiet (match ?x with _ => _ end) => destruct x
  end.

Ltac quiet_steps := repeat quiet_step.

Lemma no_exit_py_assert (cond : bool) (msg : string) : no_exit (py_assert cond msg).
Proof. intros code. destruct cond; discriminate. Qed.

Lemma no_exit_chunks {A : Type} (l : list A) (n : Z) : no_exit (chunks l n).
Proof.
  intros code. unfold chunks, py_range. destruct (n =? 0); discriminate.
Qed.

Lemma no_exit_check_account_invariants account v ed :
  no_exit (check_account_invariants account v ed).
Proof.
  intros code. unfold check_account_invariants.
  destruct (version_eqb v PRE_12_MAJOR_VERSION), (data account); discriminate.
Qed.

Lemma no_exit_dust_predicate account v ed :
  no_exit (let? dust := check_if_account_would_be_dust_in_12_version account v ed in
           Ok (negb dust)).
Proof.
  intros code. unfold check_if_account_would_be_dust_in_12_version.
  destruct (version_eqb v PRE_12_MAJOR_VERSION); [|discriminate]. cbn [py_assert rbind].
  pose proof (no_exit_check_account_invariants account v ed) as Hcheck.
  destruct (check_account_invariants account v ed) as [[|]|e]; cbn; try discriminate.
  intros H. apply (Hcheck code). congruence.
Qed.

Lemma quiet_filter_false_accounts_loop ed v (pred : Predicate) name :
  (forall account, no_exit (pred account v ed)) ->
  forall accounts i total acc,
    quiet (filter_false_accounts_loop ed v pred name accounts i total acc).
Proof.
  intros Hpred. induction accounts as [|[account_id info] rest IH];
    intros i total acc; cbn [filter_false_accounts_loop].
  - apply quiet_ret.
  - apply quiet_bind; [apply quiet_lift, Hpred|]. intros holds.
    apply quiet_bind; [quiet_steps|]. intros acc'.
    apply quiet_bind; [quiet_steps|]. intros _. apply IH.
Qed.

Lemma quiet_filter_false_accounts chain_connection ed v (pred : Predicate) name :
  (forall account, no_exit (pred account v ed)) ->
  quiet (filter_false_accounts chain_connection ed v pred name).
Proof.
  intros Hpred. unfold filter_false_accounts.
  apply quiet_bind; [apply quiet_query_map|]. intros pages.
  apply quiet_bind; [now apply quiet_filter_false_accounts_loop|].
  intros [total acc]. quiet_steps.
Qed.

Lemma quiet_find_dust_accounts chain_connection ed v :
  quiet (find_dust_accounts chain_connection ed v).
Proof.
  unfold find_dust_accounts.
  apply quiet_bind; [apply quiet_lift, no_exit_py_assert|]. intros _.
  apply quiet_filter_false_accounts. intros account. apply no_exit_dust_predicate.
Qed.

Lemma quiet_submit_extrinsic chain_connection extrinsic expected dry_run :
  quiet (submit_extrinsic chain_connection extrinsic expected dry_run).
Proof. unfold submit_extrinsic. quiet_steps. Qed.

Lemma quiet_batch_transfer args chain_connection input_args accounts amount kp :
  quiet (batch_transfer args chain_connection input_args accounts amount kp).
Proof.
  unfold batch_transfer.
  apply quiet_bind; [apply quiet_lift, no_exit_chunks|]. intros cs.
  apply quiet_for_each. intros chunk. unfold batch_transfer_chunk,
    SubstrateInterface_compose_call, SubstrateInterface_create_signed_extrinsic.
  quiet_steps. apply quiet_submit_extrinsic.
Qed.

Lemma quiet_upgrade_accounts args gd chain_connection input_args ed v kp :
  quiet (upgrade_accounts args gd chain_connection input_args ed v kp).
Proof.
  unfold upgrade_accounts.
  apply quiet_bind; [apply quiet_log_at|]. intros _.
  apply quiet_bind; [apply quiet_filter_false_accounts; intros a c; discriminate|].
  intros all. apply quiet_bind; [apply quiet_lift, no_exit_chunks|]. intros cs.
  apply quiet_for_each. intros chunk. unfold upgrade_accounts_chunk,
    SubstrateInterface_compose_call, SubstrateInterface_create_signed_extrinsic.
  quiet_steps. apply quiet_submit_extrinsic.
Qed.

(** ** Artifact writer *)

Lemma len_cons_positive {A : Type} (x : A) (l : list A) : (len (x :: l) >? 0) = true.
Proof. unfold len. cbn [length]. apply Z.gtb_lt. lia. Qed.

Lemma len_cons_nonzero {A : Type} (x : A) (l : list A) : (len (x :: l) =? 0) = false.
Proof. unfold len. cbn [length]. apply Z.eqb_neq. lia. Qed.

(** What a quiet computation that ran from [w] to [w1] has left alone. *)
Lemma quiet_run {A : Type} (m : M A) (w w1 : World) (r : result A) :
  quiet m -> m w = (r, w1) ->
  files w1 = files w /\
  (forall name, In (OpenForWriting name) (effects w1) ->
                In (OpenForWriting name) (effects w)).
Proof.
  intros Hq Hrun. destruct (Hq w) as (Hf & (new & He & Hnew) & _).
  rewrite Hrun in *. cbn [snd] in *. split; [exact Hf|].
  intros name Hin. rewrite He in Hin. apply in_app_or in Hin as [Hin|Hin];
    [exact Hin | now destruct (Hnew name)].
Qed.

(** The fix-free-balance block starts its scan in a world [w_scan] in which
    the keypair has been derived and three records logged.  With an empty
    scan result it writes nothing; with a non-empty one the file holds the
    result, whatever the transfers do afterwards. *)
Lemma main_fix_free_balance_artifact :
  forall (args : Args) (chain_connection : Chain) (ed : Z)
         (v : ChainMajorVersion) (seed : string) (w : World),
  exists w_scan : World,
    files w_scan = files w /\ queries w_scan = queries w /\
    effects w_scan = effects w ++ [CreateKeypairFromUri seed] /\
    forall (dust : list AccountEntry) (w1 : World),
      find_dust_accounts chain_connection ed v w_scan = (Ok dust, w1) ->
      (dust = [] ->
       exists w' : World,
         main_fix_free_balance args chain_connection ed v (Some seed) w = (Ok tt, w') /\
         files w' = files w /\
         forall name, In (OpenForWriting name) (effects w') ->
                      In (OpenForWriting name) (effects w)) /\
      (dust <> [] ->
       exists (r : result unit) (w' : World),
         main_fix_free_balance args chain_connection ed v (Some seed) w = (r, w') /\
         files w' = <["dust-accounts.json" := dust]> (files w) /\
         In (OpenForWriting "dust-accounts.json") (effects w')).
Proof.
  intros args chain_connection ed v seed w.
  exists (mkWorld
            (((log w ++ [(INFO, UsingAccountForTransfers seed)])
                ++ [(INFO, WillSendAtMost (arg_transfer_calls_in_batch args))])
               ++ [(INFO, LookingForDust)])
            (effects w ++ [CreateKeypairFromUri seed])
            (files w) (queries w) (submissions w)).
  repeat (split; [reflexivity|]).
  intros dust w1 Hscan.
  destruct (quiet_run _ _ w1 _ (quiet_find_dust_accounts chain_connection ed v) Hscan)
    as [Hf Hw]. cbn [files effects] in Hf, Hw.
  unfold main_fix_free_balance, read_variable, Keypair_create_from_uri.
  cbv beta iota zeta delta [bind log_at effect ret].
  cbn [log effects files queries submissions ss58_address].
  rewrite Hscan. cbv beta iota.
  destruct dust as [|entry rest].
  - split; [intros _ | congruence]. cbn.
    eexists. split; [reflexivity|]. cbn [files effects]. split; [exact Hf|].
    intros name Hin. apply Hw in Hin. apply in_app_or in Hin as [Hin|[Hin|[]]];
      [exact Hin | discriminate].
  - split; [discriminate | intros _]. rewrite len_cons_nonzero. cbn [negb].
    unfold save_accounts_to_json_file.
    cbv beta iota zeta delta [bind log_at effect ret].
    cbn [log effects files queries submissions].
    match goal with
    | |- context [batch_transfer ?a ?c ?ia ?accs ?amt ?kp ?w0] =>
        destruct (batch_transfer a c ia accs amt kp w0) as [r w3] eqn:Hbt;
        destruct (quiet_run _ _ w3 _ (quiet_batch_transfer a c ia accs amt kp) Hbt)
          as [Hf3 _];
        destruct (quiet_batch_transfer a c ia accs amt kp w0)
          as (_ & (new & He3 & _) & _); rewrite Hbt in He3
    end.
    cbn [snd files effects] in Hf3, He3.
    destruct r as [[]|e]; (eexists; eexists; split; [reflexivity|]);
      cbn [files effects]; rewrite Hf3, He3, Hf;
      (split; [reflexivity|]);
      apply in_or_app; left; apply in_or_app; right; now left.
Qed.

(** C10.  [perform_account_sanity_checks]: when its scan returns the empty
    list, the run opens no file for writing and leaves every file as it was;
    when the scan returns a non-empty list, accounts-with-failed-invariants.json
    is opened and holds that list.  The fix-free-balance block of [__main__]
    does the same with dust-accounts.json and the result of
    [find_dust_accounts]. *)
Theorem artifact_written_only_for_non_empty_scan :
  (forall (chain_connection : Chain) (ed : Z) (v : ChainMajorVersion)
          (w w1 : World) (invalid_accounts : list AccountEntry),
     filter_false_accounts chain_connection ed v check_account_invariants
       "'account invariants'" w = (Ok invalid_accounts, w1) ->
     exists w' : World,
       perform_account_sanity_checks chain_connection ed v w = (Ok tt, w') /\
       (invalid_accounts = [] ->
        files w' = files w /\
        forall name, In (OpenForWriting name) (effects w') ->
                     In (OpenForWriting name) (effects w)) /\
       (invalid_accounts <> [] ->
        files w'
        = <["accounts-with-failed-invariants.json" := invalid_accounts]> (files w) /\
        In (OpenForWriting "accounts-with-failed-invariants.json") (effects w'))) /\
  (forall (args : Args) (chain_connection : Chain) (ed : Z)
          (v : ChainMajorVersion) (seed : string) (w : World),
   exists w_scan : World,
     files w_scan = files w /\ queries w_scan = queries w /\
     effects w_scan = effects w ++ [CreateKeypairFromUri seed] /\
     forall (dust : list AccountEntry) (w1 : World),
       find_dust_accounts chain_connection ed v w_scan = (Ok dust, w1) ->
       (dust = [] ->
        exists w' : World,
          main_fix_free_balance args chain_connection ed v (Some seed) w
          = (Ok tt, w') /\
          files w' = files w /\
          forall name, In (OpenForWriting name) (effects w') ->
                       In (OpenForWriting name) (effects w)) /\
       (dust <> [] ->
        exists (r : result unit) (w' : World),
          main_fix_free_balance args chain_connection ed v (Some seed) w
          = (r, w') /\
          files w' = <["dust-accounts.json" := dust]> (files w) /\
          In (OpenForWriting "dust-accounts.json") (effects w'))).
Proof.
  split; [|exact main_fix_free_balance_artifact].
  intros chain_connection ed v w w1 invalid Hscan.
  destruct (quiet_run _ w w1 _
              (quiet_filter_false_accounts chain_connection ed v
                 check_account_invariants "'account invariants'"
                 (fun account => no_exit_check_account_invariants account v ed))
              Hscan) as [Hf Hw].
  unfold perform_account_sanity_checks, bind at 1. rewrite Hscan.
  destruct invalid as [|entry rest].
  - cbn. eexists. split; [reflexivity|]. cbn [files effects].
    split; [intros _; split; assumption | congruence].
  - rewrite len_cons_positive.
    unfold save_accounts_to_json_file.
    cbv beta iota zeta delta [bind log_at effect ret].
    eexists. split; [reflexivity|]. cbn [log effects files queries submissions].
    split; [discriminate|]. intros _. split; [now rewrite Hf|].
    apply in_or_app. right. now left.
Qed.

(** A sanity check over thirteen valid accounts leaves an older artifact on
    disk as it was. *)
Lemma artifact_written_only_for_non_empty_scan_witness :
  exists w' : World,
    perform_account_sanity_checks scan_test_chain 1 PRE_12_MAJOR_VERSION
      (initial_world older_artifact) = (Ok tt, w') /\
    files w' = older_artifact.
Proof.
  edestruct (proj1 artifact_written_only_for_non_empty_scan
               scan_test_chain 1 PRE_12_MAJOR_VERSION (initial_world older_artifact))
    as (w' & Hrun & Hempty & _).
  { vm_compute. reflexivity. }
  exists w'. split; [exact Hrun|]. now destruct (Hempty eq_refl).
Defined.

(** ** Orchestrator *)

Lemma quiet_never_exits {A : Type} (m : M A) : quiet m -> never_exits m.
Proof. intros Hq w. now destruct (Hq w) as (_ & _ & Hx). Qed.

Lemma never_exits_bind {A B : Type} (m : M A) (k : A -> M B) :
  never_exits m -> (forall a, never_exits (k a)) -> never_exits (bind m k).
Proof.
  intros Hm Hk w code. unfold bind. specialize (Hm w code).
  destruct (m w) as [[a|e] w1]; cbn [fst] in *.
  - apply Hk.
  - congruence.
Qed.

Lemma never_exits_save_accounts_to_json_file name accounts :
  never_exits (save_accounts_to_json_file name accounts).
Proof. intros w code. cbn. discriminate. Qed.

Lemma never_exits_perform_account_sanity_checks chain_connection ed v :
  never_exits (perform_account_sanity_checks chain_connection ed v).
Proof.
  unfold perform_account_sanity_checks. apply never_exits_bind.
  - apply quiet_never_exits, quiet_filter_false_accounts.
    intros account. apply no_exit_check_account_invariants.
  - intros invalid. destruct (len invalid >? 0).
    + apply never_exits_bind; [apply quiet_never_exits, quiet_log_at|].
      intros _. apply never_exits_save_accounts_to_json_file.
    + apply quiet_never_exits, quiet_log_at.
Qed.

Lemma never_exits_main_fix_free_balance args chain_connection ed v seed :
  never_exits (main_fix_free_balance args chain_connection ed v seed).
Proof.
  unfold main_fix_free_balance, read_variable, Keypair_create_from_uri.
  apply never_exits_bind; [apply quiet_never_exits; quiet_steps|]. intros s.
  apply never_exits_bind; [apply quiet_never_exits; quiet_steps|]. intros kp.
  do 3 (apply never_exits_bind; [apply quiet_never_exits, quiet_log_at|]; intros _).
  apply never_exits_bind;
    [apply quiet_never_exits, quiet_find_dust_accounts|]. intros dust.
  destruct (negb (len dust =? 0)); [|apply quiet_never_exits, quiet_log_at].
  apply never_exits_bind; [apply quiet_never_exits, quiet_log_at|]. intros _.
  apply never_exits_bind; [apply never_exits_save_accounts_to_json_file|]. intros _.
  apply quiet_never_exits.
  apply quiet_bind; [apply quiet_log_at|]. intros _.
  apply quiet_bind; [apply quiet_batch_transfer|]. intros _. apply quiet_log_at.
Qed.

Lemma never_exits_main_upgrade_accounts args chain_connection ed v seed :
  never_exits (main_upgrade_accounts args chain_connection ed v seed).
Proof.
  apply quiet_never_exits.
  unfold main_upgrade_accounts, read_variable, Keypair_create_from_uri.
  apply quiet_bind; [quiet_steps|]. intros s.
  apply quiet_bind; [quiet_steps|]. intros kp.
  do 2 (apply quiet_bind; [apply quiet_log_at|]; intros _).
  apply quiet_bind; [apply quiet_upgrade_accounts|]. intros _. apply quiet_log_at.
Qed.

Lemma never_exits_when (cond : bool) (body : M unit) :
  never_exits body -> never_exits (when cond body).
Proof.
  intros Hb. destruct cond; [exact Hb | apply quiet_never_exits, quiet_ret].
Qed.

(** A [bind] that ends in [exit] does so in its first part or, that part
    having returned, in its second. *)
Lemma bind_exit_inv {A B : Type} (m : M A) (k : A -> M B) w code w' :
  bind m k w = (Raise (SystemExit code), w') ->
  m w = (Raise (SystemExit code), w') \/
  exists a w1, m w = (Ok a, w1) /\ k a w1 = (Raise (SystemExit code), w').
Proof.
  unfold bind. destruct (m w) as [[a|e] w1]; intros H.
  - right. now exists a, w1.
  - left. injection H as -> ->. reflexivity.
Qed.

(** A [bind] that returns: both parts returned, one after the other. *)
Lemma bind_ok_inv {A B : Type} (m : M A) (k : A -> M B) w b w' :
  bind m k w = (Ok b, w') ->
  exists a w1, m w = (Ok a, w1) /\ k a w1 = (Ok b, w').
Proof.
  unfold bind. destruct (m w) as [[a|e] w1]; intros H; [|discriminate H].
  now exists a, w1.
Qed.

Lemma never_exits_run {A : Type} (m : M A) w code w' :
  never_exits m -> m w <> (Raise (SystemExit code), w').
Proof. intros Hm H. apply (Hm w code). now rewrite H. Qed.

(** The exits of [__main__], read backwards: a run that ends in [exit(code)]
    took one of the three fatal branches. *)
Lemma main_exit_inv :
  forall (args : Args) (SENDER_ACCOUNT : option string) (node : Chain)
         (w w' : World) (code : Z),
    main args SENDER_ACCOUNT node w = (Raise (SystemExit code), w') ->
    (code = 1 /\
     (arg_fix_free_balance args = true \/ arg_upgrade_accounts args = true) /\
     SENDER_ACCOUNT = None) \/
    (code = 2 /\ arg_fix_free_balance args = true /\
     from_spec_version (spec_version node) <> PRE_12_MAJOR_VERSION) \/
    (code = 3 /\ arg_upgrade_accounts args = true /\
     from_spec_version (spec_version node) <> AT_LEAST_12_MAJOR_VERSION).
Proof.
  intros args SENDER_ACCOUNT node w w' code H. unfold main in H.
  apply bind_exit_inv in H as [H | (seed & w1 & _ & H)].
  { left. destruct (arg_fix_free_balance args || arg_upgrade_accounts args) eqn:Hor;
      [|discriminate H].
    destruct SENDER_ACCOUNT; [discriminate H|].
    cbv in H. injection H as <- _.
    apply orb_true_iff in Hor. repeat split; assumption. }
  apply bind_exit_inv in H as [H | (? & w2 & _ & H)];
    [exfalso; revert H; apply never_exits_run, never_exits_when,
       quiet_never_exits, quiet_log_at|].
  apply bind_exit_inv in H as [H | (conn & w3 & Hconn & H)];
    [exfalso; revert H; apply never_exits_run, quiet_never_exits;
     unfold SubstrateInterface; quiet_steps|].
  assert (conn = node) as -> by (cbv in Hconn; congruence).
  apply bind_exit_inv in H as [H | (? & w4 & _ & H)];
    [exfalso; revert H; apply never_exits_run, quiet_never_exits, quiet_log_at|].
  apply bind_exit_inv in H as [H | (v & w5 & Hv & H)];
    [exfalso; revert H; apply never_exits_run, quiet_never_exits;
     unfold get_chain_major_version, SubstrateInterface_get_block_runtime_version;
     quiet_steps|].
  assert (v = from_spec_version (spec_version node)) as Hregime
    by (cbv [get_chain_major_version SubstrateInterface_get_block_runtime_version
             bind effect ret] in Hv; congruence).
  apply bind_exit_inv in H as [H | (? & w6 & _ & H)];
    [exfalso; revert H; apply never_exits_run, quiet_never_exits, quiet_log_at|].
  apply bind_exit_inv in H as [H | (? & w7 & _ & H)].
  { right. left. destruct (arg_fix_free_balance args); [|discriminate H].
    rewrite <- Hregime. destruct v; [discriminate H|].
    cbv in H. injection H as <- _. repeat split; discriminate. }
  apply bind_exit_inv in H as [H | (? & w8 & _ & H)].
  { right. right. destruct (arg_upgrade_accounts args); [|discriminate H].
    rewrite <- Hregime. destruct v; [|discriminate H].
    cbv in H. injection H as <- _. repeat split; discriminate. }
  exfalso. revert H. apply never_exits_run.
  apply never_exits_bind;
    [apply quiet_never_exits; unfold SubstrateInterface_get_constant; quiet_steps|].
  intros ed.
  apply never_exits_bind; [apply quiet_never_exits, quiet_log_at|]. intros _.
  apply never_exits_bind;
    [apply never_exits_when, never_exits_main_fix_free_balance|]. intros _.
  apply never_exits_bind;
    [apply never_exits_when, never_exits_main_upgrade_accounts|]. intros _.
  apply never_exits_bind; [apply quiet_never_exits, quiet_log_at|]. intros _.
  apply never_exits_bind;
    [apply never_exits_perform_account_sanity_checks|]. intros _.
  apply quiet_never_exits, quiet_log_at.
Qed.

(** C9.  The checks of [__main__] come in this order.  With a remediation
    flag set and SENDER_ACCOUNT absent the process exits with code 1 before
    it connects.  Past that check, [--fix-free-balance] on a chain that is
    not pre-12 exits with code 2 and [--upgrade-accounts] on a chain that is
    not at-least-12 exits with code 3; by then the process has connected and
    read the runtime version, and nothing else: no constant read, no scan, no
    extrinsic, no file.  No other path of the script calls [exit], so each
    code stands for its own error: 1 for the missing credential, 2 for
    [--fix-free-balance] and 3 for [--upgrade-accounts] on the wrong
    regime. *)
Theorem fatal_precondition_exit_codes :
  forall (args : Args) (SENDER_ACCOUNT : option string) (node : Chain) (w : World),
    (arg_fix_free_balance args = true \/ arg_upgrade_accounts args = true ->
     SENDER_ACCOUNT = None ->
     exists w' : World,
       main args SENDER_ACCOUNT node w = (Raise (SystemExit 1), w') /\
       effects w' = effects w /\ files w' = files w) /\
    (SENDER_ACCOUNT <> None ->
     arg_fix_free_balance args = true ->
     from_spec_version (spec_version node) <> PRE_12_MAJOR_VERSION ->
     exists w' : World,
       main args SENDER_ACCOUNT node w = (Raise (SystemExit 2), w') /\
       effects w' = effects w ++ [Connect (arg_ws_url args); GetBlockRuntimeVersion] /\
       files w' = files w) /\
    (SENDER_ACCOUNT <> None ->
     arg_upgrade_accounts args = true ->
     from_spec_version (spec_version node) <> AT_LEAST_12_MAJOR_VERSION ->
     exists w' : World,
       main args SENDER_ACCOUNT node w = (Raise (SystemExit 3), w') /\
       effects w' = effects w ++ [Connect (arg_ws_url args); GetBlockRuntimeVersion] /\
       files w' = files w) /\
    (forall (code : Z) (w' : World),
       main args SENDER_ACCOUNT node w = (Raise (SystemExit code), w') ->
       (code = 1 /\
        (arg_fix_free_balance args = true \/ arg_upgrade_accounts args = true) /\
        SENDER_ACCOUNT = None) \/
       (code = 2 /\ arg_fix_free_balance args = true /\
        from_spec_version (spec_version node) <> PRE_12_MAJOR_VERSION) \/
       (code = 3 /\ arg_upgrade_accounts args = true /\
        from_spec_version (spec_version node) <> AT_LEAST_12_MAJOR_VERSION)).
Proof.
  intros args SENDER_ACCOUNT node w. split; [|split; [|split]].
  - intros Hflag ->. unfold main.
    assert (Hor : arg_fix_free_balance args || arg_upgrade_accounts args = true)
      by (destruct Hflag as [-> | ->]; [reflexivity | apply orb_true_r]).
    rewrite Hor. cbv beta iota zeta delta [bind log_at exit raise].
    eexists. split; [reflexivity|]. split; reflexivity.
  - intros Hsender Hfix Hver.
    destruct SENDER_ACCOUNT as [seed|]; [|congruence].
    unfold main. rewrite Hfix. cbn [orb].
    unfold get_chain_major_version, SubstrateInterface,
      SubstrateInterface_get_block_runtime_version.
    destruct (from_spec_version (spec_version node)) eqn:E; [congruence|].
    destruct (arg_dry_run args);
      cbv beta iota zeta delta [bind ret when log_at effect exit raise];
      rewrite E; cbn [log effects files queries submissions];
      change (version_eqb AT_LEAST_12_MAJOR_VERSION PRE_12_MAJOR_VERSION) with false;
      cbv beta iota zeta delta [negb]; cbn [log effects files queries submissions];
      (eexists; split; [reflexivity|]); cbn [effects files];
      (split; [now rewrite <- app_assoc | reflexivity]).
  - intros Hsender Hupgrade Hver.
    destruct SENDER_ACCOUNT as [seed|]; [|congruence].
    unfold main. rewrite Hupgrade, orb_true_r.
    unfold get_chain_major_version, SubstrateInterface,
      SubstrateInterface_get_block_runtime_version.
    destruct (from_spec_version (spec_version node)) eqn:E; [|congruence].
    destruct (arg_dry_run args), (arg_fix_free_balance args);
      cbv beta iota zeta delta [bind ret when log_at effect exit raise];
      rewrite E; cbn [log effects files queries submissions];
      change (version_eqb PRE_12_MAJOR_VERSION PRE_12_MAJOR_VERSION) with true;
      change (version_eqb PRE_12_MAJOR_VERSION AT_LEAST_12_MAJOR_VERSION) with false;
      cbv beta iota zeta delta [negb]; cbn [log effects files queries submissions];
      (eexists; split; [reflexivity|]); cbn [effects files];
      (split; [now rewrite <- app_assoc | reflexivity]).
  - intros code w'. apply main_exit_inv.
Qed.

Lemma fatal_precondition_exit_codes_witness :
  (exists w',
     main dispatch_test_args None scan_test_chain (initial_world ∅)
     = (Raise (SystemExit 1), w') /\ effects w' = []) /\
  (exists w',
     main dispatch_test_args (Some "seed") upgraded_test_chain (initial_world ∅)
     = (Raise (SystemExit 2), w')) /\
  (exists w',
     main upgrade_test_args (Some "seed") scan_test_chain (initial_world ∅)
     = (Raise (SystemExit 3), w')).
Proof.
  split; [|split].
  - destruct (proj1 (fatal_precondition_exit_codes dispatch_test_args None
                       scan_test_chain (initial_world ∅)))
      as (w' & Hrun & He & _); [left; reflexivity | reflexivity |].
    exists w'. split; assumption.
  - destruct (proj1 (proj2 (fatal_precondition_exit_codes dispatch_test_args
                              (Some "seed") upgraded_test_chain (initial_world ∅))))
      as (w' & Hrun & _); [discriminate | reflexivity | discriminate |].
    now exists w'.
  - destruct (proj1 (proj2 (proj2 (fatal_precondition_exit_codes upgrade_test_args
                              (Some "seed") scan_test_chain (initial_world ∅)))))
      as (w' & Hrun & _); [discriminate | reflexivity | discriminate |].
    now exists w'.
Defined.


(** * Further properties of the script *)

(** ** Predicates and account layouts *)

(** X1.  [check_account_invariants] returns a boolean exactly when the layout
    of the account's data matches the regime it is asked about.  Asked about
    the pre-12 regime on a 12-and-later record it raises [KeyError] for
    [misc_frozen], asked about the at-least-12 regime on a pre-12 record it
    raises [KeyError] for [frozen]; the dust predicate passes the first of
    these on instead of its own [AssertionError]. *)
Theorem check_account_invariants_layout :
  forall (providers consumers free reserved a b ed : Z),
    check_account_invariants
      (mkAccountInfo providers consumers (AccountDataV12 free reserved a b))
      PRE_12_MAJOR_VERSION ed = Raise (KeyError "misc_frozen") /\
    check_account_invariants
      (mkAccountInfo providers consumers (AccountDataPre12 free reserved a b))
      AT_LEAST_12_MAJOR_VERSION ed = Raise (KeyError "frozen") /\
    check_if_account_would_be_dust_in_12_version
      (mkAccountInfo providers consumers (AccountDataV12 free reserved a b))
      PRE_12_MAJOR_VERSION ed = Raise (KeyError "misc_frozen") /\
    (forall (account : AccountInfo) (v : ChainMajorVersion),
       (exists holds, check_account_invariants account v ed = Ok holds) <->
       match data account, v with
       | AccountDataPre12 _ _ _ _, PRE_12_MAJOR_VERSION => True
       | AccountDataV12 _ _ _ _, AT_LEAST_12_MAJOR_VERSION => True
       | _, _ => False
       end).
Proof.
  intros. split; [reflexivity|]. split; [reflexivity|]. split; [reflexivity|].
  intros [p c [f r m ff | f r fr fl]] [|]; cbn; split;
    try (intros [holds H]; discriminate H); try tauto;
    intros _; eexists; reflexivity.
Qed.

(** X2.  What the dust predicate foretells.  Take an account that satisfies
    the pre-12 predicate, with a non-negative reserved balance, and read it
    after the upgrade with the same counters and balances, its lock being the
    larger of the two old locks and its flags below [2^127].  The
    at-least-12 predicate holds on the new record exactly when the dust
    predicate was false on the old one. *)
Theorem dust_iff_invalid_after_upgrade :
  forall (providers consumers free reserved misc_frozen fee_frozen flags ed : Z),
    0 <= reserved ->
    flags < 2 ^ 127 ->
    check_account_invariants
      (mkAccountInfo providers consumers
         (AccountDataPre12 free reserved misc_frozen fee_frozen))
      PRE_12_MAJOR_VERSION ed = Ok true ->
    exists dust : bool,
      check_if_account_would_be_dust_in_12_version
        (mkAccountInfo providers consumers
           (AccountDataPre12 free reserved misc_frozen fee_frozen))
        PRE_12_MAJOR_VERSION ed = Ok dust /\
      check_account_invariants
        (mkAccountInfo providers consumers
           (AccountDataV12 free reserved (Z.max misc_frozen fee_frozen) flags))
        AT_LEAST_12_MAJOR_VERSION ed = Ok (negb dust).
Proof.
  intros providers consumers free reserved misc_frozen fee_frozen flags ed
         Hreserved Hflags Hvalid.
  exists (free <? ed). split.
  - unfold check_if_account_would_be_dust_in_12_version.
    cbn [version_eqb py_assert rbind]. rewrite Hvalid. reflexivity.
  - cbn in Hvalid. injection Hvalid as Hvalid.
    rewrite !andb_true_iff, account_ref_counter_invariant_true in Hvalid.
    rewrite !Z.geb_le in Hvalid.
    unfold check_account_invariants.
    cbn -[Z.pow account_ref_counter_invariant]. f_equal.
    apply Bool.eq_iff_eq_true.
    rewrite !andb_true_iff, account_ref_counter_invariant_true.
    bool_to_prop. rewrite ?Z.ltb_ge. lia.
Qed.

Lemma dust_iff_invalid_after_upgrade_witness :
  exists dust : bool,
    check_if_account_would_be_dust_in_12_version
      (mkAccountInfo 1 0 (AccountDataPre12 499 1 30 20)) PRE_12_MAJOR_VERSION 500
    = Ok dust /\
    check_account_invariants
      (mkAccountInfo 1 0 (AccountDataV12 499 1 (Z.max 30 20) 0))
      AT_LEAST_12_MAJOR_VERSION 500 = Ok (negb dust).
Proof.
  apply (dust_iff_invalid_after_upgrade 1 0 499 1 30 20 0 500);
    [lia | reflexivity | reflexivity].
Defined.

(** ** Chunking at the edges *)

(** X3.  [chunks] with a chunk size of 0 raises the [ValueError] of
    [range]; with a negative chunk size it yields no chunk at all, whatever
    the list holds; an empty list yields no chunk for any non-zero size. *)
Theorem chunks_degenerate :
  forall (A : Type) (l : list A) (n : Z),
    (n = 0 ->
     chunks l n = Raise (ValueError "range() arg 3 must not be zero")) /\
    (n < 0 -> chunks l n = Ok []) /\
    (n <> 0 -> chunks (@nil A) n = Ok []).
Proof.
  intros A l n. unfold chunks, py_range, range_length. split; [|split].
  - intros ->. reflexivity.
  - intros Hn.
    destruct (n =? 0) eqn:E0; [apply Z.eqb_eq in E0; lia|].
    destruct (n >? 0) eqn:E1; [apply Z.gtb_lt in E1; lia|].
    destruct (Z.of_nat (length l) <? 0) eqn:E2; [apply Z.ltb_lt in E2; lia|].
    reflexivity.
  - intros Hn. apply Z.eqb_neq in Hn. rewrite Hn. cbn [length Z.of_nat].
    destruct (n >? 0); reflexivity.
Qed.

Lemma chunks_degenerate_witness :
  chunks ["a"; "b"; "c"] 0 = Raise (ValueError "range() arg 3 must not be zero") /\
  chunks ["a"; "b"; "c"] (-2) = Ok [] /\
  chunks (@nil string) 64 = Ok [].
Proof.
  split; [|split].
  - apply (proj1 (chunks_degenerate string ["a"; "b"; "c"] 0)). reflexivity.
  - apply (proj1 (proj2 (chunks_degenerate string ["a"; "b"; "c"] (-2)))). lia.
  - apply (proj2 (proj2 (chunks_degenerate string [] 64))). lia.
Defined.

(** X4.  For a chunk size [n >= 1], element [j] of chunk [i] is element
    [i * n + j] of the list: the chunks keep the elements, their order and
    their neighbours, and past the last chunk there is nothing on either
    side. *)
Theorem chunks_lookup :
  forall (A : Type) (l : list A) (n : Z) (cs : list (list A)) (i j : nat),
    1 <= n ->
    chunks l n = Ok cs ->
    (j < Z.to_nat n)%nat ->
    match cs !! i with
    | Some c => c !! j
    | None => None
    end = l !! (i * Z.to_nat n + j)%nat.
Proof.
  intros A l n cs i j Hn Hcs Hj. rewrite chunks_unfold in Hcs by exact Hn.
  injection Hcs as <-. rewrite list_lookup_fmap.
  set (q := Z.to_nat ((Z.of_nat (length l) + n - 1) / n)).
  destruct (seq 0 q !! i) as [k|] eqn:Hk; cbn [fmap option_fmap option_map].
  - apply lookup_seq in Hk as [-> _]. cbn [Nat.add].
    rewrite lookup_take_lt by exact Hj. now rewrite lookup_drop.
  - symmetry. apply lookup_ge_None_2.
    apply lookup_ge_None_1 in Hk. rewrite length_seq in Hk.
    assert (Hq : n * ((Z.of_nat (length l) + n - 1) / n)
                 <= Z.of_nat (length l) + n - 1
                 < n * ((Z.of_nat (length l) + n - 1) / n) + n).
    { pose proof (Z.div_mod (Z.of_nat (length l) + n - 1) n ltac:(lia)).
      pose proof (Z.mod_pos_bound (Z.of_nat (length l) + n - 1) n ltac:(lia)).
      lia. }
    assert (0 <= (Z.of_nat (length l) + n - 1) / n) by (apply Z.div_pos; lia).
    subst q. nia.
Qed.

Lemma chunks_lookup_witness :
  match [["a"; "b"]; ["c"; "d"]; ["e"]] !! 1%nat with
  | Some c => c !! 1%nat
  | None => None
  end = ["a"; "b"; "c"; "d"; "e"] !! (1 * Z.to_nat 2 + 1)%nat.
Proof.
  apply (chunks_lookup string ["a"; "b"; "c"; "d"; "e"] 2
           [["a"; "b"]; ["c"; "d"]; ["e"]] 1 1);
    [lia | reflexivity | cbn; lia].
Defined.

(** ** Single submissions *)

(** X6.  One call of [submit_extrinsic].  In dry-run mode it returns without
    touching the chain and logs that it is not sending.  Otherwise it submits
    once; if the chain includes the extrinsic it returns, whatever the receipt
    says about success or the number of events.  If the submission raises,
    the lookup of the class named after [except] raises in turn: the
    exception that leaves is that [AttributeError], and the debug record of
    the extrinsic is all the call has logged. *)
Theorem submit_extrinsic_outcomes :
  forall (chain_connection : Chain) (extrinsic : Extrinsic)
         (expected_number_of_events : Z) (w : World),
    (exists w' : World,
       submit_extrinsic chain_connection extrinsic expected_number_of_events true w
       = (Ok tt, w') /\
       effects w' = effects w /\ submissions w' = submissions w /\
       log w' = log w ++ [(DEBUG, ExtrinsicToBeSent extrinsic);
                          (INFO, NotSendingExtrinsic)]) /\
    (forall receipt,
       submit_outcome chain_connection (submissions w) = Included receipt ->
       exists w' : World,
         submit_extrinsic chain_connection extrinsic expected_number_of_events false w
         = (Ok tt, w') /\
         effects w' = effects w ++ [SubmitExtrinsic extrinsic] /\
         submissions w' = S (submissions w)) /\
    (forall msg,
       submit_outcome chain_connection (submissions w) = TransportFailure msg ->
       exists w' : World,
         submit_extrinsic chain_connection extrinsic expected_number_of_events false w
         = (Raise (AttributeError
                     "module 'substrateinterface' has no attribute 'SubstrateRequestException'"),
            w') /\
         effects w' = effects w ++ [SubmitExtrinsic extrinsic] /\
         log w' = log w ++ [(DEBUG, ExtrinsicToBeSent extrinsic)]).
Proof.
  intros chain_connection extrinsic expected w. split; [|split].
  - eexists. split; [reflexivity|]. cbn [effects submissions log].
    repeat split. now rewrite <- app_assoc.
  - intros receipt Hout.
    unfold submit_extrinsic, try_except. cbn [negb].
    cbv beta iota zeta delta [bind SubstrateInterface_submit_extrinsic log_at ret].
    cbn [log effects files queries submissions]. rewrite Hout.
    destruct (is_success receipt); [unfold when;
      destruct (len (triggered_events receipt) <? expected)|];
      cbv beta iota zeta delta [bind log_at ret];
      (eexists; split; [reflexivity|]); split; reflexivity.
  - intros msg Hout.
    unfold submit_extrinsic, try_except,
      substrateinterface_SubstrateRequestException. cbn [negb].
    cbv beta iota zeta delta
      [bind SubstrateInterface_submit_extrinsic log_at ret raise].
    cbn [log effects files queries submissions]. rewrite Hout.
    eexists. split; [reflexivity|]. cbn [effects log].
    split; reflexivity.
Qed.

Lemma submit_extrinsic_outcomes_witness :
  (exists w' : World,
     submit_extrinsic dispatch_test_chain
       {| ext_call := BalancesUpgradeAccounts ["a"];
          ext_keypair := dispatch_test_keypair |} 5 false (initial_world ∅)
     = (Ok tt, w')) /\
  (exists w' : World,
     submit_extrinsic scan_test_chain
       {| ext_call := BalancesUpgradeAccounts ["a"];
          ext_keypair := dispatch_test_keypair |} 5 false (initial_world ∅)
     = (Raise (AttributeError
                 "module 'substrateinterface' has no attribute 'SubstrateRequestException'"),
        w')).
Proof.
  split.
  - destruct (proj1 (proj2 (submit_extrinsic_outcomes dispatch_test_chain
                              {| ext_call := BalancesUpgradeAccounts ["a"];
                                 ext_keypair := dispatch_test_keypair |}
                              5 (initial_world ∅))) failed_receipt eq_refl)
      as (w' & Hrun & _).
    now exists w'.
  - destruct (proj2 (proj2 (submit_extrinsic_outcomes scan_test_chain
                              {| ext_call := BalancesUpgradeAccounts ["a"];
                                 ext_keypair := dispatch_test_keypair |}
                              5 (initial_world ∅))) "connection closed" eq_refl)
      as (w' & Hrun & _).
    now exists w'.
Defined.

(** ** Dispatcher runs that return *)

Lemma chunks_concat {A : Type} (l : list A) (n : Z) (cs : list (list A)) :
  1 <= n -> chunks l n = Ok cs -> concat cs = l.
Proof.
  intros Hn Hcs. rewrite chunks_unfold in Hcs by exact Hn. injection Hcs as <-.
  rewrite concat_chunk_list. apply take_ge.
  pose proof (Z.div_mod (Z.of_nat (length l) + n - 1) n ltac:(lia)).
  pose proof (Z.mod_pos_bound (Z.of_nat (length l) + n - 1) n ltac:(lia)).
  assert (0 <= (Z.of_nat (length l) + n - 1) / n) by (apply Z.div_pos; lia).
  nia.
Qed.

(** A call of [submit_extrinsic] that is skipped or included. *)
Lemma submit_extrinsic_returns :
  forall (chain_connection : Chain) (extrinsic : Extrinsic) (expected : Z)
         (dry_run : bool) (w : World),
    dry_run = true \/ all_included chain_connection ->
    exists w' : World,
      submit_extrinsic chain_connection extrinsic expected dry_run w = (Ok tt, w') /\
      effects w' = effects w ++ submission_calls dry_run extrinsic /\
      files w' = files w /\ queries w' = queries w /\
      exists extra,
        log w' = log w ++ extra /\
        length (List.filter is_not_sending extra) = (if dry_run then 1 else 0)%nat.
Proof.
  intros chain_connection extrinsic expected dry_run w Hmode.
  unfold submit_extrinsic, try_except.
  destruct dry_run; cbn [negb].
  - eexists. split; [reflexivity|]. cbn [effects files queries log submission_calls].
    split; [now rewrite app_nil_r|]. repeat split.
    eexists. split; [rewrite <- app_assoc; reflexivity | reflexivity].
  - destruct Hmode as [Hdry | Hall]; [discriminate|].
    destruct (Hall (submissions w)) as [receipt Hout].
    cbv beta iota zeta delta [bind SubstrateInterface_submit_extrinsic log_at ret].
    cbn [log effects files queries submissions]. rewrite Hout.
    destruct (is_success receipt); [unfold when;
      destruct (len (triggered_events receipt) <? expected)|];
      cbv beta iota zeta delta [bind log_at ret];
      (eexists; split; [reflexivity|]);
      cbn [effects files queries log submission_calls];
      repeat split;
      (eexists; split; [rewrite <- !app_assoc; reflexivity | reflexivity]).
Qed.

Section ReturningDispatcher.
Variables (args : Args) (chain_connection : Chain) (sender_keypair : Keypair).
Hypothesis returns : arg_dry_run args = true \/ all_included chain_connection.

Lemma batch_transfer_chunk_returns :
  forall (amount : Z) (chunk : list AccountId) (w : World),
  exists w' : World,
    batch_transfer_chunk args chain_connection amount sender_keypair chunk w
    = (Ok tt, w') /\
    effects w'
    = effects w ++ transfer_chunk_calls (arg_dry_run args) amount sender_keypair chunk /\
    files w' = files w /\ queries w' = queries w /\
    exists extra,
      log w' = log w ++ extra /\
      length (List.filter is_not_sending extra)
      = (if arg_dry_run args then 1 else 0)%nat.
Proof.
  intros amount chunk [lg ef fs q sb].
  unfold batch_transfer_chunk, bind at 1. rewrite mapM_compose_transfers.
  cbv beta iota zeta delta
    [bind SubstrateInterface_compose_call SubstrateInterface_create_signed_extrinsic
     effect log_at ret].
  cbn [log effects files queries submissions].
  match goal with
  | |- context [submit_extrinsic ?c ?x ?e ?d ?w0] =>
      destruct (submit_extrinsic_returns c x e d w0 returns)
        as (w' & Hrun & He & Hf & Hq & extra & Hl & Hcount)
  end.
  rewrite Hrun. exists w'. split; [reflexivity|].
  cbn [log effects files queries] in He, Hf, Hq, Hl.
  split; [rewrite He; unfold transfer_chunk_calls, transfer_batch;
          now rewrite <- !app_assoc|].
  split; [exact Hf|]. split; [exact Hq|].
  eexists. split; [rewrite Hl, <- app_assoc; reflexivity|].
  cbn [app List.filter is_not_sending]. exact Hcount.
Qed.

Lemma upgrade_accounts_chunk_returns :
  forall (existential_deposit : Z) (chunk : list AccountId) (w : World),
  exists w' : World,
    upgrade_accounts_chunk args existential_deposit chain_connection
      sender_keypair chunk w = (Ok tt, w') /\
    effects w'
    = effects w ++ upgrade_chunk_calls (arg_dry_run args) sender_keypair chunk /\
    files w' = files w /\ queries w' = queries w /\
    exists extra,
      log w' = log w ++ extra /\
      length (List.filter is_not_sending extra)
      = (if arg_dry_run args then 1 else 0)%nat.
Proof.
  intros existential_deposit chunk [lg ef fs q sb].
  unfold upgrade_accounts_chunk.
  cbv beta iota zeta delta
    [bind SubstrateInterface_compose_call SubstrateInterface_create_signed_extrinsic
     effect log_at ret].
  cbn [log effects files queries submissions].
  match goal with
  | |- context [submit_extrinsic ?c ?x ?e ?d ?w0] =>
      destruct (submit_extrinsic_returns c x e d w0 returns)
        as (w' & Hrun & He & Hf & Hq & extra & Hl & Hcount)
  end.
  rewrite Hrun. exists w'. split; [reflexivity|].
  cbn [log effects files queries] in He, Hf, Hq, Hl.
  split; [rewrite He; unfold upgrade_chunk_calls; now rewrite <- !app_assoc|].
  split; [exact Hf|]. split; [exact Hq|].
  eexists. split; [rewrite Hl, <- app_assoc; reflexivity|].
  cbn [app List.filter is_not_sending]. exact Hcount.
Qed.

(** A loop whose every iteration returns with known calls and one known kind
    of log record. *)
Lemma for_each_returns :
  forall (body : list AccountId -> M unit) (calls : list AccountId -> list Effect)
         (per_chunk : nat),
    (forall chunk w,
       exists w' : World,
         body chunk w = (Ok tt, w') /\
         effects w' = effects w ++ calls chunk /\
         files w' = files w /\ queries w' = queries w /\
         exists extra,
           log w' = log w ++ extra /\
           length (List.filter is_not_sending extra) = per_chunk) ->
    forall (cs : list (list AccountId)) (w : World),
    exists w' : World,
      for_each cs body w = (Ok tt, w') /\
      effects w' = effects w ++ flat_map calls cs /\
      files w' = files w /\ queries w' = queries w /\
      exists extra,
        log w' = log w ++ extra /\
        length (List.filter is_not_sending extra) = (length cs * per_chunk)%nat.
Proof.
  intros body calls per_chunk Hbody. induction cs as [|c cs IH]; intros w.
  - exists w. cbn. unfold ret. rewrite app_nil_r. repeat split.
    exists []. now rewrite app_nil_r.
  - destruct (Hbody c w) as (w1 & Hrun1 & He1 & Hf1 & Hq1 & extra1 & Hl1 & Hc1).
    destruct (IH w1) as (w' & Hrun & He & Hf & Hq & extra & Hl & Hc).
    exists w'. cbn [for_each]. unfold bind. rewrite Hrun1, Hrun.
    split; [reflexivity|]. cbn [flat_map length].
    split; [now rewrite He, He1, <- app_assoc|].
    split; [congruence|]. split; [congruence|].
    exists (extra1 ++ extra). split; [now rewrite Hl, Hl1, <- app_assoc|].
    rewrite List.filter_app, length_app, Hc1, Hc. lia.
Qed.
End ReturningDispatcher.

Lemma chunks_zero {A : Type} (l : list A) :
  chunks l 0 = Raise (ValueError "range() arg 3 must not be zero").
Proof. reflexivity. Qed.

Lemma chunks_negative {A : Type} (l : list A) (n : Z) : n < 0 -> chunks l n = Ok [].
Proof.
  intros Hn. unfold chunks, py_range, range_length.
  destruct (n =? 0) eqn:E0; [apply Z.eqb_eq in E0; lia|].
  destruct (n >? 0) eqn:E1; [apply Z.gtb_lt in E1; lia|].
  destruct (Z.of_nat (length l) <? 0) eqn:E2; [apply Z.ltb_lt in E2; lia|].
  reflexivity.
Qed.

Lemma no_submission_in_dry_chunks (amount : Z) (kp : Keypair)
    (cs : list (list AccountId)) :
  List.filter is_submission (flat_map (transfer_chunk_calls true amount kp) cs) = [].
Proof.
  induction cs as [|c cs IH]; [reflexivity|]. cbn [flat_map].
  rewrite List.filter_app, IH, app_nil_r. unfold transfer_chunk_calls.
  rewrite List.filter_app. cbn. rewrite app_nil_r.
  induction c as [|a c IHc]; [reflexivity | exact IHc].
Qed.

Lemma composed_transfers_app (xs ys : list Effect) :
  composed_transfers (xs ++ ys) = composed_transfers xs ++ composed_transfers ys.
Proof. unfold composed_transfers. apply flat_map_app. Qed.

Lemma composed_transfers_chunks (dry_run : bool) (amount : Z) (kp : Keypair)
    (cs : list (list AccountId)) :
  composed_transfers (flat_map (transfer_chunk_calls dry_run amount kp) cs)
  = map (fun account => (account, amount)) (concat cs).
Proof.
  induction cs as [|c cs IH]; [reflexivity|]. cbn [flat_map concat].
  rewrite composed_transfers_app, IH, map_app. f_equal.
  unfold transfer_chunk_calls. rewrite composed_transfers_app.
  assert (Hrest : forall tail,
            composed_transfers
              ([ComposeCall (transfer_batch amount c);
                CreateSignedExtrinsic (transfer_batch amount c) kp]
               ++ submission_calls dry_run tail) = [])
    by (intros tail; destruct dry_run; reflexivity).
  rewrite Hrest, app_nil_r.
  induction c as [|a c IHc]; [reflexivity|]. cbn. now rewrite <- IHc.
Qed.

Lemma upgraded_accounts_app (xs ys : list Effect) :
  upgraded_accounts (xs ++ ys) = upgraded_accounts xs ++ upgraded_accounts ys.
Proof. unfold upgraded_accounts. apply flat_map_app. Qed.

Lemma upgraded_accounts_chunks (dry_run : bool) (kp : Keypair)
    (cs : list (list AccountId)) :
  upgraded_accounts (flat_map (upgrade_chunk_calls dry_run kp) cs) = concat cs.
Proof.
  induction cs as [|c cs IH]; [reflexivity|]. cbn [flat_map concat].
  rewrite upgraded_accounts_app, IH. f_equal.
  destruct dry_run; cbn; now rewrite app_nil_r.
Qed.

(** X7.  [batch_transfer] with [--dry-run] set in the module-level [args]:
    every chunk is composed and signed, no extrinsic is submitted, and the
    call returns after logging one "not sending" record per chunk.  The
    [dry_run] of the parameter [input_args] plays no part. *)
Theorem batch_transfer_dry_run :
  forall (args input_args : Args) (chain_connection : Chain)
         (accounts : list AccountId) (amount : Z) (sender_keypair : Keypair)
         (cs : list (list AccountId)) (w : World),
    arg_dry_run args = true ->
    chunks accounts (arg_transfer_calls_in_batch input_args) = Ok cs ->
    exists w' : World,
      batch_transfer args chain_connection input_args accounts amount
        sender_keypair w = (Ok tt, w') /\
      effects w'
      = effects w ++ flat_map (transfer_chunk_calls true amount sender_keypair) cs /\
      List.filter is_submission (effects w') = List.filter is_submission (effects w) /\
      exists extra,
        log w' = log w ++ extra /\
        length (List.filter is_not_sending extra) = length cs.
Proof.
  intros args input_args chain_connection accounts amount sender_keypair cs w
         Hdry Hcs.
  unfold batch_transfer, bind, lift. rewrite Hcs.
  destruct (for_each_returns
              (batch_transfer_chunk args chain_connection amount sender_keypair)
              (transfer_chunk_calls (arg_dry_run args) amount sender_keypair)
              (if arg_dry_run args then 1 else 0)%nat
              (batch_transfer_chunk_returns args chain_connection sender_keypair
                 (or_introl Hdry) amount) cs w)
    as (w' & Hrun & He & _ & _ & extra & Hl & Hcount).
  rewrite Hdry in He, Hcount. exists w'. split; [exact Hrun|].
  split; [exact He|].
  split; [rewrite He, List.filter_app, no_submission_in_dry_chunks; apply app_nil_r|].
  exists extra. split; [exact Hl|]. lia.
Qed.

Lemma batch_transfer_dry_run_witness :
  exists w' : World,
    batch_transfer upgrade_dry_run_args dispatch_test_chain dispatch_test_args
      ["a"; "b"; "c"] 500 dispatch_test_keypair (initial_world ∅) = (Ok tt, w') /\
    List.filter is_submission (effects w') = [].
Proof.
  destruct (batch_transfer_dry_run upgrade_dry_run_args dispatch_test_args
              dispatch_test_chain ["a"; "b"; "c"] 500 dispatch_test_keypair
              [["a"; "b"]; ["c"]] (initial_world ∅) eq_refl eq_refl)
    as (w' & Hrun & _ & Hnone & _).
  exists w'. split; assumption.
Defined.

(** X8.  [batch_transfer] with a chunk size of at least 1, in dry-run mode or
    on a node that includes every submission: the call returns, and the
    transfers it composed are one transfer of [amount] to each address of its
    list, in the order of the list. *)
Theorem batch_transfer_pays_each_account_once :
  forall (args input_args : Args) (chain_connection : Chain)
         (accounts : list AccountId) (amount : Z) (sender_keypair : Keypair)
         (w : World),
    arg_dry_run args = true \/ all_included chain_connection ->
    1 <= arg_transfer_calls_in_batch input_args ->
    exists w' : World,
      batch_transfer args chain_connection input_args accounts amount
        sender_keypair w = (Ok tt, w') /\
      composed_transfers (effects w')
      = composed_transfers (effects w)
        ++ map (fun account => (account, amount)) accounts /\
      files w' = files w.
Proof.
  intros args input_args chain_connection accounts amount sender_keypair w
         Hmode Hn.
  unfold batch_transfer, bind, lift.
  destruct (chunks accounts (arg_transfer_calls_in_batch input_args))
    as [cs|e] eqn:Hcs; [|rewrite chunks_unfold in Hcs by exact Hn; discriminate].
  destruct (for_each_returns
              (batch_transfer_chunk args chain_connection amount sender_keypair)
              (transfer_chunk_calls (arg_dry_run args) amount sender_keypair)
              (if arg_dry_run args then 1 else 0)%nat
              (batch_transfer_chunk_returns args chain_connection sender_keypair
                 Hmode amount) cs w)
    as (w' & Hrun & He & Hf & _).
  exists w'. split; [exact Hrun|]. split; [|exact Hf].
  rewrite He, composed_transfers_app, composed_transfers_chunks.
  now rewrite (chunks_concat accounts _ cs Hn Hcs).
Qed.

Lemma batch_transfer_pays_each_account_once_witness :
  exists w' : World,
    batch_transfer upgrade_dry_run_args dispatch_test_chain dispatch_test_args
      ["a"; "b"; "c"] 500 dispatch_test_keypair (initial_world ∅) = (Ok tt, w') /\
    composed_transfers (effects w') = [("a", 500); ("b", 500); ("c", 500)].
Proof.
  destruct (batch_transfer_pays_each_account_once upgrade_dry_run_args
              dispatch_test_args dispatch_test_chain ["a"; "b"; "c"] 500
              dispatch_test_keypair (initial_world ∅))
    as (w' & Hrun & Hpaid & _); [left; reflexivity | cbn; lia |].
  exists w'. split; assumption.
Defined.

(** X9.  [upgrade_accounts] with a chunk size of at least 1, in dry-run mode
    or on a node that includes every submission: after one scan of the
    accounts it composes and signs one [Balances.upgrade_accounts] call per
    chunk, and the accounts named in those calls are all the accounts the
    scan was served, each once, in yield order.  No file is touched. *)
Theorem upgrade_accounts_names_every_account_once :
  forall (args input_args : Args) (existential_deposit ed : Z)
         (chain_connection : Chain) (v : ChainMajorVersion)
         (sender_keypair : Keypair) (w : World),
    arg_dry_run args = true \/ all_included chain_connection ->
    1 <= arg_upgrade_accounts_in_batch input_args ->
    exists (w' : World) (cs : list (list AccountId)),
      upgrade_accounts args existential_deposit chain_connection input_args ed v
        sender_keypair w = (Ok tt, w') /\
      chunks (map fst (concat (account_pages chain_connection (queries w))))
             (arg_upgrade_accounts_in_batch input_args) = Ok cs /\
      effects w'
      = effects w ++ QueryMap "System" "Account" 1000
                     :: flat_map (upgrade_chunk_calls (arg_dry_run args)
                                    sender_keypair) cs /\
      upgraded_accounts (effects w')
      = upgraded_accounts (effects w)
        ++ map fst (concat (account_pages chain_connection (queries w))) /\
      files w' = files w.
Proof.
  intros args input_args existential_deposit ed chain_connection v
         sender_keypair w Hmode Hn.
  unfold upgrade_accounts, bind at 1, log_at at 1.
  destruct (filter_false_accounts_run ed v (fun _ _ _ => Ok false)
              (fun _ => false) "'all accounts'" chain_connection
              (mkWorld (log w ++ [(INFO, QueryingAllAccounts)]) (effects w)
                       (files w) (queries w) (submissions w))
              (fun _ _ => eq_refl))
    as (w1 & Hscan & _ & He1 & Hf1 & _ & _).
  cbn [queries effects files] in Hscan, He1, Hf1.
  unfold bind at 1. rewrite Hscan, violations_always_false, map_map. cbn [fst].
  set (ids := map _ (concat (account_pages chain_connection (queries w)))).
  assert (Hids : ids = map fst (concat (account_pages chain_connection (queries w))))
    by reflexivity.
  unfold bind, lift.
  destruct (chunks ids (arg_upgrade_accounts_in_batch input_args))
    as [cs|e] eqn:Hcs; [|rewrite chunks_unfold in Hcs by exact Hn; discriminate].
  destruct (for_each_returns
              (upgrade_accounts_chunk args existential_deposit chain_connection
                 sender_keypair)
              (upgrade_chunk_calls (arg_dry_run args) sender_keypair)
              (if arg_dry_run args then 1 else 0)%nat
              (upgrade_accounts_chunk_returns args chain_connection sender_keypair
                 Hmode existential_deposit) cs w1)
    as (w' & Hrun & He & Hf & _).
  exists w', cs. split; [exact Hrun|]. split; [reflexivity|].
  assert (Hall : effects w'
                 = effects w ++ QueryMap "System" "Account" 1000
                     :: flat_map (upgrade_chunk_calls (arg_dry_run args)
                                    sender_keypair) cs)
    by (rewrite He, He1, <- app_assoc; reflexivity).
  split; [exact Hall|]. split; [|congruence].
  rewrite Hall, upgraded_accounts_app. f_equal.
  change (QueryMap "System" "Account" 1000 :: ?l)
    with ([QueryMap "System" "Account" 1000] ++ l).
  rewrite upgraded_accounts_app, upgraded_accounts_chunks. cbn [upgraded_accounts flat_map app].
  exact (chunks_concat ids _ cs Hn Hcs).
Qed.

Lemma upgrade_accounts_names_every_account_once_witness :
  exists (w' : World),
    upgrade_accounts upgrade_dry_run_args 1 scan_test_chain upgrade_dry_run_args 1
      AT_LEAST_12_MAJOR_VERSION dispatch_test_keypair (initial_world ∅)
    = (Ok tt, w') /\
    upgraded_accounts (effects w')
    = ["account-01"; "account-02"; "account-03"; "account-04"; "account-05";
       "account-06"; "account-07"; "account-08"; "account-09"; "account-10";
       "account-11"; "account-12"; "account-13"].
Proof.
  destruct (upgrade_accounts_names_every_account_once upgrade_dry_run_args
              upgrade_dry_run_args 1 1 scan_test_chain AT_LEAST_12_MAJOR_VERSION
              dispatch_test_keypair (initial_world ∅))
    as (w' & cs & Hrun & _ & _ & Hnamed & _); [left; reflexivity | cbn; lia |].
  exists w'. split; [exact Hrun | exact Hnamed].
Defined.

(** X10.  Chunk sizes the argument parser lets through.  With
    [--transfer-calls-in-batch 0], [batch_transfer] raises [ValueError]
    before any call to the chain client; with a negative size it returns at
    once having transferred nothing.  With a negative
    [--upgrade-accounts-in-batch], [upgrade_accounts] scans the accounts and
    returns without composing a single upgrade call; with 0 it raises
    [ValueError] after the scan. *)
Theorem dispatchers_with_degenerate_chunk_size :
  forall (args input_args : Args) (existential_deposit ed : Z)
         (chain_connection : Chain) (v : ChainMajorVersion)
         (accounts : list AccountId) (amount : Z) (sender_keypair : Keypair)
         (w : World),
    (arg_transfer_calls_in_batch input_args = 0 ->
     batch_transfer args chain_connection input_args accounts amount
       sender_keypair w
     = (Raise (ValueError "range() arg 3 must not be zero"), w)) /\
    (arg_transfer_calls_in_batch input_args < 0 ->
     batch_transfer args chain_connection input_args accounts amount
       sender_keypair w = (Ok tt, w)) /\
    (arg_upgrade_accounts_in_batch input_args < 0 ->
     exists w' : World,
       upgrade_accounts args existential_deposit chain_connection input_args
         ed v sender_keypair w = (Ok tt, w') /\
       effects w' = effects w ++ [QueryMap "System" "Account" 1000]) /\
    (arg_upgrade_accounts_in_batch input_args = 0 ->
     exists w' : World,
       upgrade_accounts args existential_deposit chain_connection input_args
         ed v sender_keypair w
       = (Raise (ValueError "range() arg 3 must not be zero"), w') /\
       effects w' = effects w ++ [QueryMap "System" "Account" 1000]).
Proof.
  intros args input_args existential_deposit ed chain_connection v accounts
         amount sender_keypair w.
  assert (Hscan : exists w1 all,
            filter_false_accounts chain_connection ed v (fun _ _ _ => Ok false)
              "'all accounts'"
              (mkWorld (log w ++ [(INFO, QueryingAllAccounts)]) (effects w)
                       (files w) (queries w) (submissions w))
            = (Ok all, w1) /\
            effects w1 = effects w ++ [QueryMap "System" "Account" 1000]).
  { destruct (filter_false_accounts_run ed v (fun _ _ _ => Ok false)
                (fun _ => false) "'all accounts'" chain_connection
                (mkWorld (log w ++ [(INFO, QueryingAllAccounts)]) (effects w)
                         (files w) (queries w) (submissions w))
                (fun _ _ => eq_refl))
      as (w1 & Hrun & _ & He1 & _).
    eauto. }
  destruct Hscan as (w1 & all & Hscan & He1).
  split; [|split; [|split]].
  - intros Hn. unfold batch_transfer, bind, lift. now rewrite Hn, chunks_zero.
  - intros Hn. unfold batch_transfer, bind, lift.
    now rewrite (chunks_negative accounts _ Hn).
  - intros Hn. unfold upgrade_accounts, bind at 1, log_at at 1.
    unfold bind at 1. rewrite Hscan. unfold bind, lift.
    rewrite (chunks_negative (map fst all) _ Hn). cbn [for_each]. unfold ret.
    exists w1. split; [reflexivity | exact He1].
  - intros Hn. unfold upgrade_accounts, bind at 1, log_at at 1.
    unfold bind at 1. rewrite Hscan. unfold bind, lift.
    rewrite Hn, chunks_zero. exists w1. split; [reflexivity | exact He1].
Qed.

Lemma dispatchers_with_degenerate_chunk_size_witness :
  batch_transfer dispatch_test_args dispatch_test_chain negative_batch_args
    ["a"; "b"] 500 dispatch_test_keypair (initial_world ∅)
  = (Ok tt, initial_world ∅) /\
  batch_transfer dispatch_test_args dispatch_test_chain zero_batch_args
    ["a"; "b"] 500 dispatch_test_keypair (initial_world ∅)
  = (Raise (ValueError "range() arg 3 must not be zero"), initial_world ∅).
Proof.
  split.
  - apply (proj1 (proj2 (dispatchers_with_degenerate_chunk_size
                           dispatch_test_args negative_batch_args 1 1
                           dispatch_test_chain PRE_12_MAJOR_VERSION ["a"; "b"] 500
                           dispatch_test_keypair (initial_world ∅)))).
    cbn. lia.
  - apply (proj1 (dispatchers_with_degenerate_chunk_size
                    dispatch_test_args zero_batch_args 1 1
                    dispatch_test_chain PRE_12_MAJOR_VERSION ["a"; "b"] 500
                    dispatch_test_keypair (initial_world ∅))).
    reflexivity.
Defined.

(** ** The scanner's log, and scans that stop early *)

Section ScanLog.
Variables (ed : Z) (v : ChainMajorVersion) (pred : Predicate)
          (p : AccountInfo -> bool) (name : string).

(** The loop over accounts on which the predicate returns, with the world it
    ends in. *)
Lemma filter_false_accounts_loop_exact :
  forall (accounts : list (AccountId * AccountInfo)) (i total : Z)
         (acc : list AccountEntry) lg ef fs q sb,
    (forall entry, In entry accounts -> pred (snd entry) v ed = Ok (p (snd entry))) ->
    filter_false_accounts_loop ed v pred name accounts i total acc
      (mkWorld lg ef fs q sb)
    = (Ok (total + len accounts, acc ++ violations p accounts),
       mkWorld (lg ++ scan_records p name accounts i) ef fs q sb).
Proof.
  induction accounts as [|[account_id info] rest IH];
    intros i total acc lg ef fs q sb Hp.
  - cbn. unfold ret, len. now rewrite Z.add_0_r, !app_nil_r.
  - cbn [filter_false_accounts_loop scan_records]. unfold bind at 1, lift.
    pose proof (Hp (account_id, info) (or_introl eq_refl)) as Hhere.
    cbn [snd] in Hhere. rewrite Hhere, violations_cons.
    assert (Hlen : total + 1 + len rest = total + len ((account_id, info) :: rest))
      by (unfold len; cbn [length]; lia).
    assert (Hrest : forall entry, In entry rest ->
                                  pred (snd entry) v ed = Ok (p (snd entry)))
      by (intros entry Hin; apply Hp; now right).
    destruct (p info); cbn [negb];
      cbv beta iota zeta delta [bind log_at ret when];
      cbn [log effects files queries submissions];
      destruct ((i mod 5000 =? 0) && (i >? 0));
      cbv beta iota zeta delta [bind log_at ret];
      cbn [log effects files queries submissions];
      rewrite IH by exact Hrest; rewrite Hlen, <- ?app_assoc; reflexivity.
Qed.

(** The loop over accounts the predicate returns on, followed by one on
    which it raises: the exception ends the loop, whatever comes after. *)
Lemma filter_false_accounts_loop_raises :
  forall (good : list (AccountId * AccountInfo)) (account_id : AccountId)
         (bad : AccountInfo) (rest : list (AccountId * AccountInfo)) (e : exn)
         (i total : Z) (acc : list AccountEntry) lg ef fs q sb,
    (forall entry, In entry good -> pred (snd entry) v ed = Ok (p (snd entry))) ->
    pred bad v ed = Raise e ->
    filter_false_accounts_loop ed v pred name
      (good ++ (account_id, bad) :: rest) i total acc (mkWorld lg ef fs q sb)
    = (Raise e, mkWorld (lg ++ scan_records p name good i) ef fs q sb).
Proof.
  induction good as [|[good_id info] good IH];
    intros account_id bad rest e i total acc lg ef fs q sb Hp Hbad.
  - cbn [app filter_false_accounts_loop scan_records]. unfold bind at 1, lift.
    rewrite Hbad. now rewrite app_nil_r.
  - cbn [app filter_false_accounts_loop scan_records]. unfold bind at 1, lift.
    pose proof (Hp (good_id, info) (or_introl eq_refl)) as Hhere.
    cbn [snd] in Hhere. rewrite Hhere.
    assert (Hrest : forall entry, In entry good ->
                                  pred (snd entry) v ed = Ok (p (snd entry)))
      by (intros entry Hin; apply Hp; now right).
    destruct (p info); cbn [negb];
      cbv beta iota zeta delta [bind log_at ret when];
      cbn [log effects files queries submissions];
      destruct ((i mod 5000 =? 0) && (i >? 0));
      cbv beta iota zeta delta [bind log_at ret];
      cbn [log effects files queries submissions];
      rewrite (IH account_id bad rest e) by assumption;
      rewrite <- ?app_assoc; reflexivity.
Qed.

Lemma in_scan_records_progress :
  forall (accounts : list (AccountId * AccountInfo)) (i0 i : Z),
    In (INFO, CheckedAccounts i) (scan_records p name accounts i0) <->
    i0 <= i < i0 + len accounts /\ i mod 5000 = 0 /\ 0 < i.
Proof.
  induction accounts as [|[account_id info] rest IH]; intros i0 i.
  - cbn. unfold len. cbn. split; [intros [] | lia].
  - cbn [scan_records]. rewrite !in_app_iff, IH.
    assert (Hlen : len ((account_id, info) :: rest) = 1 + len rest)
      by (unfold len; cbn [length]; lia).
    assert (Hnonneg : 0 <= len rest) by (unfold len; lia).
    rewrite Hlen. split.
    + intros [Hdebug | [Hhere | Hlater]].
      * destruct (p info); [destruct Hdebug|].
        destruct Hdebug as [Hd | []]. discriminate Hd.
      * destruct ((i0 mod 5000 =? 0) && (i0 >? 0)) eqn:E; [|destruct Hhere].
        destruct Hhere as [Hh | []]. injection Hh as <-.
        apply andb_true_iff in E as [E1 E2].
        apply Z.eqb_eq in E1. apply Z.gtb_lt in E2. lia.
      * lia.
    + intros (Hrange & Hmod & Hpos).
      destruct (Z.eq_dec i i0) as [-> | Hne].
      * right. left.
        replace ((i0 mod 5000 =? 0) && (i0 >? 0)) with true; [now left|].
        symmetry. apply andb_true_iff. split;
          [now apply Z.eqb_eq | now apply Z.gtb_lt].
      * right. right. lia.
Qed.

Lemma debug_scan_records :
  forall (accounts : list (AccountId * AccountInfo)) (i : Z),
    List.filter is_debug (scan_records p name accounts i)
    = map (fun entry => (DEBUG, AccountDoesNotMeetPredicate (fst entry) name))
          (violations p accounts).
Proof.
  induction accounts as [|[account_id info] rest IH]; intros i; [reflexivity|].
  cbn [scan_records]. rewrite !List.filter_app, IH, violations_cons.
  destruct (p info), ((i mod 5000 =? 0) && (i >? 0)); reflexivity.
Qed.
End ScanLog.

Lemma filter_false_accounts_exact :
  forall (chain_connection : Chain) (ed : Z) (v : ChainMajorVersion)
         (pred : Predicate) (p : AccountInfo -> bool) (name : string) (w : World),
    (forall entry,
       In entry (concat (account_pages chain_connection (queries w))) ->
       pred (snd entry) v ed = Ok (p (snd entry))) ->
    filter_false_accounts chain_connection ed v pred name w
    = (Ok (violations p (concat (account_pages chain_connection (queries w)))),
       mkWorld
         (log w
            ++ scan_records p name
                 (concat (account_pages chain_connection (queries w))) 0
            ++ [(INFO, TotalAccounts name
                         (len (concat (account_pages chain_connection (queries w)))))])
         (effects w ++ [QueryMap "System" "Account" 1000])
         (files w) (S (queries w)) (submissions w)).
Proof.
  intros chain_connection ed v pred p name w Hp.
  unfold filter_false_accounts, bind at 1, SubstrateInterface_query_map.
  unfold bind at 1.
  rewrite (filter_false_accounts_loop_exact ed v pred p name) by exact Hp.
  cbv beta iota zeta delta [bind log_at ret].
  cbn [log effects files queries submissions app Z.add].
  now rewrite <- app_assoc.
Qed.

Lemma no_total_in_scan_records (p : AccountInfo -> bool) (name check : string)
    (accounts : list (AccountId * AccountInfo)) (i total : Z) :
  ~ In (INFO, TotalAccounts check total) (scan_records p name accounts i).
Proof.
  revert i. induction accounts as [|[account_id info] rest IH]; intros i Hin;
    [exact Hin|].
  cbn [scan_records] in Hin. rewrite !in_app_iff in Hin.
  destruct Hin as [Hin | [Hin | Hin]].
  - destruct (p info); [exact Hin|]. destruct Hin as [Hd | []]. discriminate Hd.
  - destruct ((i mod 5000 =? 0) && (i >? 0)); [|exact Hin].
    destruct Hin as [Hd | []]. discriminate Hd.
  - exact (IH _ Hin).
Qed.

(** X11.  Progress records of a scan.  On a source of [n] accounts the
    scanner logs "Checked i accounts" exactly for the multiples [i] of 5000
    with [0 < i < n], before its closing record: the record for [i] is logged
    while account number [i + 1] is being handled, so a source of exactly
    5000 accounts logs no progress at all. *)
Theorem filter_false_accounts_progress_records :
  forall (chain_connection : Chain) (ed : Z) (v : ChainMajorVersion)
         (pred : Predicate) (p : AccountInfo -> bool) (name : string) (w : World),
    (forall entry,
       In entry (concat (account_pages chain_connection (queries w))) ->
       pred (snd entry) v ed = Ok (p (snd entry))) ->
    exists (w' : World) (during : list (LogLevel * LogMessage)),
      snd (filter_false_accounts chain_connection ed v pred name w) = w' /\
      log w'
      = log w ++ during
        ++ [(INFO, TotalAccounts name
                     (len (concat (account_pages chain_connection (queries w)))))] /\
      forall i : Z,
        In (INFO, CheckedAccounts i) during <->
        0 < i < len (concat (account_pages chain_connection (queries w))) /\
        i mod 5000 = 0.
Proof.
  intros chain_connection ed v pred p name w Hp.
  rewrite (filter_false_accounts_exact chain_connection ed v pred p name w Hp).
  eexists. eexists. split; [reflexivity|]. cbn [snd log].
  split; [reflexivity|]. intros i. rewrite in_scan_records_progress.
  split; intros ?; lia.
Qed.

Lemma filter_false_accounts_progress_records_witness :
  exists (w' : World) (during : list (LogLevel * LogMessage)),
    snd (filter_false_accounts scan_test_chain 1 PRE_12_MAJOR_VERSION
           all_but_second_and_ninth "test" (initial_world ∅)) = w' /\
    log w' = during ++ [(INFO, TotalAccounts "test" 13)] /\
    ~ In (INFO, CheckedAccounts 5000) during.
Proof.
  destruct (filter_false_accounts_progress_records scan_test_chain 1
              PRE_12_MAJOR_VERSION all_but_second_and_ninth
              (fun info =>
                 negb ((data_free (data info) =? 2) || (data_free (data info) =? 9)))
              "test" (initial_world ∅) (fun entry _ => eq_refl))
    as (w' & during & Hrun & Hlog & Hprogress).
  exists w', during. split; [exact Hrun|]. split; [exact Hlog|].
  intros Hin. apply Hprogress in Hin. destruct Hin as [[_ Hlt] _].
  vm_compute in Hlt. discriminate Hlt.
Defined.

(** X12.  Debug records of a scan.  The debug records the scanner logs are
    one per account of the list it returns, in the same order, each naming
    the account and the check. *)
Theorem filter_false_accounts_debug_records :
  forall (chain_connection : Chain) (ed : Z) (v : ChainMajorVersion)
         (pred : Predicate) (p : AccountInfo -> bool) (name : string) (w : World),
    (forall entry,
       In entry (concat (account_pages chain_connection (queries w))) ->
       pred (snd entry) v ed = Ok (p (snd entry))) ->
    exists (returned : list AccountEntry) (w' : World)
           (new : list (LogLevel * LogMessage)),
      filter_false_accounts chain_connection ed v pred name w = (Ok returned, w') /\
      log w' = log w ++ new /\
      List.filter is_debug new
      = map (fun entry => (DEBUG, AccountDoesNotMeetPredicate (fst entry) name))
            returned.
Proof.
  intros chain_connection ed v pred p name w Hp.
  rewrite (filter_false_accounts_exact chain_connection ed v pred p name w Hp).
  eexists. eexists. eexists. split; [reflexivity|]. cbn [log].
  split; [reflexivity|].
  rewrite List.filter_app, debug_scan_records. cbn. apply app_nil_r.
Qed.

Lemma filter_false_accounts_debug_records_witness :
  exists (returned : list AccountEntry) (w' : World)
         (new : list (LogLevel * LogMessage)),
    filter_false_accounts scan_test_chain 1 PRE_12_MAJOR_VERSION
      all_but_second_and_ninth "test" (initial_world ∅) = (Ok returned, w') /\
    log w' = new /\
    length (List.filter is_debug new) = length returned.
Proof.
  destruct (filter_false_accounts_debug_records scan_test_chain 1
              PRE_12_MAJOR_VERSION all_but_second_and_ninth
              (fun info =>
                 negb ((data_free (data info) =? 2) || (data_free (data info) =? 9)))
              "test" (initial_world ∅) (fun entry _ => eq_refl))
    as (returned & w' & new & Hrun & Hlog & Hdebug).
  exists returned, w', new. split; [exact Hrun|]. split; [exact Hlog|].
  now rewrite Hdebug, length_map.
Defined.

(** X13.  A scan whose predicate raises.  If the predicate returns on the
    accounts yielded first and raises on the next one, the scanner raises
    that exception: no list is returned, no closing record is logged, the
    debug records are those of the accounts before, and the accounts after
    are never looked at. *)
Theorem filter_false_accounts_stops_at_exception :
  forall (chain_connection : Chain) (ed : Z) (v : ChainMajorVersion)
         (pred : Predicate) (p : AccountInfo -> bool) (name : string) (w : World)
         (good rest : list (AccountId * AccountInfo)) (account_id : AccountId)
         (bad : AccountInfo) (e : exn),
    concat (account_pages chain_connection (queries w))
    = good ++ (account_id, bad) :: rest ->
    (forall entry, In entry good -> pred (snd entry) v ed = Ok (p (snd entry))) ->
    pred bad v ed = Raise e ->
    exists (w' : World) (new : list (LogLevel * LogMessage)),
      filter_false_accounts chain_connection ed v pred name w = (Raise e, w') /\
      effects w' = effects w ++ [QueryMap "System" "Account" 1000] /\
      files w' = files w /\
      log w' = log w ++ new /\
      List.filter is_debug new
      = map (fun entry => (DEBUG, AccountDoesNotMeetPredicate (fst entry) name))
            (violations p good) /\
      forall check total, ~ In (INFO, TotalAccounts check total) new.
Proof.
  intros chain_connection ed v pred p name w good rest account_id bad e
         Hpages Hgood Hbad.
  unfold filter_false_accounts, bind at 1, SubstrateInterface_query_map.
  unfold bind at 1. rewrite Hpages.
  rewrite (filter_false_accounts_loop_raises ed v pred p name good account_id bad
             rest e) by assumption.
  eexists. eexists. split; [reflexivity|]. cbn [log effects files].
  repeat split.
  - apply debug_scan_records.
  - intros check total. apply no_total_in_scan_records.
Qed.

Lemma filter_false_accounts_stops_at_exception_witness :
  exists w' : World,
    filter_false_accounts mixed_test_chain 500 PRE_12_MAJOR_VERSION
      check_account_invariants "'account invariants'" (initial_world ∅)
    = (Raise (KeyError "misc_frozen"), w') /\
    files w' = ∅.
Proof.
  destruct (filter_false_accounts_stops_at_exception mixed_test_chain 500
              PRE_12_MAJOR_VERSION check_account_invariants (fun _ => true)
              "'account invariants'" (initial_world ∅)
              [("valid", mkAccountInfo 1 0 (AccountDataPre12 600 0 0 0))]
              [("later", mkAccountInfo 1 0 (AccountDataPre12 100 0 0 0))]
              "foreign" (mkAccountInfo 1 0 (AccountDataV12 600 0 0 0))
              (KeyError "misc_frozen"))
    as (w' & new & Hrun & _ & Hfiles & _).
  - reflexivity.
  - intros entry [<- | []]. reflexivity.
  - reflexivity.
  - exists w'. split; [exact Hrun | exact Hfiles].
Defined.

(** ** Looking for dust *)

Lemma violations_negb (f : AccountInfo -> bool)
    (accounts : list (AccountId * AccountInfo)) :
  violations (fun info => negb (f info)) accounts
  = List.filter (fun entry => f (snd entry)) accounts.
Proof.
  induction accounts as [|[account_id info] rest IH]; [reflexivity|].
  rewrite violations_cons, IH. cbn [List.filter snd]. unfold serialize.
  now destruct (f info).
Qed.

Lemma not_dust_on_valid (info : AccountInfo) (ed : Z) :
  check_account_invariants info PRE_12_MAJOR_VERSION ed = Ok true ->
  not_dust info PRE_12_MAJOR_VERSION ed = Ok (negb (data_free (data info) <? ed)).
Proof.
  intros Hvalid. unfold not_dust, check_if_account_would_be_dust_in_12_version.
  cbn [version_eqb py_assert rbind]. now rewrite Hvalid.
Qed.

Lemma not_dust_on_invalid (info : AccountInfo) (ed : Z) :
  check_account_invariants info PRE_12_MAJOR_VERSION ed = Ok false ->
  not_dust info PRE_12_MAJOR_VERSION ed
  = Raise (AssertionError "Account does not meet pre-12 version invariants!").
Proof.
  intros Hinvalid. unfold not_dust, check_if_account_would_be_dust_in_12_version.
  cbn [version_eqb py_assert rbind]. now rewrite Hinvalid.
Qed.

(** X14.  [find_dust_accounts].  Asked about the at-least-12 regime it raises
    [AssertionError] before it queries the chain.  In the pre-12 regime, on
    accounts that all satisfy the pre-12 predicate, it returns those with
    [free < ED], in yield order, after one query.  If some account fails the
    pre-12 predicate, the scan ends at the first such account with an
    [AssertionError] and returns no list. *)
Theorem find_dust_accounts_behaviour :
  forall (chain_connection : Chain) (ed : Z) (w : World),
    find_dust_accounts chain_connection ed AT_LEAST_12_MAJOR_VERSION w
    = (Raise (AssertionError "Chain major version must be less than 12!"), w) /\
    ((forall entry,
        In entry (concat (account_pages chain_connection (queries w))) ->
        check_account_invariants (snd entry) PRE_12_MAJOR_VERSION ed = Ok true) ->
     exists w' : World,
       find_dust_accounts chain_connection ed PRE_12_MAJOR_VERSION w
       = (Ok (List.filter (fun entry => data_free (data (snd entry)) <? ed)
                (concat (account_pages chain_connection (queries w)))), w') /\
       effects w' = effects w ++ [QueryMap "System" "Account" 1000]) /\
    (forall (good rest : list (AccountId * AccountInfo)) (account_id : AccountId)
            (bad : AccountInfo),
       concat (account_pages chain_connection (queries w))
       = good ++ (account_id, bad) :: rest ->
       (forall entry, In entry good ->
          check_account_invariants (snd entry) PRE_12_MAJOR_VERSION ed = Ok true) ->
       check_account_invariants bad PRE_12_MAJOR_VERSION ed = Ok false ->
       exists (msg : string) (w' : World),
         find_dust_accounts chain_connection ed PRE_12_MAJOR_VERSION w
         = (Raise (AssertionError msg), w') /\
         effects w' = effects w ++ [QueryMap "System" "Account" 1000] /\
         files w' = files w).
Proof.
  intros chain_connection ed w. split; [reflexivity|]. split.
  - intros Hvalid. unfold find_dust_accounts.
    cbn [version_eqb py_assert]. unfold bind at 1, lift at 1.
    fold not_dust.
    rewrite (filter_false_accounts_exact chain_connection ed PRE_12_MAJOR_VERSION
               not_dust (fun info => negb (data_free (data info) <? ed)))
      by (intros entry Hin; apply not_dust_on_valid, Hvalid, Hin).
    rewrite violations_negb. eexists. split; reflexivity.
  - intros good rest account_id bad Hpages Hgood Hbad. unfold find_dust_accounts.
    cbn [version_eqb py_assert]. unfold bind at 1, lift at 1.
    fold not_dust.
    unfold filter_false_accounts, bind at 1, SubstrateInterface_query_map.
    unfold bind at 1. rewrite Hpages.
    rewrite (filter_false_accounts_loop_raises ed PRE_12_MAJOR_VERSION not_dust
               (fun info => negb (data_free (data info) <? ed))
               "'account valid in pre-12 version but not in 12 version'"
               good account_id bad rest
               (AssertionError "Account does not meet pre-12 version invariants!"));
      [| intros entry Hin; apply not_dust_on_valid, Hgood, Hin
       | now apply not_dust_on_invalid].
    eexists. eexists. split; [reflexivity|]. split; reflexivity.
Qed.

Lemma find_dust_accounts_behaviour_witness :
  (exists w' : World,
     find_dust_accounts dust_test_chain 500 PRE_12_MAJOR_VERSION (initial_world ∅)
     = (Ok [("dust", mkAccountInfo 1 0 (AccountDataPre12 499 1 0 0))], w')) /\
  (exists (msg : string) (w' : World),
     find_dust_accounts invalid_test_chain 500 PRE_12_MAJOR_VERSION (initial_world ∅)
     = (Raise (AssertionError msg), w')).
Proof.
  split.
  - destruct (proj1 (proj2 (find_dust_accounts_behaviour dust_test_chain 500
                              (initial_world ∅))))
      as (w' & Hrun & _).
    { intros entry [<- | [<- | []]]; reflexivity. }
    exists w'. exact Hrun.
  - destruct (proj2 (proj2 (find_dust_accounts_behaviour invalid_test_chain 500
                              (initial_world ∅)))
                [("dust", mkAccountInfo 1 0 (AccountDataPre12 499 1 0 0))]
                [("later", mkAccountInfo 1 0 (AccountDataPre12 100 400 0 0))]
                "invalid" (mkAccountInfo 2 0 (AccountDataPre12 600 0 0 0)))
      as (msg & w' & Hrun & _).
    + reflexivity.
    + intros entry [<- | []]. reflexivity.
    + reflexivity.
    + exists msg, w'. exact Hrun.
Defined.

(** ** The calls a run makes *)

Section CallsOnly.
Variable allowed : Effect -> bool.

Lemma calls_only_silent {A : Type} (m : M A) :
  (forall w, effects (snd (m w)) = effects w) -> calls_only allowed m.
Proof.
  intros Hm w. exists []. split; [now rewrite app_nil_r, Hm | reflexivity].
Qed.

Lemma calls_only_ret {A : Type} (a : A) : calls_only allowed (ret a).
Proof. now apply calls_only_silent. Qed.

Lemma calls_only_raise {A : Type} (e : exn) : calls_only allowed (@raise A e).
Proof. now apply calls_only_silent. Qed.

Lemma calls_only_lift {A : Type} (r : result A) : calls_only allowed (lift r).
Proof. now apply calls_only_silent. Qed.

Lemma calls_only_log_at level msg : calls_only allowed (log_at level msg).
Proof. now apply calls_only_silent. Qed.

Lemma calls_only_effect (e : Effect) :
  allowed e = true -> calls_only allowed (effect e).
Proof.
  intros He w. exists [e]. split; [reflexivity|]. cbn. now rewrite He.
Qed.

Lemma calls_only_bind {A B : Type} (m : M A) (k : A -> M B) :
  calls_only allowed m -> (forall a, calls_only allowed (k a)) ->
  calls_only allowed (bind m k).
Proof.
  intros Hm Hk w. unfold bind. destruct (Hm w) as (new & He & Hnew).
  destruct (m w) as [[a|e] w1]; cbn [snd] in *.
  - destruct (Hk a w1) as (new' & He' & Hnew').
    exists (new ++ new'). split; [now rewrite He', He, <- app_assoc|].
    rewrite forallb_app, Hnew, Hnew'. reflexivity.
  - now exists new.
Qed.

Lemma calls_only_when (cond : bool) (body : M unit) :
  calls_only allowed body -> calls_only allowed (when cond body).
Proof. intros Hb. destruct cond; [exact Hb | apply calls_only_ret]. Qed.

Lemma calls_only_mapM {A B : Type} (f : A -> M B) (l : list A) :
  (forall x, calls_only allowed (f x)) -> calls_only allowed (mapM f l).
Proof.
  intros Hf. induction l as [|x rest IH]; cbn [mapM].
  - apply calls_only_ret.
  - apply calls_only_bind; [apply Hf|]. intros y.
    apply calls_only_bind; [exact IH|]. intros ys. apply calls_only_ret.
Qed.

Lemma calls_only_for_each {A : Type} (xs : list A) (body : A -> M unit) :
  (forall x, calls_only allowed (body x)) -> calls_only allowed (for_each xs body).
Proof.
  intros Hb. induction xs as [|x rest IH]; cbn [for_each].
  - apply calls_only_ret.
  - apply calls_only_bind; [apply Hb | intros _; exact IH].
Qed.

Lemma calls_only_try_except {A : Type} (body : M A)
    (exception_class : result (exn -> bool)) (handler : exn -> M A) :
  calls_only allowed body -> (forall e, calls_only allowed (handler e)) ->
  calls_only allowed (try_except body exception_class handler).
Proof.
  intros Hb Hh w. unfold try_except.
  destruct (Hb w) as (new & He & Hnew).
  destruct (body w) as [[a|e] w1]; cbn [snd] in *; [now exists new|].
  destruct exception_class as [is_instance|e']; [|now exists new].
  destruct (is_instance e); [|now exists new].
  destruct (Hh e w1) as (new' & He' & Hnew').
  exists (new ++ new'). split; [now rewrite He', He, <- app_assoc|].
  rewrite forallb_app, Hnew, Hnew'. reflexivity.
Qed.

Lemma calls_only_query_map chain_connection m f page_size :
  allowed (QueryMap m f page_size) = true ->
  calls_only allowed (SubstrateInterface_query_map chain_connection m f page_size).
Proof.
  intros Hq w. eexists. split; [reflexivity|]. cbn. now rewrite Hq.
Qed.

Lemma calls_only_save_accounts_to_json_file name accounts :
  allowed (OpenForWriting name) = true ->
  calls_only allowed (save_accounts_to_json_file name accounts).
Proof.
  intros Ho w. eexists. split; [reflexivity|]. cbn. now rewrite Ho.
Qed.

Lemma calls_only_filter_false_accounts_loop ed v (pred : Predicate) name :
  forall accounts i total acc,
    calls_only allowed (filter_false_accounts_loop ed v pred name accounts i total acc).
Proof.
  induction accounts as [|[account_id info] rest IH]; intros i total acc;
    cbn [filter_false_accounts_loop].
  - apply calls_only_ret.
  - apply calls_only_bind; [apply calls_only_lift|]. intros holds.
    apply calls_only_bind.
    { destruct (negb holds); [|apply calls_only_ret].
      apply calls_only_bind; [apply calls_only_log_at|].
      intros _. apply calls_only_ret. }
    intros acc'.
    apply calls_only_bind; [apply calls_only_when, calls_only_log_at|].
    intros _. apply IH.
Qed.

Lemma calls_only_filter_false_accounts chain_connection ed v (pred : Predicate) name :
  allowed (QueryMap "System" "Account" 1000) = true ->
  calls_only allowed (filter_false_accounts chain_connection ed v pred name).
Proof.
  intros Hq. unfold filter_false_accounts.
  apply calls_only_bind; [now apply calls_only_query_map|]. intros pages.
  apply calls_only_bind; [apply calls_only_filter_false_accounts_loop|].
  intros [total acc].
  apply calls_only_bind; [apply calls_only_log_at|]. intros _. apply calls_only_ret.
Qed.

Lemma calls_only_perform_account_sanity_checks chain_connection ed v :
  allowed (QueryMap "System" "Account" 1000) = true ->
  allowed (OpenForWriting "accounts-with-failed-invariants.json") = true ->
  calls_only allowed (perform_account_sanity_checks chain_connection ed v).
Proof.
  intros Hq Ho. unfold perform_account_sanity_checks.
  apply calls_only_bind; [now apply calls_only_filter_false_accounts|].
  intros invalid. destruct (len invalid >? 0); [|apply calls_only_log_at].
  apply calls_only_bind; [apply calls_only_log_at|]. intros _.
  now apply calls_only_save_accounts_to_json_file.
Qed.
End CallsOnly.

Ltac calls_step :=
  match goal with
  | |- calls_only _ (bind _ _) => apply calls_only_bind; [|intros]
  | |- calls_only _ (ret _) => apply calls_only_ret
  | |- calls_only _ (raise _) => apply calls_only_raise
  | |- calls_only _ (exit _) => apply calls_only_raise
  | |- calls_only _ (lift _) => apply calls_only_lift
  | |- calls_only _ (log_at _ _) => apply calls_only_log_at
  | |- calls_only _ (effect _) => apply calls_only_effect; reflexivity
  | |- calls_only _ (when _ _) => apply calls_only_when
  | |- calls_only _ (mapM _ _) => apply calls_only_mapM; intros
  | |- calls_only _ (for_each _ _) => apply calls_only_for_each; intros
  | |- calls_only _ (try_except _ _ _) =>
      apply calls_only_try_except; [|intros; cbv beta]
  | |- calls_only _ (filter_false_accounts _ _ _ _ _) =>
      apply calls_only_filter_false_accounts; reflexivity
  | |- calls_only _ (perform_account_sanity_checks _ _ _) =>
      apply calls_only_perform_account_sanity_checks; reflexivity
  | |- calls_only _ (save_accounts_to_json_file _ _) =>
      apply calls_only_save_accounts_to_json_file; reflexivity
  | |- calls_only _ (if ?b then _ else _) => destruct b
  | |- calls_only _ (match ?x with _ => _ end) => destruct x
  end.

Ltac calls_steps := repeat calls_step.


Section DryRun.
Variable args : Args.
Hypothesis dry_run : arg_dry_run args = true.



End DryRun.



(** X16.  A run without [--fix-free-balance] and without [--upgrade-accounts]
    only reads the chain: it connects, reads the runtime version and the
    existential deposit, queries the accounts and may write an artifact; it
    derives no keypair and composes, signs and submits nothing.  It does not
    look at SENDER_ACCOUNT: the run is the same with and without it. *)
Theorem main_audit_only_is_read_only :
  forall (args : Args) (SENDER_ACCOUNT : option string) (node : Chain) (w : World),
    arg_fix_free_balance args = false ->
    arg_upgrade_accounts args = false ->
    main args SENDER_ACCOUNT node w = main args None node w /\
    exists new : list Effect,
      effects (snd (main args SENDER_ACCOUNT node w)) = effects w ++ new /\
      forallb is_read_only new = true.
Proof.
  intros args SENDER_ACCOUNT node w Hfix Hupgrade.
  assert (Hsame : main args SENDER_ACCOUNT node = main args None node)
    by (unfold main; rewrite Hfix, Hupgrade; reflexivity).
  split; [now rewrite Hsame|]. rewrite Hsame.
  assert (Hcalls : calls_only is_read_only (main args None node)).
  { unfold main, get_chain_major_version, SubstrateInterface,
      SubstrateInterface_get_block_runtime_version, SubstrateInterface_get_constant.
    rewrite Hfix, Hupgrade. cbn [orb when]. calls_steps. }
  exact (Hcalls w).
Qed.

Lemma main_audit_only_is_read_only_witness :
  exists new : list Effect,
    effects (snd (main audit_args (Some "seed") scan_test_chain (initial_world ∅)))
    = new /\
    forallb is_read_only new = true.
Proof.
  destruct (main_audit_only_is_read_only audit_args (Some "seed") scan_test_chain
              (initial_world ∅) eq_refl eq_refl) as (_ & new & He & Hnew).
  exists new. split; assumption.
Defined.

(** ** Whole runs *)

(** The sanity check on accounts its predicate returns on, with the world it
    ends in. *)
Lemma perform_account_sanity_checks_exact :
  forall (chain_connection : Chain) (ed : Z) (v : ChainMajorVersion)
         (p : AccountInfo -> bool) (w : World),
    (forall entry,
       In entry (concat (account_pages chain_connection (queries w))) ->
       check_account_invariants (snd entry) v ed = Ok (p (snd entry))) ->
    exists w' : World,
      perform_account_sanity_checks chain_connection ed v w = (Ok tt, w') /\
      effects w'
      = effects w ++ QueryMap "System" "Account" 1000
          :: match violations p (concat (account_pages chain_connection (queries w))) with
             | [] => []
             | _ :: _ => [OpenForWriting "accounts-with-failed-invariants.json"]
             end /\
      files w'
      = match violations p (concat (account_pages chain_connection (queries w))) with
        | [] => files w
        | invalid => <["accounts-with-failed-invariants.json" := invalid]> (files w)
        end /\
      queries w' = S (queries w) /\
      exists new, log w' = log w ++ new.
Proof.
  intros chain_connection ed v p w Hp.
  unfold perform_account_sanity_checks, bind at 1.
  rewrite (filter_false_accounts_exact chain_connection ed v
             check_account_invariants p "'account invariants'" w Hp).
  destruct (violations p (concat (account_pages chain_connection (queries w))))
    as [|entry rest].
  - cbn. eexists. split; [reflexivity|]. cbn [effects files queries log].
    repeat split. eexists. rewrite <- !app_assoc. reflexivity.
  - rewrite len_cons_positive. unfold save_accounts_to_json_file.
    cbv beta iota zeta delta [bind log_at effect ret].
    cbn [log effects files queries submissions].
    eexists. split; [reflexivity|]. cbn [effects files queries log].
    split; [now rewrite <- app_assoc|]. repeat split.
    eexists. rewrite <- !app_assoc. reflexivity.
Qed.

(** X17.  A run that only checks, on a node whose accounts all have the
    layout of its regime.  It returns; it has connected, read the runtime
    version and the constant Balances.ExistentialDeposit and queried the
    accounts once, in this order.  The accounts for which the predicate of
    the node's regime is false, evaluated with the node's existential
    deposit, are written to accounts-with-failed-invariants.json; when there
    is none, no file is opened and the files stay as they were. *)
Theorem main_audit_only_run :
  forall (args : Args) (SENDER_ACCOUNT : option string) (node : Chain)
         (p : AccountInfo -> bool) (w : World),
    arg_fix_free_balance args = false ->
    arg_upgrade_accounts args = false ->
    (forall entry,
       In entry (concat (account_pages node (queries w))) ->
       check_account_invariants (snd entry)
         (from_spec_version (spec_version node)) (existential_deposit node)
       = Ok (p (snd entry))) ->
    exists w' : World,
      main args SENDER_ACCOUNT node w = (Ok tt, w') /\
      effects w'
      = effects w
        ++ [Connect (arg_ws_url args); GetBlockRuntimeVersion;
            GetConstant "Balances" "ExistentialDeposit";
            QueryMap "System" "Account" 1000]
        ++ match violations p (concat (account_pages node (queries w))) with
           | [] => []
           | _ :: _ => [OpenForWriting "accounts-with-failed-invariants.json"]
           end /\
      files w'
      = match violations p (concat (account_pages node (queries w))) with
        | [] => files w
        | invalid => <["accounts-with-failed-invariants.json" := invalid]> (files w)
        end.
Proof.
  intros args SENDER_ACCOUNT node p w Hfix Hupgrade Hp.
  unfold main. rewrite Hfix, Hupgrade. cbn [orb when].
  unfold get_chain_major_version, SubstrateInterface,
    SubstrateInterface_get_block_runtime_version, SubstrateInterface_get_constant.
  destruct (arg_dry_run args);
    cbv beta iota zeta delta [bind ret when log_at effect];
    cbn [log effects files queries submissions];
    match goal with
    | |- context [perform_account_sanity_checks ?c ?e ?v ?w0] =>
        destruct (perform_account_sanity_checks_exact c e v p w0 Hp)
          as (w1 & Hrun & He & Hf & _)
    end;
    rewrite Hrun; cbn [effects files] in He, Hf;
    (eexists; split; [reflexivity|]); cbn [effects files];
    (split; [rewrite He, <- !app_assoc; reflexivity | exact Hf]).
Qed.

Lemma main_audit_only_run_witness :
  exists w' : World,
    main audit_args None invalid_test_chain (initial_world ∅) = (Ok tt, w') /\
    files w' !! "accounts-with-failed-invariants.json"
    = Some [("invalid", mkAccountInfo 2 0 (AccountDataPre12 600 0 0 0))].
Proof.
  destruct (main_audit_only_run audit_args None invalid_test_chain
              (fun info => providers info <=? 1) (initial_world ∅)
              eq_refl eq_refl)
    as (w' & Hrun & _ & Hfiles).
  { intros entry [<- | [<- | [<- | []]]]; reflexivity. }
  exists w'. split; [exact Hrun|]. rewrite Hfiles. apply lookup_insert_eq.
Defined.

Lemma from_spec_version_pre (spec_version : Z) :
  spec_version <= 65 -> from_spec_version spec_version = PRE_12_MAJOR_VERSION.
Proof. intros H. unfold from_spec_version. apply Z.leb_le in H. now rewrite H. Qed.

Lemma from_spec_version_at_least (spec_version : Z) :
  65 < spec_version -> from_spec_version spec_version = AT_LEAST_12_MAJOR_VERSION.
Proof.
  intros H. unfold from_spec_version. apply Z.leb_gt in H. now rewrite H.
Qed.

(** Whatever its predicate does, the loop of the scanner leaves the calls,
    the files and the number of queries as they were. *)
Lemma filter_false_accounts_loop_world ed v (pred : Predicate) name :
  forall accounts i total acc w r w',
    filter_false_accounts_loop ed v pred name accounts i total acc w = (r, w') ->
    effects w' = effects w /\ files w' = files w /\ queries w' = queries w.
Proof.
  induction accounts as [|[account_id info] rest IH]; intros i total acc w r w' H;
    cbn [filter_false_accounts_loop] in H.
  - injection H as <- <-. auto.
  - unfold bind at 1, lift in H.
    destruct (pred info v ed) as [holds|e]; [|injection H as <- <-; auto].
    destruct holds; cbn [negb] in H; destruct ((i mod 5000 =? 0) && (i >? 0));
      cbv beta iota zeta delta [bind ret when log_at] in H;
      apply IH in H as (He & Hf & Hq);
      cbn [effects files queries] in He, Hf, Hq; auto.
Qed.

(** A scan makes one query and no other call, and leaves the files alone,
    whether it returns or raises. *)
Lemma filter_false_accounts_world chain_connection ed v (pred : Predicate) name :
  forall w r w',
    filter_false_accounts chain_connection ed v pred name w = (r, w') ->
    effects w' = effects w ++ [QueryMap "System" "Account" 1000] /\
    files w' = files w /\ queries w' = S (queries w).
Proof.
  intros w r w' H.
  unfold filter_false_accounts, bind at 1, SubstrateInterface_query_map in H.
  unfold bind at 1 in H.
  match type of H with
  | context [filter_false_accounts_loop ?a ?b ?c ?d ?e ?f ?g ?h ?w0] =>
      destruct (filter_false_accounts_loop a b c d e f g h w0)
        as [[[t acc]|ex] w1] eqn:Hloop;
      apply filter_false_accounts_loop_world in Hloop as (He & Hf & Hq)
  end;
    cbn [effects files queries] in He, Hf, Hq;
    cbv beta iota zeta delta [bind log_at ret] in H;
    injection H as <- <-; cbn [effects files queries]; auto.
Qed.

Lemma find_dust_accounts_world chain_connection ed :
  forall w r w',
    find_dust_accounts chain_connection ed PRE_12_MAJOR_VERSION w = (r, w') ->
    effects w' = effects w ++ [QueryMap "System" "Account" 1000] /\
    files w' = files w /\ queries w' = S (queries w).
Proof.
  intros w r w' H. unfold find_dust_accounts in H.
  cbn [version_eqb py_assert] in H. unfold bind at 1, lift at 1 in H.
  exact (filter_false_accounts_world _ _ _ _ _ _ _ _ H).
Qed.

(** A loop of the scanner that returns has had an answer of its predicate
    for every account. *)
Lemma filter_false_accounts_loop_ok_inv ed v (pred : Predicate) name :
  forall accounts i total acc w r w',
    filter_false_accounts_loop ed v pred name accounts i total acc w = (Ok r, w') ->
    forall entry, In entry accounts -> exists b, pred (snd entry) v ed = Ok b.
Proof.
  induction accounts as [|[account_id info] rest IH];
    intros i total acc w r w' H entry Hin; [destruct Hin|].
  cbn [filter_false_accounts_loop] in H. unfold bind at 1, lift in H.
  destruct (pred info v ed) as [holds|e] eqn:Hpred; [|discriminate H].
  destruct Hin as [<- | Hin]; [now exists holds|].
  destruct holds; cbn [negb] in H; destruct ((i mod 5000 =? 0) && (i >? 0));
    cbv beta iota zeta delta [bind ret when log_at] in H;
    exact (IH _ _ _ _ _ _ H entry Hin).
Qed.

Lemma not_dust_ok_inv (info : AccountInfo) (ed : Z) (b : bool) :
  not_dust info PRE_12_MAJOR_VERSION ed = Ok b ->
  check_account_invariants info PRE_12_MAJOR_VERSION ed = Ok true.
Proof.
  unfold not_dust, check_if_account_would_be_dust_in_12_version.
  cbn [version_eqb py_assert rbind].
  destruct (check_account_invariants info PRE_12_MAJOR_VERSION ed) as [[|]|e];
    cbn [py_assert rbind]; intros H; [reflexivity | discriminate H | discriminate H].
Qed.

(** [find_dust_accounts] returns only when every account it was served
    satisfies the pre-12 predicate. *)
Lemma find_dust_accounts_ok_inv chain_connection ed w dust w' :
  find_dust_accounts chain_connection ed PRE_12_MAJOR_VERSION w = (Ok dust, w') ->
  forall entry,
    In entry (concat (account_pages chain_connection (queries w))) ->
    check_account_invariants (snd entry) PRE_12_MAJOR_VERSION ed = Ok true.
Proof.
  intros H entry Hin. unfold find_dust_accounts in H.
  cbn [version_eqb py_assert] in H. unfold bind at 1, lift at 1 in H.
  fold not_dust in H.
  unfold filter_false_accounts, bind at 1, SubstrateInterface_query_map in H.
  unfold bind at 1 in H.
  match type of H with
  | context [filter_false_accounts_loop ?a ?b ?c ?d ?e ?f ?g ?h ?w0] =>
      destruct (filter_false_accounts_loop a b c d e f g h w0)
        as [[r|ex] w1] eqn:Hloop; [|discriminate H]
  end.
  destruct (filter_false_accounts_loop_ok_inv _ _ _ _ _ _ _ _ _ _ _ Hloop entry Hin)
    as [b Hb].
  exact (not_dust_ok_inv _ _ _ Hb).
Qed.

Lemma find_dust_accounts_exact :
  forall (chain_connection : Chain) (ed : Z) (w : World),
    (forall entry,
       In entry (concat (account_pages chain_connection (queries w))) ->
       check_account_invariants (snd entry) PRE_12_MAJOR_VERSION ed = Ok true) ->
    exists new : list (LogLevel * LogMessage),
      find_dust_accounts chain_connection ed PRE_12_MAJOR_VERSION w
      = (Ok (List.filter (fun entry => data_free (data (snd entry)) <? ed)
               (concat (account_pages chain_connection (queries w)))),
         mkWorld (log w ++ new)
           (effects w ++ [QueryMap "System" "Account" 1000])
           (files w) (S (queries w)) (submissions w)).
Proof.
  intros chain_connection ed w Hvalid. unfold find_dust_accounts.
  cbn [version_eqb py_assert]. unfold bind at 1, lift at 1. fold not_dust.
  rewrite (filter_false_accounts_exact chain_connection ed PRE_12_MAJOR_VERSION
             not_dust (fun info => negb (data_free (data info) <? ed)))
    by (intros entry Hin; apply not_dust_on_valid, Hvalid, Hin).
  rewrite violations_negb. eexists. reflexivity.
Qed.

Lemma chunks_of_nil {A : Type} (n : Z) (cs : list (list A)) :
  chunks (@nil A) n = Ok cs -> cs = [].
Proof.
  unfold chunks, py_range, range_length. cbn [length Z.of_nat].
  destruct (n =? 0); [discriminate|].
  destruct (n >? 0); cbn; intros H; now injection H as <-.
Qed.

(** X18.  [--fix-free-balance] on a pre-12 node that serves an account for
    which the pre-12 predicate is not true.  The run does not return: it ends
    with an exception that is not the one of [exit].  It leaves the files as
    they were, and the calls it has made are an initial part of: connecting,
    reading the version and the existential deposit, deriving the keypair,
    querying the accounts.  So it writes no artifact, composes no transfer,
    and does not reach the sanity check that would have recorded the
    account. *)
Theorem main_fix_free_balance_aborts_on_invalid_account :
  forall (args : Args) (seed : string) (node : Chain) (w : World)
         (entry : AccountId * AccountInfo),
    arg_fix_free_balance args = true ->
    arg_upgrade_accounts args = false ->
    spec_version node <= 65 ->
    In entry (concat (account_pages node (queries w))) ->
    check_account_invariants (snd entry) PRE_12_MAJOR_VERSION
      (existential_deposit node) <> Ok true ->
    exists (e : exn) (w' : World) (calls : list Effect),
      main args (Some seed) node w = (Raise e, w') /\
      (forall code, e <> SystemExit code) /\
      files w' = files w /\
      effects w' = effects w ++ calls /\
      calls `prefix_of`
        [Connect (arg_ws_url args); GetBlockRuntimeVersion;
         GetConstant "Balances" "ExistentialDeposit";
         CreateKeypairFromUri seed; QueryMap "System" "Account" 1000].
Proof.
  intros args seed node w entry Hfix Hupgrade Hversion Hin Hbad.
  unfold main. rewrite Hfix, Hupgrade. cbn [orb].
  unfold get_chain_major_version, SubstrateInterface,
    SubstrateInterface_get_block_runtime_version, SubstrateInterface_get_constant,
    main_fix_free_balance, read_variable, Keypair_create_from_uri.
  destruct (arg_dry_run args);
    cbv beta iota zeta delta [bind ret when log_at effect];
    cbn [log effects files queries submissions ss58_address];
    rewrite (from_spec_version_pre _ Hversion);
    change (version_eqb PRE_12_MAJOR_VERSION PRE_12_MAJOR_VERSION) with true;
    cbv beta iota zeta delta [negb];
    cbn [log effects files queries submissions ss58_address];
    match goal with
    | |- context [find_dust_accounts ?c ?e _ ?w0] =>
        destruct (quiet_find_dust_accounts c e PRE_12_MAJOR_VERSION w0)
          as (_ & _ & Hx);
        destruct (find_dust_accounts c e PRE_12_MAJOR_VERSION w0)
          as [[dust|ex] w1] eqn:Hscan
    end;
    try (exfalso; apply Hbad;
         exact (find_dust_accounts_ok_inv _ _ _ _ _ Hscan entry Hin));
    apply find_dust_accounts_world in Hscan as (He & Hf & _);
    cbn [fst snd effects files] in He, Hf, Hx;
    (exists ex, w1; eexists; split; [reflexivity|]);
    (split; [intros code Heq; apply (Hx code); now rewrite Heq|]);
    (split; [exact Hf|]);
    (split; [rewrite He, <- !app_assoc; reflexivity | reflexivity]).
Qed.

(** A node serving an account with two providers between two dust accounts. *)
Lemma main_fix_free_balance_aborts_on_invalid_account_witness :
  exists (e : exn) (w' : World),
    main dispatch_test_args (Some "//Alice") invalid_test_chain (initial_world ∅)
    = (Raise e, w') /\
    files w' = ∅.
Proof.
  destruct (main_fix_free_balance_aborts_on_invalid_account dispatch_test_args
              "//Alice" invalid_test_chain (initial_world ∅)
              ("invalid", mkAccountInfo 2 0 (AccountDataPre12 600 0 0 0)))
    as (e & w' & calls & Hrun & _ & Hfiles & _).
  - reflexivity.
  - reflexivity.
  - cbn. lia.
  - right. left. reflexivity.
  - discriminate.
  - exists e, w'. split; [exact Hrun | exact Hfiles].
Defined.

(** ** Runs that return *)

Lemma upgraded_accounts_of_transfers (dry_run : bool) (amount : Z) (kp : Keypair)
    (cs : list (list AccountId)) :
  upgraded_accounts (flat_map (transfer_chunk_calls dry_run amount kp) cs) = [].
Proof.
  induction cs as [|c cs IH]; [reflexivity|]. cbn [flat_map].
  rewrite upgraded_accounts_app, IH, app_nil_r. unfold transfer_chunk_calls.
  rewrite upgraded_accounts_app.
  assert (upgraded_accounts
            (map (fun account => ComposeCall (BalancesTransfer account amount)) c)
          = []) as -> by (induction c as [|a c IHc]; [reflexivity | exact IHc]).
  destruct dry_run; reflexivity.
Qed.

Lemma composed_transfers_of_upgrades (dry_run : bool) (kp : Keypair)
    (cs : list (list AccountId)) :
  composed_transfers (flat_map (upgrade_chunk_calls dry_run kp) cs) = [].
Proof.
  induction cs as [|c cs IH]; [reflexivity|]. cbn [flat_map].
  rewrite composed_transfers_app, IH, app_nil_r. destruct dry_run; reflexivity.
Qed.

Lemma read_only_composes_nothing (new : list Effect) :
  forallb is_read_only new = true ->
  composed_transfers new = [] /\ upgraded_accounts new = [].
Proof.
  induction new as [|e new IH]; [now split|]. cbn [forallb].
  intros H. apply andb_prop in H as [He Hnew]. destruct (IH Hnew) as [Hc Hu].
  destruct e; try discriminate He; cbn; auto.
Qed.

(** A call of [submit_extrinsic] that returns has submitted once, or not at
    all in dry-run mode. *)
Lemma submit_extrinsic_ok_inv :
  forall (chain_connection : Chain) (extrinsic : Extrinsic) (expected : Z)
         (dry_run : bool) (w w' : World),
    submit_extrinsic chain_connection extrinsic expected dry_run w = (Ok tt, w') ->
    effects w' = effects w ++ submission_calls dry_run extrinsic /\
    files w' = files w /\ queries w' = queries w.
Proof.
  intros chain_connection extrinsic expected dry_run w w' H.
  unfold submit_extrinsic, try_except,
    substrateinterface_SubstrateRequestException in H.
  destruct dry_run; cbn [negb] in H;
    cbv beta iota zeta delta [bind SubstrateInterface_submit_extrinsic log_at ret] in H;
    cbn [log effects files queries submissions] in H.
  - injection H as <-. cbn [effects files queries submission_calls].
    now rewrite app_nil_r.
  - destruct (submit_outcome chain_connection (submissions w)) as [receipt|msg];
      [|discriminate H].
    destruct (is_success receipt); [unfold when in H;
      destruct (len (triggered_events receipt) <? expected)|];
      cbv beta iota zeta delta [bind log_at ret] in H;
      injection H as <-; cbn [effects files queries submission_calls]; auto.
Qed.

Lemma batch_transfer_chunk_ok_inv :
  forall (args : Args) (chain_connection : Chain) (amount : Z)
         (sender_keypair : Keypair) (chunk : list AccountId) (w w' : World),
    batch_transfer_chunk args chain_connection amount sender_keypair chunk w
    = (Ok tt, w') ->
    effects w'
    = effects w ++ transfer_chunk_calls (arg_dry_run args) amount sender_keypair chunk /\
    files w' = files w /\ queries w' = queries w.
Proof.
  intros args chain_connection amount sender_keypair chunk [lg ef fs q sb] w' H.
  unfold batch_transfer_chunk, bind at 1 in H.
  rewrite mapM_compose_transfers in H.
  cbv beta iota zeta delta
    [bind SubstrateInterface_compose_call SubstrateInterface_create_signed_extrinsic
     effect log_at ret] in H.
  cbn [log effects files queries submissions] in H.
  apply submit_extrinsic_ok_inv in H as (He & Hf & Hq).
  cbn [effects files queries] in He, Hf, Hq |- *.
  split; [rewrite He; unfold transfer_chunk_calls, transfer_batch;
          now rewrite <- !app_assoc|].
  split; assumption.
Qed.

Lemma upgrade_accounts_chunk_ok_inv :
  forall (args : Args) (existential_deposit : Z) (chain_connection : Chain)
         (sender_keypair : Keypair) (chunk : list AccountId) (w w' : World),
    upgrade_accounts_chunk args existential_deposit chain_connection
      sender_keypair chunk w = (Ok tt, w') ->
    effects w'
    = effects w ++ upgrade_chunk_calls (arg_dry_run args) sender_keypair chunk /\
    files w' = files w /\ queries w' = queries w.
Proof.
  intros args existential_deposit chain_connection sender_keypair chunk
         [lg ef fs q sb] w' H.
  unfold upgrade_accounts_chunk in H.
  cbv beta iota zeta delta
    [bind SubstrateInterface_compose_call SubstrateInterface_create_signed_extrinsic
     effect log_at ret] in H.
  cbn [log effects files queries submissions] in H.
  apply submit_extrinsic_ok_inv in H as (He & Hf & Hq).
  cbn [effects files queries] in He, Hf, Hq |- *.
  split; [rewrite He; unfold upgrade_chunk_calls; now rewrite <- !app_assoc|].
  split; assumption.
Qed.

(** A loop that returns has run every iteration, in order. *)
Lemma for_each_ok_inv {A : Type} (body : A -> M unit) (calls : A -> list Effect) :
  (forall x w w',
     body x w = (Ok tt, w') ->
     effects w' = effects w ++ calls x /\
     files w' = files w /\ queries w' = queries w) ->
  forall (xs : list A) (w w' : World),
    for_each xs body w = (Ok tt, w') ->
    effects w' = effects w ++ flat_map calls xs /\
    files w' = files w /\ queries w' = queries w.
Proof.
  intros Hbody. induction xs as [|x xs IH]; intros w w' H.
  - cbn in H. injection H as <-. cbn. now rewrite app_nil_r.
  - cbn [for_each] in H. apply bind_ok_inv in H as ([] & w1 & H1 & H).
    apply Hbody in H1 as (He1 & Hf1 & Hq1). apply IH in H as (He & Hf & Hq).
    cbn [flat_map]. split; [now rewrite He, He1, <- app_assoc|].
    split; congruence.
Qed.

(** [batch_transfer] with a batch size of at least 1 returns only after
    composing one transfer for each address it was given. *)
Lemma batch_transfer_ok_inv :
  forall (args input_args : Args) (chain_connection : Chain)
         (accounts : list AccountId) (amount : Z) (sender_keypair : Keypair)
         (w w' : World),
    1 <= arg_transfer_calls_in_batch input_args ->
    batch_transfer args chain_connection input_args accounts amount
      sender_keypair w = (Ok tt, w') ->
    composed_transfers (effects w')
    = composed_transfers (effects w)
      ++ map (fun account => (account, amount)) accounts /\
    upgraded_accounts (effects w') = upgraded_accounts (effects w) /\
    files w' = files w /\ queries w' = queries w.
Proof.
  intros args input_args chain_connection accounts amount sender_keypair w w'
         Hn H.
  unfold batch_transfer in H. apply bind_ok_inv in H as (cs & w1 & Hcs & H).
  unfold lift in Hcs. injection Hcs as Hcs <-.
  apply (for_each_ok_inv _
           (transfer_chunk_calls (arg_dry_run args) amount sender_keypair)) in H
    as (He & Hf & Hq);
    [|intros x w0 w0'; apply batch_transfer_chunk_ok_inv].
  rewrite He, composed_transfers_app, composed_transfers_chunks,
    upgraded_accounts_app, upgraded_accounts_of_transfers, app_nil_r.
  rewrite (chunks_concat accounts _ cs Hn Hcs). repeat split; assumption.
Qed.

(** [upgrade_accounts] with a batch size of at least 1 returns only after
    naming, in its upgrade calls, every account its query was served. *)
Lemma upgrade_accounts_ok_inv :
  forall (args input_args : Args) (existential_deposit ed : Z)
         (chain_connection : Chain) (v : ChainMajorVersion)
         (sender_keypair : Keypair) (w w' : World),
    1 <= arg_upgrade_accounts_in_batch input_args ->
    upgrade_accounts args existential_deposit chain_connection input_args ed v
      sender_keypair w = (Ok tt, w') ->
    upgraded_accounts (effects w')
    = upgraded_accounts (effects w)
      ++ map fst (concat (account_pages chain_connection (queries w))) /\
    composed_transfers (effects w') = composed_transfers (effects w) /\
    files w' = files w /\ queries w' = S (queries w).
Proof.
  intros args input_args existential_deposit ed chain_connection v
         sender_keypair w w' Hn H.
  unfold upgrade_accounts, bind at 1, log_at at 1 in H.
  destruct (filter_false_accounts_run ed v (fun _ _ _ => Ok false)
              (fun _ => false) "'all accounts'" chain_connection
              (mkWorld (log w ++ [(INFO, QueryingAllAccounts)]) (effects w)
                       (files w) (queries w) (submissions w))
              (fun _ _ => eq_refl))
    as (w1 & Hscan & _ & He1 & Hf1 & Hq1 & _).
  cbn [queries effects files] in Hscan, He1, Hf1, Hq1.
  unfold bind at 1 in H. rewrite Hscan, violations_always_false, map_map in H.
  cbn [fst] in H.
  apply bind_ok_inv in H as (cs & w2 & Hcs & H).
  unfold lift in Hcs. injection Hcs as Hcs <-.
  apply (for_each_ok_inv _
           (upgrade_chunk_calls (arg_dry_run args) sender_keypair)) in H
    as (He & Hf & Hq);
    [|intros x w0 w0'; apply upgrade_accounts_chunk_ok_inv].
  rewrite He, He1, !upgraded_accounts_app, !composed_transfers_app,
    upgraded_accounts_chunks, composed_transfers_of_upgrades.
  cbn [upgraded_accounts composed_transfers flat_map app]. rewrite !app_nil_r.
  rewrite (chunks_concat _ _ cs Hn Hcs).
  split; [reflexivity|]. split; [reflexivity|]. split; congruence.
Qed.

(** The fix-free-balance block returns only on accounts that all satisfy the
    pre-12 predicate, after composing one transfer to each dust account and
    writing them to dust-accounts.json. *)
Lemma main_fix_free_balance_ok_inv :
  forall (args : Args) (chain_connection : Chain) (ed : Z)
         (seed : option string) (w w' : World),
    1 <= arg_transfer_calls_in_batch args ->
    main_fix_free_balance args chain_connection ed PRE_12_MAJOR_VERSION seed w
    = (Ok tt, w') ->
    (forall entry,
       In entry (concat (account_pages chain_connection (queries w))) ->
       check_account_invariants (snd entry) PRE_12_MAJOR_VERSION ed = Ok true) /\
    composed_transfers (effects w')
    = composed_transfers (effects w)
      ++ map (fun entry : AccountId * AccountInfo => (fst entry, ed))
           (List.filter (fun entry => data_free (data (snd entry)) <? ed)
              (concat (account_pages chain_connection (queries w)))) /\
    upgraded_accounts (effects w') = upgraded_accounts (effects w) /\
    files w'
    = match List.filter (fun entry => data_free (data (snd entry)) <? ed)
              (concat (account_pages chain_connection (queries w))) with
      | [] => files w
      | dust => <["dust-accounts.json" := dust]> (files w)
      end.
Proof.
  intros args chain_connection ed seed w w' Hn H.
  destruct seed as [seed|]; [|discriminate H].
  unfold main_fix_free_balance, read_variable, Keypair_create_from_uri in H.
  cbv beta iota zeta delta [bind ret log_at effect] in H.
  cbn [log effects files queries submissions ss58_address] in H.
  match type of H with
  | context [find_dust_accounts ?c ?e ?v ?w0] =>
      destruct (find_dust_accounts c e v w0) as [[found|ex] w1] eqn:Hscan;
        [|discriminate H];
      pose proof (find_dust_accounts_ok_inv _ _ _ _ _ Hscan) as Hvalid;
      destruct (find_dust_accounts_exact c e w0 Hvalid) as (new & Hexact)
  end.
  cbn [queries] in Hvalid. split; [exact Hvalid|].
  rewrite Hexact in Hscan. injection Hscan as <- <-.
  cbn [log effects files queries submissions] in H.
  destruct (List.filter _ _) as [|entry dust].
  - cbn in H. injection H as <-. cbn [effects files].
    rewrite !composed_transfers_app, !upgraded_accounts_app. cbn.
    now rewrite !app_nil_r.
  - rewrite len_cons_nonzero in H. cbn [negb] in H.
    unfold save_accounts_to_json_file in H.
    cbv beta iota zeta delta [bind ret log_at effect] in H.
    cbn [log effects files queries submissions] in H.
    match type of H with
    | context [batch_transfer ?a ?c ?ia ?accs ?amt ?kp ?w0] =>
        destruct (batch_transfer a c ia accs amt kp w0) as [[[]|ex] w2] eqn:Hbt;
          [|discriminate H];
        apply (batch_transfer_ok_inv _ _ _ _ _ _ _ _ Hn) in Hbt
          as (Hpaid & Hnamed & Hf2 & _)
    end.
    injection H as <-. cbn [effects files] in Hpaid, Hnamed, Hf2 |- *.
    rewrite Hpaid, Hnamed, !composed_transfers_app, !upgraded_accounts_app.
    cbn [composed_transfers upgraded_accounts flat_map app].
    rewrite !app_nil_r, map_map. cbn [fst].
    split; [reflexivity|]. split; [reflexivity | exact Hf2].
Qed.

(** The upgrade-accounts block returns only after naming every account it was
    served; it composes no transfer and writes no file. *)
Lemma main_upgrade_accounts_ok_inv :
  forall (args : Args) (chain_connection : Chain) (ed : Z)
         (v : ChainMajorVersion) (seed : option string) (w w' : World),
    1 <= arg_upgrade_accounts_in_batch args ->
    main_upgrade_accounts args chain_connection ed v seed w = (Ok tt, w') ->
    upgraded_accounts (effects w')
    = upgraded_accounts (effects w)
      ++ map fst (concat (account_pages chain_connection (queries w))) /\
    composed_transfers (effects w') = composed_transfers (effects w) /\
    files w' = files w.
Proof.
  intros args chain_connection ed v seed w w' Hn H.
  destruct seed as [seed|]; [|discriminate H].
  unfold main_upgrade_accounts, read_variable, Keypair_create_from_uri in H.
  cbv beta iota zeta delta [bind ret log_at effect] in H.
  cbn [log effects files queries submissions ss58_address] in H.
  match type of H with
  | context [upgrade_accounts ?a ?gd ?c ?ia ?e ?v0 ?kp ?w0] =>
      destruct (upgrade_accounts a gd c ia e v0 kp w0) as [[[]|ex] w1] eqn:Hup;
        [|discriminate H];
      apply (upgrade_accounts_ok_inv _ _ _ _ _ _ _ _ _ Hn) in Hup
        as (Hnamed & Hpaid & Hf1 & _)
  end.
  injection H as <-. cbn [effects files queries] in Hnamed, Hpaid, Hf1 |- *.
  rewrite Hnamed, Hpaid, !upgraded_accounts_app, !composed_transfers_app.
  cbn. rewrite !app_nil_r. repeat split. exact Hf1.
Qed.

(** The sanity check composes no call and touches no file but its own
    artifact. *)
Lemma perform_account_sanity_checks_frame chain_connection ed v w :
  composed_transfers (effects (snd (perform_account_sanity_checks chain_connection ed v w)))
  = composed_transfers (effects w) /\
  upgraded_accounts (effects (snd (perform_account_sanity_checks chain_connection ed v w)))
  = upgraded_accounts (effects w) /\
  forall name,
    name <> "accounts-with-failed-invariants.json" ->
    files (snd (perform_account_sanity_checks chain_connection ed v w)) !! name
    = files w !! name.
Proof.
  destruct (calls_only_perform_account_sanity_checks is_read_only
              chain_connection ed v eq_refl eq_refl w) as (new & He & Hnew).
  rewrite He, composed_transfers_app, upgraded_accounts_app.
  destruct (read_only_composes_nothing new Hnew) as [-> ->].
  rewrite !app_nil_r. split; [reflexivity|]. split; [reflexivity|].
  intros name Hname. unfold perform_account_sanity_checks, bind at 1.
  destruct (filter_false_accounts chain_connection ed v check_account_invariants
              "'account invariants'" w) as [[invalid|ex] w1] eqn:Hscan;
    apply filter_false_accounts_world in Hscan as (_ & Hf & _);
    cbn [snd]; [|now rewrite Hf].
  destruct (len invalid >? 0); unfold save_accounts_to_json_file;
    cbv beta iota zeta delta [bind ret log_at effect];
    cbn [snd log effects files queries submissions];
    [rewrite lookup_insert_ne by congruence|]; now rewrite Hf.
Qed.

(** A version check that lets the run go on. *)
Lemma version_check_ok_inv (flag : bool) (v required : ChainMajorVersion)
    (msg : LogMessage) (code : Z) (w w' : World) (u : unit) :
  when flag (when (negb (version_eqb v required)) (log_at ERROR msg ;; exit code)) w
  = (Ok u, w') ->
  w' = w /\ (flag = true -> v = required).
Proof.
  unfold when. destruct flag; [|intros H; injection H as _ <-; now split].
  destruct (version_eqb v required) eqn:E; cbn [negb].
  - intros H. injection H as _ <-. split; [reflexivity|]. intros _.
    unfold version_eqb in E. now apply bool_decide_eq_true in E.
  - cbv [bind log_at exit raise]. discriminate.
Qed.

(** What a run of [__main__] that returns has gone through: the two blocks,
    each under its flag, then the sanity check. *)
Lemma main_ok_inv :
  forall (args : Args) (SENDER_ACCOUNT : option string) (node : Chain)
         (w w' : World),
    main args SENDER_ACCOUNT node w = (Ok tt, w') ->
    exists (seed : option string) (w0 w1 w2 w3 : World),
      effects w0
      = effects w ++ [Connect (arg_ws_url args); GetBlockRuntimeVersion;
                      GetConstant "Balances" "ExistentialDeposit"] /\
      files w0 = files w /\ queries w0 = queries w /\
      when (arg_fix_free_balance args)
        (main_fix_free_balance args node (existential_deposit node)
           (from_spec_version (spec_version node)) seed) w0 = (Ok tt, w1) /\
      when (arg_upgrade_accounts args)
        (main_upgrade_accounts args node (existential_deposit node)
           (from_spec_version (spec_version node)) seed) w1 = (Ok tt, w2) /\
      effects w3 = effects w2 /\ files w3 = files w2 /\
      effects w'
      = effects (snd (perform_account_sanity_checks node (existential_deposit node)
                        (from_spec_version (spec_version node)) w3)) /\
      files w'
      = files (snd (perform_account_sanity_checks node (existential_deposit node)
                      (from_spec_version (spec_version node)) w3)) /\
      (arg_fix_free_balance args = true ->
       from_spec_version (spec_version node) = PRE_12_MAJOR_VERSION) /\
      (arg_upgrade_accounts args = true ->
       from_spec_version (spec_version node) = AT_LEAST_12_MAJOR_VERSION).
Proof.
  intros args SENDER_ACCOUNT node w w' H. unfold main in H.
  apply bind_ok_inv in H as (seed & w1 & H1 & H).
  apply bind_ok_inv in H as (? & w2 & H2 & H).
  apply bind_ok_inv in H as (conn & w3 & H3 & H).
  apply bind_ok_inv in H as (? & w4 & H4 & H).
  apply bind_ok_inv in H as (v & w5 & H5 & H).
  apply bind_ok_inv in H as (? & w6 & H6 & H).
  apply bind_ok_inv in H as (? & w7 & H7 & H).
  apply bind_ok_inv in H as (? & w8 & H8 & H).
  apply bind_ok_inv in H as (ed & w9 & H9 & H).
  apply bind_ok_inv in H as (? & w10 & H10 & H).
  apply bind_ok_inv in H as ([] & w11 & Hfix & H).
  apply bind_ok_inv in H as ([] & w12 & Hupgrade & H).
  apply bind_ok_inv in H as (? & w13 & H13 & H).
  apply bind_ok_inv in H as ([] & w14 & Hsanity & H).
  assert (w1 = w) as ->
    by (destruct (_ || _), SENDER_ACCOUNT;
        cbv [bind log_at exit raise ret] in H1; congruence).
  assert (effects w2 = effects w /\ files w2 = files w /\ queries w2 = queries w)
    as (He2 & Hf2 & Hq2)
    by (destruct (arg_dry_run args); cbv [when log_at ret] in H2;
        simplify_eq; cbn; auto).
  apply version_check_ok_inv in H7 as (-> & Hpre).
  apply version_check_ok_inv in H8 as (-> & Hpost).
  cbv [SubstrateInterface bind effect ret] in H3.
  cbv [log_at] in H4.
  cbv [get_chain_major_version SubstrateInterface_get_block_runtime_version
       bind effect ret] in H5.
  cbv [log_at] in H6.
  cbv [SubstrateInterface_get_constant bind effect ret] in H9.
  cbv [log_at] in H10, H13, H.
  simplify_eq. cbn [log effects files queries submissions] in *.
  eexists seed, _, w11, w12, _.
  split; [|split; [|split; [|split; [exact Hfix|split; [exact Hupgrade|]]]]];
    cbn [effects files queries].
  - rewrite He2, <- !app_assoc. reflexivity.
  - exact Hf2.
  - exact Hq2.
  - rewrite Hsanity. cbn [snd effects files]. repeat split; assumption.
Qed.

(** X19.  A [--fix-free-balance] run that returns, the batch size being at
    least 1.  Every account its first query was served satisfies the pre-12
    predicate with the node's existential deposit.  The transfers it
    composed are one transfer of that deposit to each of those accounts with
    [free < ED], in yield order, and to no other account; dust-accounts.json
    holds those accounts, or is left as it was when there is none. *)
Theorem main_fix_free_balance_run :
  forall (args : Args) (SENDER_ACCOUNT : option string) (node : Chain)
         (w w' : World),
    arg_fix_free_balance args = true ->
    1 <= arg_transfer_calls_in_batch args ->
    main args SENDER_ACCOUNT node w = (Ok tt, w') ->
    (forall entry,
       In entry (concat (account_pages node (queries w))) ->
       check_account_invariants (snd entry) PRE_12_MAJOR_VERSION
         (existential_deposit node) = Ok true) /\
    composed_transfers (effects w')
    = composed_transfers (effects w)
      ++ map (fun entry : AccountId * AccountInfo =>
                (fst entry, existential_deposit node))
           (List.filter
              (fun entry => data_free (data (snd entry)) <? existential_deposit node)
              (concat (account_pages node (queries w)))) /\
    files w' !! "dust-accounts.json"
    = match List.filter
              (fun entry => data_free (data (snd entry)) <? existential_deposit node)
              (concat (account_pages node (queries w))) with
      | [] => files w !! "dust-accounts.json"
      | dust => Some dust
      end.
Proof.
  intros args SENDER_ACCOUNT node w w' Hfix Hn H.
  apply main_ok_inv in H
    as (seed & w0 & w1 & w2 & w3 & He0 & Hf0 & Hq0 & Hblock & Hother & He3 & Hf3
        & He & Hf & Hpre & Hpost).
  rewrite Hfix in Hblock. rewrite (Hpre Hfix) in *. cbn [when] in Hblock.
  destruct (arg_upgrade_accounts args);
    [specialize (Hpost eq_refl); discriminate Hpost|].
  cbn [when] in Hother. injection Hother as <-.
  apply main_fix_free_balance_ok_inv in Hblock as (Hvalid & Hpaid & _ & Hf1);
    [|exact Hn].
  rewrite Hq0 in Hvalid, Hpaid, Hf1.
  destruct (perform_account_sanity_checks_frame node (existential_deposit node)
              PRE_12_MAJOR_VERSION w3) as (Hc & _ & Hfiles).
  split; [exact Hvalid|]. split.
  - rewrite He, Hc, He3, Hpaid, He0, composed_transfers_app. cbn.
    now rewrite app_nil_r.
  - rewrite Hf, Hfiles by discriminate. rewrite Hf3, Hf1, Hf0.
    destruct (List.filter _ _); [reflexivity | apply lookup_insert_eq].
Qed.

(** A node serving a funded account and a dust account, and including every
    submission. *)
Lemma main_fix_free_balance_run_witness :
  composed_transfers
    (effects (snd (main dispatch_test_args (Some "//Alice") dust_test_chain
                     (initial_world ∅))))
  = [("dust", 500)] /\
  files (snd (main dispatch_test_args (Some "//Alice") dust_test_chain
                (initial_world ∅))) !! "dust-accounts.json"
  = Some [("dust", mkAccountInfo 1 0 (AccountDataPre12 499 1 0 0))].
Proof.
  refine (proj2 (main_fix_free_balance_run dispatch_test_args (Some "//Alice")
                   dust_test_chain (initial_world ∅)
                   (snd (main dispatch_test_args (Some "//Alice") dust_test_chain
                           (initial_world ∅))) eq_refl _ _)).
  - cbn. lia.
  - vm_compute. reflexivity.
Defined.

(** X20.  A run that returns has ended with the sanity check.  Whatever the
    mode, if [__main__] runs to its end, its last act before logging DONE was
    [perform_account_sanity_checks] on the connected node, with the
    existential deposit read from that node and the regime of its runtime
    version, and that check returned.  A returning run with
    [--fix-free-balance] was on a pre-12 node, one with [--upgrade-accounts]
    on an at-least-12 node. *)
Theorem main_returns_after_sanity_check :
  forall (args : Args) (SENDER_ACCOUNT : option string) (node : Chain)
         (w w' : World),
    main args SENDER_ACCOUNT node w = (Ok tt, w') ->
    (exists w1 w2 : World,
       perform_account_sanity_checks node (existential_deposit node)
         (from_spec_version (spec_version node)) w1 = (Ok tt, w2) /\
       log w' = log w2 ++ [(INFO, Done)] /\
       effects w' = effects w2 /\ files w' = files w2) /\
    (arg_fix_free_balance args = true ->
     from_spec_version (spec_version node) = PRE_12_MAJOR_VERSION) /\
    (arg_upgrade_accounts args = true ->
     from_spec_version (spec_version node) = AT_LEAST_12_MAJOR_VERSION).
Proof.
  intros args SENDER_ACCOUNT node w w' H. unfold main in H.
  apply bind_ok_inv in H as (seed & w1 & _ & H).
  apply bind_ok_inv in H as (? & w2 & _ & H).
  apply bind_ok_inv in H as (conn & w3 & Hconn & H).
  assert (conn = node) as -> by (cbv in Hconn; congruence).
  apply bind_ok_inv in H as (? & w4 & _ & H).
  apply bind_ok_inv in H as (v & w5 & Hv & H).
  assert (v = from_spec_version (spec_version node)) as Hregime
    by (cbv [get_chain_major_version SubstrateInterface_get_block_runtime_version
             bind effect ret] in Hv; congruence).
  apply bind_ok_inv in H as (? & w6 & _ & H).
  apply bind_ok_inv in H as (? & w7 & Hfix & H).
  apply bind_ok_inv in H as (? & w8 & Hupgrade & H).
  apply bind_ok_inv in H as (ed & w9 & Hed & H).
  assert (ed = existential_deposit node) as ->
    by (cbv [SubstrateInterface_get_constant bind effect ret] in Hed; congruence).
  apply bind_ok_inv in H as (? & w10 & _ & H).
  apply bind_ok_inv in H as (? & w11 & _ & H).
  apply bind_ok_inv in H as (? & w12 & _ & H).
  apply bind_ok_inv in H as (? & w13 & _ & H).
  apply bind_ok_inv in H as ([] & w14 & Hsanity & H).
  rewrite Hregime in Hsanity. split; [|split].
  - exists w13, w14. split; [exact Hsanity|].
    cbv [log_at] in H. injection H as <-. cbn [log effects files]. repeat split.
  - intros Hflag. rewrite Hflag in Hfix. rewrite <- Hregime.
    destruct v; [reflexivity | discriminate Hfix].
  - intros Hflag. rewrite Hflag in Hupgrade. rewrite <- Hregime.
    destruct v; [discriminate Hupgrade | reflexivity].
Qed.

Lemma main_returns_after_sanity_check_witness :
  from_spec_version (spec_version dust_test_chain) = PRE_12_MAJOR_VERSION.
Proof.
  refine (proj1 (proj2 (main_returns_after_sanity_check dispatch_test_args
                          (Some "seed") dust_test_chain (initial_world ∅)
                          (snd (main dispatch_test_args (Some "seed") dust_test_chain
                                  (initial_world ∅))) _)) eq_refl).
  vm_compute. reflexivity.
Defined.

(** X21.  A transport failure during [--fix-free-balance] ends the run.  On a
    pre-12 node whose accounts all satisfy the pre-12 predicate, outside
    dry-run mode, if the submission of chunk [k] of the dust accounts is the
    first to raise, [__main__] does not return: it ends with an exception
    that is not the one of [exit].  The calls it has made are an initial part
    of: connecting, reading the version and the existential deposit, deriving
    the keypair, querying the accounts, opening dust-accounts.json, and the
    calls of chunks 0 to [k].  So no later chunk is built, the closing sanity
    check does not run, and no file other than dust-accounts.json is
    touched. *)
Theorem main_fix_free_balance_transport_failure :
  forall (args : Args) (seed : string) (node : Chain) (w : World)
         (cs : list (list AccountId)) (k : nat) (msg : string),
    arg_fix_free_balance args = true ->
    arg_upgrade_accounts args = false ->
    arg_dry_run args = false ->
    spec_version node <= 65 ->
    (forall entry,
       In entry (concat (account_pages node (queries w))) ->
       check_account_invariants (snd entry) PRE_12_MAJOR_VERSION
         (existential_deposit node) = Ok true) ->
    chunks
      (map fst
         (List.filter
            (fun entry => data_free (data (snd entry)) <? existential_deposit node)
            (concat (account_pages node (queries w)))))
      (arg_transfer_calls_in_batch args) = Ok cs ->
    (k < length cs)%nat ->
    (forall j, (j < k)%nat ->
       exists receipt, submit_outcome node (submissions w + j) = Included receipt) ->
    submit_outcome node (submissions w + k) = TransportFailure msg ->
    exists (e : exn) (w' : World) (calls : list Effect),
      main args (Some seed) node w = (Raise e, w') /\
      (forall code, e <> SystemExit code) /\
      effects w' = effects w ++ calls /\
      calls `prefix_of`
        [Connect (arg_ws_url args); GetBlockRuntimeVersion;
         GetConstant "Balances" "ExistentialDeposit";
         CreateKeypairFromUri seed; QueryMap "System" "Account" 1000;
         OpenForWriting "dust-accounts.json"]
        ++ flat_map (transfer_chunk_effects (existential_deposit node)
                       {| ss58_address := seed |})
             (take (S k) cs) /\
      forall name,
        name <> "dust-accounts.json" -> files w' !! name = files w !! name.
Proof.
  intros args seed node w cs k msg Hfix Hupgrade Hdry Hversion Hvalid Hcs Hk
         Hbefore Hfail.
  unfold main. rewrite Hfix, Hupgrade, Hdry. cbn [orb].
  unfold get_chain_major_version, SubstrateInterface,
    SubstrateInterface_get_block_runtime_version, SubstrateInterface_get_constant,
    main_fix_free_balance, read_variable, Keypair_create_from_uri.
  cbv beta iota zeta delta [bind ret when log_at effect].
  cbn [log effects files queries submissions ss58_address].
  rewrite (from_spec_version_pre _ Hversion).
  change (version_eqb PRE_12_MAJOR_VERSION PRE_12_MAJOR_VERSION) with true.
  cbv beta iota zeta delta [negb].
  cbn [log effects files queries submissions ss58_address].
  match goal with
  | |- context [find_dust_accounts ?c ?e _ ?w0] =>
      destruct (find_dust_accounts_exact c e w0 Hvalid) as (new & Hscan)
  end.
  rewrite Hscan. cbn [log effects files queries submissions].
  destruct (List.filter _ _) as [|entry dust] eqn:Hdust.
  { apply chunks_of_nil in Hcs. subst cs. inversion Hk. }
  rewrite len_cons_nonzero. unfold save_accounts_to_json_file.
  cbv beta iota zeta delta [bind ret log_at effect negb].
  cbn [log effects files queries submissions].
  unfold batch_transfer at 1, bind at 1, lift at 1. rewrite Hcs.
  match goal with
  | |- context [for_each cs ?body ?w0] =>
      destruct (for_each_chunk_transport_failure args node
                  (existential_deposit node) {| ss58_address := seed |} Hdry
                  cs k msg w0 Hk Hbefore Hfail)
        as (w' & Hrun & He & Hf & _)
  end.
  rewrite Hrun. cbn [effects files] in He, Hf.
  eexists _, w', _. split; [reflexivity|].
  split; [discriminate|].
  split; [rewrite He, <- !app_assoc; reflexivity|].
  split; [reflexivity|].
  intros name Hname. rewrite Hf. now apply lookup_insert_ne.
Qed.

(** A node serving one dust account and dropping every submission. *)
Lemma main_fix_free_balance_transport_failure_witness :
  exists (e : exn) (w' : World),
    main dispatch_test_args (Some "//Alice") unreachable_dust_chain
      (initial_world ∅) = (Raise e, w') /\
    files w' !! "accounts-with-failed-invariants.json" = None.
Proof.
  destruct (main_fix_free_balance_transport_failure dispatch_test_args "//Alice"
              unreachable_dust_chain (initial_world ∅) [["dust"]] 0
              "connection closed")
    as (e & w' & calls & Hrun & _ & _ & _ & Hfiles).
  - reflexivity.
  - reflexivity.
  - reflexivity.
  - cbn. lia.
  - intros entry [<- | [<- | []]]; reflexivity.
  - reflexivity.
  - cbn. lia.
  - intros j Hj. inversion Hj.
  - reflexivity.
  - exists e, w'. split; [exact Hrun|].
    rewrite Hfiles by discriminate. apply lookup_empty.
Defined.

(** X22.  An [--upgrade-accounts] run that returns, the batch size being at
    least 1.  The upgrade calls it composed name every account its first
    query was served, each once and in yield order; it composed no transfer;
    and the only file it may have written is the artifact of the sanity
    check. *)
Theorem main_upgrade_accounts_run :
  forall (args : Args) (SENDER_ACCOUNT : option string) (node : Chain)
         (w w' : World),
    arg_upgrade_accounts args = true ->
    1 <= arg_upgrade_accounts_in_batch args ->
    main args SENDER_ACCOUNT node w = (Ok tt, w') ->
    upgraded_accounts (effects w')
    = upgraded_accounts (effects w)
      ++ map fst (concat (account_pages node (queries w))) /\
    composed_transfers (effects w') = composed_transfers (effects w) /\
    forall name,
      name <> "accounts-with-failed-invariants.json" ->
      files w' !! name = files w !! name.
Proof.
  intros args SENDER_ACCOUNT node w w' Hupgrade Hn H.
  apply main_ok_inv in H
    as (seed & w0 & w1 & w2 & w3 & He0 & Hf0 & Hq0 & Hother & Hblock & He3 & Hf3
        & He & Hf & Hpre & Hpost).
  rewrite Hupgrade in Hblock. cbn [when] in Hblock.
  destruct (arg_fix_free_balance args);
    [specialize (Hpre eq_refl); rewrite (Hpost Hupgrade) in Hpre;
     discriminate Hpre|].
  cbn [when] in Hother. injection Hother as <-.
  apply main_upgrade_accounts_ok_inv in Hblock as (Hnamed & Hpaid & Hf2);
    [|exact Hn].
  rewrite Hq0 in Hnamed.
  destruct (perform_account_sanity_checks_frame node (existential_deposit node)
              (from_spec_version (spec_version node)) w3) as (Hc & Hu & Hfiles).
  split; [|split].
  - rewrite He, Hu, He3, Hnamed, He0, upgraded_accounts_app. cbn.
    now rewrite app_nil_r.
  - rewrite He, Hc, He3, Hpaid, He0, composed_transfers_app. cbn.
    now rewrite app_nil_r.
  - intros name Hname. rewrite Hf, Hfiles by exact Hname.
    now rewrite Hf3, Hf2, Hf0.
Qed.

(** A dry run of the upgrade on a node holding two valid accounts. *)
Lemma main_upgrade_accounts_run_witness :
  upgraded_accounts
    (effects (snd (main upgrade_dry_run_args (Some "//Alice") upgraded_pair_chain
                     (initial_world ∅))))
  = ["first"; "second"].
Proof.
  refine (proj1 (main_upgrade_accounts_run upgrade_dry_run_args (Some "//Alice")
                   upgraded_pair_chain (initial_world ∅)
                   (snd (main upgrade_dry_run_args (Some "//Alice")
                           upgraded_pair_chain (initial_world ∅))) eq_refl _ _)).
  - cbn. lia.
  - vm_compute. reflexivity.
Defined.
